(** * iJMA knowledge subsystem: a shallow embedding of [jma_knowledge.cpp],
    [knowledge.cpp] and [jma_ctype_sjis.cpp], and the properties of its
    configuration parser, separator sets and user-dictionary converter. *)

From Stdlib Require Import ZArith Ascii String List Lia Bool.
From stdpp Require Import base option list gmap strings.

Local Open Scope Z_scope.

(** ** Fatal outcomes

    The source stops the process through [assert]; dereferencing the null
    pointer stops it as well.  Every function that can reach one of these
    returns a [result]. *)

Inductive fatal : Type :=
  | assert_sjis_trail      (* assert(uc[1]) in JMA_CType_SJIS::getByteCount *)
  | assert_char_length     (* assert(false && "Cannot handle Character's length > 4") *)
  | assert_occupied_bytes  (* assert( ret > 0 && ret < 4 ) in getOccupiedBytes *)
  | assert_pos_size        (* assert(posSize > 0 ...) in convertTxtToCSV *)
  | assert_bin_user_dic    (* assert(! binUserDic_.empty() ...) in createTagger *)
  | null_dereference.      (* *p where p is the null pointer *)

Inductive result (A : Type) : Type :=
  | Ok (a : A)
  | Fatal (f : fatal).
Arguments Ok {A} a.
Arguments Fatal {A} f.

Definition bind {A B : Type} (r : result A) (f : A -> result B) : result B :=
  match r with
  | Ok a => f a
  | Fatal e => Fatal e
  end.

Notation "x <~ e ;; k" := (bind e (fun x => k))
  (at level 20, e at level 99, k at level 200, only parsing).
Notation "' p <~ e ;; k" := (bind e (fun x => let 'p := x in k))
  (at level 20, p pattern, e at level 99, k at level 200, only parsing).

(** ** Bytes and C strings

    Text is a [string] of 8-bit characters.  A [const char*] is modelled by
    the characters it points to; reading [uc[i]] at or after the end yields
    the terminating null. *)

Definition LF : ascii := "010"%char.
Definition CR : ascii := "013"%char.
Definition NUL : ascii := "000"%char.

Definition byte_val (c : ascii) : Z := Z.of_N (N_of_ascii c).

Definition uc (p : string) (i : nat) : Z :=
  match String.get i p with
  | Some c => byte_val c
  | None => 0
  end.

(** [std::string::c_str()] seen as a C string: the characters before the
    first null. *)
Fixpoint c_str (s : string) : string :=
  match s with
  | EmptyString => EmptyString
  | String c s' => if Ascii.eqb c NUL then EmptyString else String c (c_str s')
  end.

Fixpoint str_take (n : nat) (s : string) : string :=
  match n, s with
  | S n', String c s' => String c (str_take n' s')
  | _, _ => EmptyString
  end.

Fixpoint str_drop (n : nat) (s : string) : string :=
  match n, s with
  | S n', String _ s' => str_drop n' s'
  | _, _ => s
  end.

Fixpoint str_concat (l : list string) : string :=
  match l with
  | [] => EmptyString
  | s :: l' => s +:+ str_concat l'
  end.

(** [isspace] in the "C" locale. *)
Definition isspace (c : ascii) : bool :=
  let v := byte_val c in
  ((9 <=? v) && (v <=? 13)) || (v =? 32).

(** Pieces of a text ended by [d]: the loop of [std::getline] (with [d] the
    line feed) and the loop of [tokenizeCSV] (with [d] the comma).  A piece
    is closed by each [d]; characters after the last [d] form a final piece;
    nothing follows a trailing [d]. *)
Fixpoint split_pieces (d : ascii) (s : string) : list string :=
  match s with
  | EmptyString => []
  | String c s' =>
      if Ascii.eqb c d then EmptyString :: split_pieces d s'
      else match split_pieces d s' with
           | [] => [String c EmptyString]
           | t :: ts => String c t :: ts
           end
  end.

Definition getlines (text : string) : list string := split_pieces LF text.

(** [line.substr(0, line.find('\r'))] *)
Fixpoint chop_cr (s : string) : string :=
  match s with
  | EmptyString => EmptyString
  | String c s' => if Ascii.eqb c CR then EmptyString else String c (chop_cr s')
  end.

Definition first_char_is (c : ascii) (s : string) : bool :=
  match s with
  | String c' _ => Ascii.eqb c' c
  | EmptyString => false
  end.

Definition str_empty (s : string) : bool :=
  match s with EmptyString => true | _ => false end.

(** ** Character classifiers (jma_ctype.h, jma_ctype_sjis.cpp) *)

Record JMA_CType : Type := {
  getByteCount : string -> result Z
}.

(** JMA_CType_SJIS::getByteCount *)
Definition JMA_CType_SJIS_getByteCount (p : string) : result Z :=
  if uc p 0 =? 0 then Ok 0
  else if uc p 0 <? 128 then Ok 1
  else if uc p 1 =? 0 then Fatal assert_sjis_trail
  else Ok 2.

Definition JMA_CType_SJIS : JMA_CType :=
  {| getByteCount := JMA_CType_SJIS_getByteCount |}.

Inductive EncodeType : Type :=
  | ENCODE_TYPE_EUCJP
  | ENCODE_TYPE_SJIS
  | ENCODE_TYPE_NUM.

Global Instance EncodeType_eq_dec : EqDecision EncodeType.
Proof. solve_decision. Defined.

(** Knowledge::ENCODE_TYPE_STR_ *)
Definition ENCODE_TYPE_STR_ (t : EncodeType) : string :=
  match t with
  | ENCODE_TYPE_EUCJP => "EUC-JP"
  | ENCODE_TYPE_SJIS => "SHIFT-JIS"
  | ENCODE_TYPE_NUM => ""
  end.

(** ** Tables owned by the knowledge instance *)

Inductive POSFormat : Type :=
  | POS_FORMAT_DEFAULT
  | POS_FORMAT_ALPHABET
  | POS_FORMAT_FULL_CATEGORY.

(** Modelled from the spec: class POSTable (pos_table.h is not among the
    sources).  Section 4.3: the POS table supports the lookup of a structural
    index from an ASCII POS label ([-1] when there is none, as the caller
    tests) and the rendering of an index as a POS string in a requested
    format (the null pointer when there is none, as the caller tests). *)
Record POSTable : Type := {
  getIndexFromAlphaPOS : string -> Z;
  getPOS : Z -> POSFormat -> option string
}.

Definition POSTable_empty : POSTable :=
  {| getIndexFromAlphaPOS := fun _ => -1; getPOS := fun _ _ => None |}.

Record Morpheme : Type := {
  lexicon_ : string;
  readForm_ : string
}.

Definition MorphemeList : Type := list Morpheme.

(** ** The knowledge instance (knowledge.h, jma_knowledge.h) *)

Record JMA_Knowledge : Type := {
  encodeType_ : EncodeType;
  systemDictPath_ : string;
  userDictNames_ : list string;
  posTable_ : POSTable;
  binUserDic_ : string;
  stopWords_ : gset string;
  seps_ : list (gset Z);
  keywordPOSSet_ : gset Z;
  isOutputFullPOS_ : bool;
  baseFormOffset_ : Z;
  readFormOffset_ : Z;
  normFormOffset_ : Z;
  userNounPOS_ : string;
  ctype_ : JMA_CType;
  configEncodeType_ : EncodeType;
  kanaTable_ : gmap string string;
  widthTable_ : gmap string string;
  caseTable_ : gmap string string;
  dictionary_ : gmap string string;
  decompMap_ : gmap string MorphemeList
}.

(** Field updates. *)
Definition with_seps (s : list (gset Z)) (k : JMA_Knowledge) : JMA_Knowledge :=
  {| encodeType_ := encodeType_ k; systemDictPath_ := systemDictPath_ k;
     userDictNames_ := userDictNames_ k; posTable_ := posTable_ k;
     binUserDic_ := binUserDic_ k; stopWords_ := stopWords_ k; seps_ := s;
     keywordPOSSet_ := keywordPOSSet_ k; isOutputFullPOS_ := isOutputFullPOS_ k;
     baseFormOffset_ := baseFormOffset_ k; readFormOffset_ := readFormOffset_ k;
     normFormOffset_ := normFormOffset_ k; userNounPOS_ := userNounPOS_ k;
     ctype_ := ctype_ k; configEncodeType_ := configEncodeType_ k;
     kanaTable_ := kanaTable_ k; widthTable_ := widthTable_ k;
     caseTable_ := caseTable_ k; dictionary_ := dictionary_ k;
     decompMap_ := decompMap_ k |}.

Definition with_stopWords (s : gset string) (k : JMA_Knowledge) : JMA_Knowledge :=
  {| encodeType_ := encodeType_ k; systemDictPath_ := systemDictPath_ k;
     userDictNames_ := userDictNames_ k; posTable_ := posTable_ k;
     binUserDic_ := binUserDic_ k; stopWords_ := s; seps_ := seps_ k;
     keywordPOSSet_ := keywordPOSSet_ k; isOutputFullPOS_ := isOutputFullPOS_ k;
     baseFormOffset_ := baseFormOffset_ k; readFormOffset_ := readFormOffset_ k;
     normFormOffset_ := normFormOffset_ k; userNounPOS_ := userNounPOS_ k;
     ctype_ := ctype_ k; configEncodeType_ := configEncodeType_ k;
     kanaTable_ := kanaTable_ k; widthTable_ := widthTable_ k;
     caseTable_ := caseTable_ k; dictionary_ := dictionary_ k;
     decompMap_ := decompMap_ k |}.

Definition with_encoding (t : EncodeType) (c : JMA_CType) (k : JMA_Knowledge)
  : JMA_Knowledge :=
  {| encodeType_ := t; systemDictPath_ := systemDictPath_ k;
     userDictNames_ := userDictNames_ k; posTable_ := posTable_ k;
     binUserDic_ := binUserDic_ k; stopWords_ := stopWords_ k; seps_ := seps_ k;
     keywordPOSSet_ := keywordPOSSet_ k; isOutputFullPOS_ := isOutputFullPOS_ k;
     baseFormOffset_ := baseFormOffset_ k; readFormOffset_ := readFormOffset_ k;
     normFormOffset_ := normFormOffset_ k; userNounPOS_ := userNounPOS_ k;
     ctype_ := c; configEncodeType_ := configEncodeType_ k;
     kanaTable_ := kanaTable_ k; widthTable_ := widthTable_ k;
     caseTable_ := caseTable_ k; dictionary_ := dictionary_ k;
     decompMap_ := decompMap_ k |}.

Definition with_systemDictPath (p : string) (k : JMA_Knowledge) : JMA_Knowledge :=
  {| encodeType_ := encodeType_ k; systemDictPath_ := p;
     userDictNames_ := userDictNames_ k; posTable_ := posTable_ k;
     binUserDic_ := binUserDic_ k; stopWords_ := stopWords_ k; seps_ := seps_ k;
     keywordPOSSet_ := keywordPOSSet_ k; isOutputFullPOS_ := isOutputFullPOS_ k;
     baseFormOffset_ := baseFormOffset_ k; readFormOffset_ := readFormOffset_ k;
     normFormOffset_ := normFormOffset_ k; userNounPOS_ := userNounPOS_ k;
     ctype_ := ctype_ k; configEncodeType_ := configEncodeType_ k;
     kanaTable_ := kanaTable_ k; widthTable_ := widthTable_ k;
     caseTable_ := caseTable_ k; dictionary_ := dictionary_ k;
     decompMap_ := decompMap_ k |}.

Definition with_userDictNames (l : list string) (k : JMA_Knowledge) : JMA_Knowledge :=
  {| encodeType_ := encodeType_ k; systemDictPath_ := systemDictPath_ k;
     userDictNames_ := l; posTable_ := posTable_ k;
     binUserDic_ := binUserDic_ k; stopWords_ := stopWords_ k; seps_ := seps_ k;
     keywordPOSSet_ := keywordPOSSet_ k; isOutputFullPOS_ := isOutputFullPOS_ k;
     baseFormOffset_ := baseFormOffset_ k; readFormOffset_ := readFormOffset_ k;
     normFormOffset_ := normFormOffset_ k; userNounPOS_ := userNounPOS_ k;
     ctype_ := ctype_ k; configEncodeType_ := configEncodeType_ k;
     kanaTable_ := kanaTable_ k; widthTable_ := widthTable_ k;
     caseTable_ := caseTable_ k; dictionary_ := dictionary_ k;
     decompMap_ := decompMap_ k |}.

Definition with_posTable (t : POSTable) (k : JMA_Knowledge) : JMA_Knowledge :=
  {| encodeType_ := encodeType_ k; systemDictPath_ := systemDictPath_ k;
     userDictNames_ := userDictNames_ k; posTable_ := t;
     binUserDic_ := binUserDic_ k; stopWords_ := stopWords_ k; seps_ := seps_ k;
     keywordPOSSet_ := keywordPOSSet_ k; isOutputFullPOS_ := isOutputFullPOS_ k;
     baseFormOffset_ := baseFormOffset_ k; readFormOffset_ := readFormOffset_ k;
     normFormOffset_ := normFormOffset_ k; userNounPOS_ := userNounPOS_ k;
     ctype_ := ctype_ k; configEncodeType_ := configEncodeType_ k;
     kanaTable_ := kanaTable_ k; widthTable_ := widthTable_ k;
     caseTable_ := caseTable_ k; dictionary_ := dictionary_ k;
     decompMap_ := decompMap_ k |}.

Definition with_binUserDic (b : string) (k : JMA_Knowledge) : JMA_Knowledge :=
  {| encodeType_ := encodeType_ k; systemDictPath_ := systemDictPath_ k;
     userDictNames_ := userDictNames_ k; posTable_ := posTable_ k;
     binUserDic_ := b; stopWords_ := stopWords_ k; seps_ := seps_ k;
     keywordPOSSet_ := keywordPOSSet_ k; isOutputFullPOS_ := isOutputFullPOS_ k;
     baseFormOffset_ := baseFormOffset_ k; readFormOffset_ := readFormOffset_ k;
     normFormOffset_ := normFormOffset_ k; userNounPOS_ := userNounPOS_ k;
     ctype_ := ctype_ k; configEncodeType_ := configEncodeType_ k;
     kanaTable_ := kanaTable_ k; widthTable_ := widthTable_ k;
     caseTable_ := caseTable_ k; dictionary_ := dictionary_ k;
     decompMap_ := decompMap_ k |}.

Definition with_dictConfig (b r n : Z) (u : string) (e : EncodeType)
    (k : JMA_Knowledge) : JMA_Knowledge :=
  {| encodeType_ := encodeType_ k; systemDictPath_ := systemDictPath_ k;
     userDictNames_ := userDictNames_ k; posTable_ := posTable_ k;
     binUserDic_ := binUserDic_ k; stopWords_ := stopWords_ k; seps_ := seps_ k;
     keywordPOSSet_ := keywordPOSSet_ k; isOutputFullPOS_ := isOutputFullPOS_ k;
     baseFormOffset_ := b; readFormOffset_ := r;
     normFormOffset_ := n; userNounPOS_ := u;
     ctype_ := ctype_ k; configEncodeType_ := e;
     kanaTable_ := kanaTable_ k; widthTable_ := widthTable_ k;
     caseTable_ := caseTable_ k; dictionary_ := dictionary_ k;
     decompMap_ := decompMap_ k |}.

Definition with_kanaTable (t : gmap string string) (k : JMA_Knowledge) : JMA_Knowledge :=
  {| encodeType_ := encodeType_ k; systemDictPath_ := systemDictPath_ k;
     userDictNames_ := userDictNames_ k; posTable_ := posTable_ k;
     binUserDic_ := binUserDic_ k; stopWords_ := stopWords_ k; seps_ := seps_ k;
     keywordPOSSet_ := keywordPOSSet_ k; isOutputFullPOS_ := isOutputFullPOS_ k;
     baseFormOffset_ := baseFormOffset_ k; readFormOffset_ := readFormOffset_ k;
     normFormOffset_ := normFormOffset_ k; userNounPOS_ := userNounPOS_ k;
     ctype_ := ctype_ k; configEncodeType_ := configEncodeType_ k;
     kanaTable_ := t; widthTable_ := widthTable_ k;
     caseTable_ := caseTable_ k; dictionary_ := dictionary_ k;
     decompMap_ := decompMap_ k |}.

Definition with_widthTable (t : gmap string string) (k : JMA_Knowledge) : JMA_Knowledge :=
  {| encodeType_ := encodeType_ k; systemDictPath_ := systemDictPath_ k;
     userDictNames_ := userDictNames_ k; posTable_ := posTable_ k;
     binUserDic_ := binUserDic_ k; stopWords_ := stopWords_ k; seps_ := seps_ k;
     keywordPOSSet_ := keywordPOSSet_ k; isOutputFullPOS_ := isOutputFullPOS_ k;
     baseFormOffset_ := baseFormOffset_ k; readFormOffset_ := readFormOffset_ k;
     normFormOffset_ := normFormOffset_ k; userNounPOS_ := userNounPOS_ k;
     ctype_ := ctype_ k; configEncodeType_ := configEncodeType_ k;
     kanaTable_ := kanaTable_ k; widthTable_ := t;
     caseTable_ := caseTable_ k; dictionary_ := dictionary_ k;
     decompMap_ := decompMap_ k |}.

Definition with_caseTable (t : gmap string string) (k : JMA_Knowledge) : JMA_Knowledge :=
  {| encodeType_ := encodeType_ k; systemDictPath_ := systemDictPath_ k;
     userDictNames_ := userDictNames_ k; posTable_ := posTable_ k;
     binUserDic_ := binUserDic_ k; stopWords_ := stopWords_ k; seps_ := seps_ k;
     keywordPOSSet_ := keywordPOSSet_ k; isOutputFullPOS_ := isOutputFullPOS_ k;
     baseFormOffset_ := baseFormOffset_ k; readFormOffset_ := readFormOffset_ k;
     normFormOffset_ := normFormOffset_ k; userNounPOS_ := userNounPOS_ k;
     ctype_ := ctype_ k; configEncodeType_ := configEncodeType_ k;
     kanaTable_ := kanaTable_ k; widthTable_ := widthTable_ k;
     caseTable_ := t; dictionary_ := dictionary_ k;
     decompMap_ := decompMap_ k |}.

Definition with_dictionary (d : gmap string string) (k : JMA_Knowledge) : JMA_Knowledge :=
  {| encodeType_ := encodeType_ k; systemDictPath_ := systemDictPath_ k;
     userDictNames_ := userDictNames_ k; posTable_ := posTable_ k;
     binUserDic_ := binUserDic_ k; stopWords_ := stopWords_ k; seps_ := seps_ k;
     keywordPOSSet_ := keywordPOSSet_ k; isOutputFullPOS_ := isOutputFullPOS_ k;
     baseFormOffset_ := baseFormOffset_ k; readFormOffset_ := readFormOffset_ k;
     normFormOffset_ := normFormOffset_ k; userNounPOS_ := userNounPOS_ k;
     ctype_ := ctype_ k; configEncodeType_ := configEncodeType_ k;
     kanaTable_ := kanaTable_ k; widthTable_ := widthTable_ k;
     caseTable_ := caseTable_ k; dictionary_ := d;
     decompMap_ := decompMap_ k |}.

Definition with_decompMap (m : gmap string MorphemeList) (k : JMA_Knowledge)
  : JMA_Knowledge :=
  {| encodeType_ := encodeType_ k; systemDictPath_ := systemDictPath_ k;
     userDictNames_ := userDictNames_ k; posTable_ := posTable_ k;
     binUserDic_ := binUserDic_ k; stopWords_ := stopWords_ k; seps_ := seps_ k;
     keywordPOSSet_ := keywordPOSSet_ k; isOutputFullPOS_ := isOutputFullPOS_ k;
     baseFormOffset_ := baseFormOffset_ k; readFormOffset_ := readFormOffset_ k;
     normFormOffset_ := normFormOffset_ k; userNounPOS_ := userNounPOS_ k;
     ctype_ := ctype_ k; configEncodeType_ := configEncodeType_ k;
     kanaTable_ := kanaTable_ k; widthTable_ := widthTable_ k;
     caseTable_ := caseTable_ k; dictionary_ := dictionary_ k;
     decompMap_ := m |}.

(** ** External collaborators

    What the knowledge instance reaches but does not implement: the file
    system, the dictionary archive, the table loaders and the MeCab entry
    points.  Their outcomes are taken as given. *)

Record World : Type := {
  (* text files that std::ifstream can open, by path *)
  fs : gmap string string;
  (* JMA_CType::instance(ENCODE_TYPE_EUCJP), and what the factory answers
     for ENCODE_TYPE_NUM, which names no encoding *)
  JMA_CType_EUCJP : JMA_CType;
  JMA_CType_unknown : JMA_CType;
  (* JMA_Dictionary::open: the named resources of the archive, or failure *)
  JMA_Dictionary_open : string -> option (gmap string string);
  (* JMA_Dictionary::copyStrToDict(str, name) *)
  JMA_Dictionary_copyStrToDict :
    string -> string -> gmap string string -> option (gmap string string);
  (* Knowledge::decodeEncodeType *)
  Knowledge_decodeEncodeType : string -> EncodeType;
  (* row parser of the POS table; POSTable::loadCombineRule *)
  POSTable_parse : EncodeType -> EncodeType -> string -> option POSTable;
  POSTable_loadCombineRule : string -> POSTable -> option POSTable;
  (* CharTable::loadConfig(fileName, src, dest) on a table, with the
     resources of the dictionary: its answer and the table afterwards *)
  CharTable_loadConfig :
    gmap string string -> string -> EncodeType -> EncodeType ->
    gmap string string -> bool * gmap string string;
  (* mecab_dict_index(argc, argv): its status and what it leaves in the
     dictionary; MeCab::createTagger(arg) != 0 *)
  mecab_dict_index : list string -> gmap string string -> Z * gmap string string;
  MeCab_createTagger : string -> gmap string string -> bool
}.

(** Modelled from the spec: JMA_CType::instance(type) (jma_ctype.cpp is not
    among the sources).  Sections 4.1 and 9: the classifier is one of a closed
    set of variants, selected by the encoding type when the instance is built
    and when the encoding changes.  The Shift-JIS variant is the class of
    jma_ctype_sjis.cpp; the EUC-JP variant and the answer for ENCODE_TYPE_NUM
    are the world's. *)
Definition JMA_CType_instance (w : World) (t : EncodeType) : JMA_CType :=
  match t with
  | ENCODE_TYPE_EUCJP => JMA_CType_EUCJP w
  | ENCODE_TYPE_SJIS => JMA_CType_SJIS
  | ENCODE_TYPE_NUM => JMA_CType_unknown w
  end.

(** ** knowledge.cpp *)

Definition getEncodeType (k : JMA_Knowledge) : EncodeType := encodeType_ k.

(** JMA_Knowledge::onEncodeTypeChange *)
Definition onEncodeTypeChange (w : World) (t : EncodeType) (k : JMA_Knowledge)
  : JMA_Knowledge :=
  with_encoding (encodeType_ k) (JMA_CType_instance w t) k.

(** Knowledge::setEncodeType *)
Definition setEncodeType (w : World) (t : EncodeType) (k : JMA_Knowledge)
  : JMA_Knowledge :=
  if decide (encodeType_ k = t) then k
  else onEncodeTypeChange w t (with_encoding t (ctype_ k) k).

(** Knowledge::setSystemDict *)
Definition setSystemDict (dirPath : string) (k : JMA_Knowledge) : JMA_Knowledge :=
  with_systemDictPath dirPath k.

(** Knowledge::addUserDict *)
Definition addUserDict (fileName : string) (k : JMA_Knowledge) : JMA_Knowledge :=
  with_userDictNames (userDictNames_ k ++ [fileName]) k.

(** ** jma_knowledge.cpp: constants *)

Definition BASE_FORM_OFFSET_DEFAULT : Z := 6.
Definition READ_FORM_OFFSET_DEFAULT : Z := 7.
Definition NORM_FORM_OFFSET_DEFAULT : Z := 9.
Definition USER_NOUN_POS_DEFAULT : string := "N-USER".
Definition DICT_CONFIG_FILES : list string :=
  ["dicrc"; "rewrite.def"; "left-id.def"; "right-id.def"].
Definition POS_ID_DEF_FILE : string := "pos-id.def".
Definition POS_COMBINE_DEF_FILE : string := "compound.def".
Definition KANA_MAP_DEF_FILE : string := "map-kana.def".
Definition WIDTH_MAP_DEF_FILE : string := "map-width.def".
Definition CASE_MAP_DEF_FILE : string := "map-case.def".
Definition DICT_ARCHIVE_FILE : string := "sys.bin".
Definition BIN_USER_DICT_MEMORY_FILE : string := "user.bin".
Definition TXT_USER_DICT_MEMORY_FILE : string := "user.csv".
Definition DEFAULT_CONFIG_ENCODE_TYPE : EncodeType := ENCODE_TYPE_EUCJP.
(* USER_NOUN_COST = -500, as the stream prints it *)
Definition USER_NOUN_COST_text : string := "-500".

Definition UINT_MODULUS : Z := 2 ^ 32.
Definition INT_MAX : Z := 2147483647.
Definition INT_MIN : Z := -2147483648.

(** JMA_Knowledge::JMA_Knowledge, after Knowledge::Knowledge *)
Definition JMA_Knowledge_new (w : World) : JMA_Knowledge :=
  onEncodeTypeChange w ENCODE_TYPE_EUCJP
    {| encodeType_ := ENCODE_TYPE_EUCJP; systemDictPath_ := "";
       userDictNames_ := []; posTable_ := POSTable_empty;
       binUserDic_ := ""; stopWords_ := ∅; seps_ := replicate 5 ∅;
       keywordPOSSet_ := ∅; isOutputFullPOS_ := false;
       baseFormOffset_ := 0; readFormOffset_ := 0; normFormOffset_ := 0;
       userNounPOS_ := ""; ctype_ := JMA_CType_EUCJP w;
       configEncodeType_ := DEFAULT_CONFIG_ENCODE_TYPE;
       kanaTable_ := ∅; widthTable_ := ∅; caseTable_ := ∅;
       dictionary_ := ∅; decompMap_ := ∅ |}.

(** JMA_Knowledge::hasUserDict *)
Definition hasUserDict (k : JMA_Knowledge) : bool :=
  match userDictNames_ k with [] => false | _ => true end.

(** JMA_Knowledge::isKeywordPOS *)
Definition isKeywordPOS (k : JMA_Knowledge) (pos : Z) : bool :=
  if decide (keywordPOSSet_ k = ∅) then true
  else bool_decide (pos ∈ keywordPOSSet_ k).

(** ** Sentence separators *)

(** [seps_[w]]: the separator set of width [w]. *)
Definition seps_at (seps : list (gset Z)) (w : nat) : gset Z := seps !!! w.

(** [seps_[w].insert(v)] *)
Definition seps_insert (w : nat) (v : Z) (seps : list (gset Z)) : list (gset Z) :=
  <[w := {[v]} ∪ seps_at seps w]> seps.

(** The packed code point of the first [bytes] bytes at [p], as the switch of
    isSentenceSeparator and loadSentenceSeparatorConfig builds it. *)
Definition pack1 (p : string) : Z := uc p 0.
Definition pack2 (p : string) : Z := Z.lor (Z.shiftl (uc p 0) 8) (uc p 1).
Definition pack3 (p : string) : Z :=
  Z.lor (Z.lor (Z.shiftl (uc p 0) 16) (Z.shiftl (uc p 1) 8)) (uc p 2).
Definition pack4 (p : string) : Z :=
  Z.lor (Z.lor (Z.lor (Z.shiftl (uc p 0) 24) (Z.shiftl (uc p 1) 16))
               (Z.shiftl (uc p 2) 8)) (uc p 3).

(** JMA_Knowledge::isSentenceSeparator *)
Definition isSentenceSeparator (k : JMA_Knowledge) (p : string) : result bool :=
  bytes <~ getByteCount (ctype_ k) p;;
  if bytes =? 1 then Ok (bool_decide (pack1 p ∈ seps_at (seps_ k) 1))
  else if bytes =? 2 then Ok (bool_decide (pack2 p ∈ seps_at (seps_ k) 2))
  else if bytes =? 3 then Ok (bool_decide (pack3 p ∈ seps_at (seps_ k) 3))
  else if bytes =? 4 then Ok (bool_decide (pack4 p ∈ seps_at (seps_ k) 4))
  else Fatal assert_char_length.

(** The loop of getOccupiedBytes:
    [while( val & 0xffffff00 ) { val >>= 4; ++ ret; }].
    [None] when the fuel runs out before the loop ends. *)
Fixpoint getOccupiedBytes_loop (fuel : nat) (val ret : Z) : option Z :=
  match fuel with
  | O => None
  | S fuel' =>
      if Z.land val 0xffffff00 =? 0 then Some ret
      else getOccupiedBytes_loop fuel' (Z.shiftr val 4) ((ret + 1) mod UINT_MODULUS)
  end.

(** JMA_Knowledge::getOccupiedBytes, for [0 <= val < 2^32]; 32 rounds are
    more than the loop can take (see [getOccupiedBytes_loop_total]). *)
Definition getOccupiedBytes (val : Z) : result Z :=
  match getOccupiedBytes_loop 32 val 1 with
  | Some ret =>
      if (0 <? ret) && (ret <? 4) then Ok ret else Fatal assert_occupied_bytes
  | None => Fatal assert_occupied_bytes
  end.

(** JMA_Knowledge::addSentenceSeparator (the container's boolean answer is
    not kept). *)
Definition addSentenceSeparator (val : Z) (k : JMA_Knowledge) : result JMA_Knowledge :=
  w <~ getOccupiedBytes val;;
  Ok (with_seps (seps_insert (Z.to_nat w) val (seps_ k)) k).

Fixpoint foldM {A S : Type} (f : A -> S -> result S) (l : list A) (s : S)
  : result S :=
  match l with
  | [] => Ok s
  | a :: l' => s' <~ f a s;; foldM f l' s'
  end.

(** One round of the [while(getline(in, line))] loop of
    loadSentenceSeparatorConfig. *)
Definition separatorLine (ct : JMA_CType) (line0 : string) (seps : list (gset Z))
  : result (list (gset Z)) :=
  let line := chop_cr line0 in
  if str_empty line || first_char_is "#" line then Ok seps
  else
    bytes <~ getByteCount ct line;;
    if bytes =? 1 then Ok (seps_insert 1 (pack1 line) seps)
    else if bytes =? 2 then Ok (seps_insert 2 (pack2 line) seps)
    else if bytes =? 3 then Ok (seps_insert 3 (pack3 line) seps)
    else if bytes =? 4 then Ok (seps_insert 4 (pack4 line) seps)
    else Fatal assert_char_length.

(** JMA_Knowledge::loadSentenceSeparatorConfig *)
Definition loadSentenceSeparatorConfig (w : World) (fileName : string)
    (k : JMA_Knowledge) : result (Z * JMA_Knowledge) :=
  match fs w !! fileName with
  | None => Ok (0, k)
  | Some text =>
      seps <~ foldM (separatorLine (ctype_ k)) (getlines text) (seps_ k);;
      Ok (1, with_seps seps k)
  end.

(** JMA_Knowledge::loadStopWordDict *)
Definition loadStopWordDict (w : World) (fileName : string) (k : JMA_Knowledge)
  : Z * JMA_Knowledge :=
  match fs w !! fileName with
  | None => (0, k)
  | Some text =>
      let add line0 (s : gset string) :=
        let line := chop_cr line0 in
        if str_empty line then s else {[line]} ∪ s in
      (1, with_stopWords (foldl (fun s l => add l s) (stopWords_ k) (getlines text)) k)
  end.

(** ** Helpers of the anonymous namespace *)

Fixpoint skip_ws (s : string) : string :=
  match s with
  | String c s' => if isspace c then skip_ws s' else s
  | EmptyString => EmptyString
  end.

Fixpoint rstrip_ws (s : string) : string :=
  match s with
  | EmptyString => EmptyString
  | String c s' =>
      match rstrip_ws s' with
      | EmptyString => if isspace c then EmptyString else String c EmptyString
      | r => String c r
      end
  end.

(** [s.find(c)]: the index of the first [c], [None] for [npos]. *)
Fixpoint str_find (c : ascii) (s : string) : option nat :=
  match s with
  | EmptyString => None
  | String c' s' => if Ascii.eqb c' c then Some O else S <$> str_find c s'
  end.

(** [iss >> token]: skip white space, then read up to the next white space;
    the extraction fails when nothing is left.  Gives the token and the
    unread rest of the stream. *)
Fixpoint read_token (s : string) : string * string :=
  match s with
  | EmptyString => (EmptyString, EmptyString)
  | String c s' =>
      if isspace c then (EmptyString, s)
      else let '(t, r) := read_token s' in (String c t, r)
  end.

Definition extract_word (s : string) : option (string * string) :=
  match read_token (skip_ws s) with
  | (EmptyString, _) => None
  | (t, r) => Some (t, r)
  end.

Definition is_digit (c : ascii) : bool :=
  (48 <=? byte_val c) && (byte_val c <=? 57).

Fixpoint all_digits (s : string) : bool :=
  match s with
  | EmptyString => true
  | String c s' => is_digit c && all_digits s'
  end.

(** isNumber, which reads its argument as a C string *)
Definition isNumber (str : string) : bool :=
  all_digits (c_str str) && negb (str_empty (c_str str)).

Fixpoint read_digits (acc : Z) (s : string) : Z * string :=
  match s with
  | String c s' =>
      if is_digit c then read_digits (acc * 10 + (byte_val c - 48)) s' else (acc, s)
  | EmptyString => (acc, s)
  end.

(** convertFromStr<int>: the stream extraction skips white space, reads an
    optional sign and decimal digits, fails on a value outside [int]; only
    white space may follow.  Every failure yields [int()], that is 0. *)
Definition convertFromStr_int (str : string) : Z :=
  let s := skip_ws str in
  let '(neg, s1) :=
    match s with
    | String c r =>
        if Ascii.eqb c "-" then (true, r)
        else if Ascii.eqb c "+" then (false, r) else (false, s)
    | EmptyString => (false, s)
    end in
  match s1 with
  | String c _ =>
      if is_digit c then
        let '(v, rest) := read_digits 0 s1 in
        let v' := if neg then - v else v in
        if (INT_MIN <=? v') && (v' <=? INT_MAX) && str_empty (skip_ws rest)
        then v' else 0
      else 0
  | EmptyString => 0
  end.

(** tokenizeCSV: the components; the returned number is their count. *)
Definition tokenizeCSV (str : string) : list string := split_pieces "," str.

(** ** Configuration file (dicrc) *)

(** One round of the [while (std::getline(ist, line))] loop of loadConfig0;
    [None] is the [return false] of a line without '='. *)
Definition configLine (line0 : string) (m : gmap string string)
  : option (gmap string string) :=
  let line := chop_cr line0 in
  if str_empty line || first_char_is ";" line || first_char_is "#" line then Some m
  else
    match str_find "=" line with
    | None => None
    | Some pos =>
        let value := skip_ws (str_drop (S pos) line) in
        let key := rstrip_ws (str_take pos line) in
        Some (<[key := value]> m)
    end.

Fixpoint loadConfig0_lines (lines : list string) (m : gmap string string)
  : bool * gmap string string :=
  match lines with
  | [] => (true, m)
  | l :: ls =>
      match configLine l m with
      | None => (false, m)
      | Some m' => loadConfig0_lines ls m'
      end
  end.

(** JMA_Knowledge::loadConfig0: the boolean it returns and the caller's map
    as it leaves it.  [dict !! filename] is [dictionary_->getDict(filename)]. *)
Definition loadConfig0 (dict : gmap string string) (filename : string)
    (m : gmap string string) : bool * gmap string string :=
  match dict !! filename with
  | None => (false, m)
  | Some text => loadConfig0_lines (getlines text) m
  end.

(** The assignments of loadDictConfig, from the map loadConfig0 left. *)
Definition applyDictConfig (w : World) (configMap : gmap string string)
    (k : JMA_Knowledge) : JMA_Knowledge :=
  let offset key default :=
    match configMap !! key with
    | Some value => convertFromStr_int value
    | None => default
    end in
  let userNounPOS :=
    match configMap !! "user-noun-pos" with
    | Some value => value
    | None => USER_NOUN_POS_DEFAULT
    end in
  let charset :=
    match configMap !! "config-charset" with
    | Some value => Knowledge_decodeEncodeType w (c_str value)
    | None => ENCODE_TYPE_NUM
    end in
  with_dictConfig
    (offset "base-form-feature-offset" BASE_FORM_OFFSET_DEFAULT)
    (offset "read-form-feature-offset" READ_FORM_OFFSET_DEFAULT)
    (offset "norm-form-feature-offset" NORM_FORM_OFFSET_DEFAULT)
    userNounPOS
    (if decide (charset = ENCODE_TYPE_NUM) then DEFAULT_CONFIG_ENCODE_TYPE else charset)
    k.

(** JMA_Knowledge::loadDictConfig: the answer of loadConfig0 only decides
    whether a warning is printed. *)
Definition loadDictConfig (w : World) (k : JMA_Knowledge) : JMA_Knowledge :=
  let '(_, configMap) := loadConfig0 (dictionary_ k) "dicrc" ∅ in
  applyDictConfig w configMap k.

(** ** User dictionaries *)

(** Modelled from the spec: class CTypeTokenizer (tokenizer.h is not among
    the sources).  Section 4.5, step 4: the classifier walks the word one
    code point at a time; section 4.1: its byte width is 0 at the
    terminating null.  [next()] yields the code point at the cursor, of the
    classifier's byte width, and moves the cursor behind it; at width 0 no
    character is left and it yields the null pointer ([None]), which the
    end-of-word test [|| tokenizer.next()] of convertTxtToCSV tells from a
    character.  The state is the unread rest of the assigned word. *)
Definition CTypeTokenizer_next (ct : JMA_CType) (raw : string)
  : result (option string * string) :=
  bc <~ getByteCount ct raw;;
  if bc =? 0 then Ok (None, raw)
  else Ok (Some (str_take (Z.to_nat bc) raw), str_drop (Z.to_nat bc) raw).

(** The loop [for(int j=0; j<charCount; ++j)] of convertTxtToCSV: whether
    the character count is still valid, the lexicon built and the rest of
    the word.  The test on [*p] reads through the pointer [next()] returned. *)
Fixpoint walkChars (ct : JMA_CType) (charCount : nat) (raw lexicon : string)
  : result (bool * string * string) :=
  match charCount with
  | O => Ok (true, lexicon, raw)
  | S n =>
      '(p, raw') <~ CTypeTokenizer_next ct raw;;
      match p with
      | None => Fatal null_dereference
      | Some ch =>
          if uc ch 0 =? 0 then Ok (false, lexicon, raw')
          else walkChars ct n raw' (lexicon +:+ c_str ch)
      end
  end.

(** The loop [for(unsigned int i=0; i<compVec.size(); ++i)]: isAllNumber,
    isValidCharCount, decompList and the rest of the word. *)
Fixpoint decompose (ct : JMA_CType) (compVec : list string) (raw : string)
    (decompList : MorphemeList) : result (bool * bool * MorphemeList * string) :=
  match compVec with
  | [] => Ok (true, true, decompList, raw)
  | comp :: comps =>
      if negb (isNumber comp) then Ok (false, true, decompList, raw)
      else
        '(valid, lexicon, raw') <~
          walkChars ct (Z.to_nat (convertFromStr_int comp)) raw EmptyString;;
        if valid
        then decompose ct comps raw'
               (decompList ++ [{| lexicon_ := lexicon; readForm_ := EmptyString |}])
        else Ok (true, false, decompList, raw')
  end.

(** [decompList[i].readForm_ = compVec[i]] for every [i]; the two have the
    same length where this runs. *)
Fixpoint setReadForms (decompList : MorphemeList) (compVec : list string)
  : MorphemeList :=
  match decompList, compVec with
  | m :: ms, r :: rs =>
      {| lexicon_ := lexicon_ m; readForm_ := r |} :: setReadForms ms rs
  | _, _ => decompList
  end.

(** What a line writes before its patterns are read: the word, the cost, the
    POS and the [",*"] fields up to the reading form. *)
Definition csv_head (word userNounPOS : string) (posSize readFormOffset : Z)
  : string :=
  word +:+ ",-1,-1," +:+ USER_NOUN_COST_text +:+ "," +:+ userNounPOS
    +:+ str_concat (replicate (Z.to_nat (readFormOffset - posSize)) ",*").

(** The stream written so far, decompMap_ and count. *)
Definition ConvState : Type := string * gmap string MorphemeList * Z.

(** The end of a round that reaches [ost << endl; ++count;]. *)
Definition finishLine (hasRead : bool) (compVec : list string) (ost : string)
    (dm : gmap string MorphemeList) (count : Z) : ConvState :=
  let ost' :=
    if hasRead then ost +:+ "," +:+ str_concat compVec else ost +:+ ",*" in
  (ost' +:+ String LF EmptyString, dm, (count + 1) mod UINT_MODULUS).

(** One round of the [while(getline(in, line))] loop of convertTxtToCSV.
    Every [continue] leaves the state with what the stream received so far. *)
Definition convertLine (ct : JMA_CType) (userNounPOS : string)
    (posSize readFormOffset : Z) (line0 : string) (st : ConvState)
  : result ConvState :=
  let '(ost, dm, count) := st in
  let line := chop_cr line0 in
  if str_empty line || first_char_is ";" line || first_char_is "#" line
  then Ok st
  else
    match extract_word line with
    | None => Ok st
    | Some (word, rest) =>
        let ost1 := ost +:+ csv_head word userNounPOS posSize readFormOffset in
        match extract_word rest with
        | None => Ok (finishLine false [] ost1 dm count)
        | Some (pattern, rest2) =>
            let compVec := tokenizeCSV pattern in
            match compVec with
            | [] => Ok (ost1, dm, count)
            | comp0 :: _ =>
                if isNumber comp0 then
                  '(isAllNumber, isValidCharCount, decompList, raw) <~
                    decompose ct compVec word [];;
                  if negb isAllNumber then Ok (ost1, dm, count)
                  else if negb isValidCharCount then Ok (ost1, dm, count)
                  else
                    '(p, _) <~ CTypeTokenizer_next ct raw;;
                    match p with
                    | Some _ => Ok (ost1, dm, count)
                    | None =>
                        match extract_word rest2 with
                        | Some (pattern2, _) =>
                            let compVec2 := tokenizeCSV pattern2 in
                            if bool_decide (compVec2 = []) then Ok (ost1, dm, count)
                            else if negb (length compVec2 =? length decompList)%nat
                            then Ok (ost1, dm, count)
                            else Ok (finishLine true compVec2 ost1
                                       (<[word := setReadForms decompList compVec2]> dm)
                                       count)
                        | None =>
                            Ok (finishLine false compVec ost1
                                  (<[word := decompList]> dm) count)
                        end
                    end
                else Ok (finishLine true compVec ost1 dm count)
            end
        end
    end.

(** JMA_Knowledge::convertTxtToCSV: the count returned, the stream and the
    knowledge instance afterwards. *)
Definition convertTxtToCSV (w : World) (k : JMA_Knowledge) (userDicFile : string)
    (ost : string) : result (Z * string * JMA_Knowledge) :=
  let userNounIndex := getIndexFromAlphaPOS (posTable_ k) (userNounPOS_ k) in
  if userNounIndex =? -1 then Ok (0, ost, k)
  else
    match getPOS (posTable_ k) userNounIndex POS_FORMAT_FULL_CATEGORY with
    | None => Ok (0, ost, k)
    | Some userNounPOS =>
        let posSize := Z.of_nat (length (tokenizeCSV (c_str userNounPOS))) in
        if negb (0 <? posSize) then Fatal assert_pos_size
        else
          match fs w !! userDicFile with
          | None => Ok (0, ost, k)
          | Some text =>
              '(ost', dm, count) <~
                foldM (convertLine (ctype_ k) (c_str userNounPOS) posSize
                         (readFormOffset_ k))
                      (getlines text) (ost, decompMap_ k, 0);;
              Ok (count, ost', with_decompMap dm k)
          end
    end.

(** The loop [entryCount += convertTxtToCSV(userDictNames_[i].c_str(), osst)]. *)
Fixpoint convertAll (w : World) (names : list string) (entryCount : Z)
    (osst : string) (k : JMA_Knowledge) : result (Z * string * JMA_Knowledge) :=
  match names with
  | [] => Ok (entryCount, osst, k)
  | name :: names' =>
      '(c, osst', k') <~ convertTxtToCSV w k (c_str name) osst;;
      convertAll w names' ((entryCount + c) mod UINT_MODULUS) osst' k'
  end.

(** The start of compileUserDict: decompMap_ is cleared, binUserDic_ is
    named and the two empty user dictionaries are staged under their names in
    the dictionary. *)
Definition stageUserDict (k : JMA_Knowledge) : JMA_Knowledge :=
  let k1 := with_binUserDic BIN_USER_DICT_MEMORY_FILE (with_decompMap ∅ k) in
  with_dictionary
    (<[TXT_USER_DICT_MEMORY_FILE := EmptyString]>
       (<[BIN_USER_DICT_MEMORY_FILE := EmptyString]> (dictionary_ k1))) k1.

(** The parameters compileUserDict passes to mecab_dict_index. *)
Definition userDictCompileParam (k : JMA_Knowledge) : list string :=
  ["JMA_Knowledge"; "-d"; systemDictPath_ k; "-u"; binUserDic_ k;
   "-f"; ENCODE_TYPE_STR_ (getEncodeType k);
   "-t"; ENCODE_TYPE_STR_ (getEncodeType k);
   TXT_USER_DICT_MEMORY_FILE].

(** JMA_Knowledge::compileUserDict *)
Definition compileUserDict (w : World) (k : JMA_Knowledge)
  : result (bool * JMA_Knowledge) :=
  match userDictNames_ k with
  | [] => Ok (false, k)
  | _ :: _ =>
      let k2 := stageUserDict k in
      '(entryCount, osst, k3) <~ convertAll w (userDictNames_ k2) 0 EmptyString k2;;
      if entryCount =? 0 then Ok (false, k3)
      else
        match JMA_Dictionary_copyStrToDict w osst TXT_USER_DICT_MEMORY_FILE
                (dictionary_ k3) with
        | None => Ok (false, k3)
        | Some d =>
            let '(compileResult, d') :=
              mecab_dict_index w (userDictCompileParam k3) d in
            Ok (compileResult =? 0, with_dictionary d' k3)
        end
  end.

(** JMA_Knowledge::createTagger: whether a tagger was created. *)
Definition createTagger (w : World) (k : JMA_Knowledge) : result bool :=
  let taggerParam := "-d " +:+ systemDictPath_ k in
  if hasUserDict k then
    if str_empty (binUserDic_ k) then Fatal assert_bin_user_dic
    else Ok (MeCab_createTagger w (taggerParam +:+ " -u " +:+ binUserDic_ k)
               (dictionary_ k))
  else Ok (MeCab_createTagger w taggerParam (dictionary_ k)).

(** JMA_Knowledge::createFilePath (not Windows) *)
Fixpoint last_char_is (c : ascii) (s : string) : bool :=
  match s with
  | EmptyString => false
  | String c' EmptyString => Ascii.eqb c' c
  | String _ s' => last_char_is c s'
  end.

Definition createFilePath (dir file : string) : string :=
  (if negb (str_empty dir) && negb (last_char_is "/" dir)
   then dir +:+ "/" else dir) +:+ file.

(** Modelled from the spec: POSTable::loadConfig (pos_table.h is not among
    the sources).  Section 4.3: the table loads from its own named resource,
    converted from the configured charset to the active encoding.  Section
    4.6: for the POS table absence or parse failure are both a failure. *)
Definition POSTable_loadConfig (w : World) (dict : gmap string string)
    (fileName : string) (src dest : EncodeType) (t : POSTable) : bool * POSTable :=
  match dict !! fileName with
  | None => (false, t)
  | Some text =>
      match POSTable_parse w src dest text with
      | Some t' => (true, t')
      | None => (false, t)
      end
  end.

(** JMA_Knowledge::loadDict, in the order of the source: the tables (from
    "pos-id.def" to "map-case.def"), then the user dictionaries and the
    tagger, then the whole. *)

(** From [posTable_.loadConfig] to [caseTable_.loadConfig]: [false] is the
    [return 0] after a POS table that did not load; the other tables only
    warn. *)
Definition loadDict_tables (w : World) (k1 : JMA_Knowledge) : bool * JMA_Knowledge :=
  let '(posOk, pt) :=
    POSTable_loadConfig w (dictionary_ k1) POS_ID_DEF_FILE
      (configEncodeType_ k1) (getEncodeType k1) (posTable_ k1) in
  let k2 := with_posTable pt k1 in
  if negb posOk then (false, k2)
  else
    let posCombineName := createFilePath (systemDictPath_ k2) POS_COMBINE_DEF_FILE in
    let k3 :=
      match POSTable_loadCombineRule w posCombineName (posTable_ k2) with
      | Some pt' => with_posTable pt' k2
      | None => k2
      end in
    let k4 :=
      with_kanaTable
        (CharTable_loadConfig w (dictionary_ k3) KANA_MAP_DEF_FILE
           (configEncodeType_ k3) (getEncodeType k3) (kanaTable_ k3)).2 k3 in
    let k5 :=
      with_widthTable
        (CharTable_loadConfig w (dictionary_ k4) WIDTH_MAP_DEF_FILE
           (configEncodeType_ k4) (getEncodeType k4) (widthTable_ k4)).2 k4 in
    let k6 :=
      with_caseTable
        (CharTable_loadConfig w (dictionary_ k5) CASE_MAP_DEF_FILE
           (configEncodeType_ k5) (getEncodeType k5) (caseTable_ k5)).2 k5 in
    (true, k6).

(** From [if(hasUserDict())] to the end. *)
Definition loadDict_finish (w : World) (k6 : JMA_Knowledge)
  : result (Z * JMA_Knowledge) :=
  '(compiled, k7) <~
    (if hasUserDict k6 then compileUserDict w k6 else Ok (true, k6));;
  if negb compiled then Ok (0, k7)
  else
    tagger <~ createTagger w k7;;
    if tagger then Ok (1, k7) else Ok (0, k7).

(** What follows [loadDictConfig()]. *)
Definition loadDict_after_config (w : World) (k1 : JMA_Knowledge)
  : result (Z * JMA_Knowledge) :=
  let '(tablesOk, k6) := loadDict_tables w k1 in
  if negb tablesOk then Ok (0, k6) else loadDict_finish w k6.

Definition loadDict (w : World) (k : JMA_Knowledge) : result (Z * JMA_Knowledge) :=
  let sysDicName := createFilePath (systemDictPath_ k) DICT_ARCHIVE_FILE in
  match JMA_Dictionary_open w sysDicName with
  | None => Ok (0, k)
  | Some d => loadDict_after_config w (loadDictConfig w (with_dictionary d k))
  end.

(** ** The words of the specification, for comparison with the code *)

(** Section 4.4: the occupied-byte count of a value is the smallest [w], from
    1 to 4, such that the value fits in [w] bytes. *)
Definition spec_occupied_bytes (val : Z) : Z :=
  if val <? 2 ^ 8 then 1
  else if val <? 2 ^ 16 then 2
  else if val <? 2 ^ 24 then 3
  else 4.

(** Section 4.5, the aggregate contract: the entries converted across all
    supplied files.  [fileCounts w names osst k counts osst' k'] when the
    per-file conversions of [names], run in order from the stream [osst] and
    the instance [k], return the counts [counts], one for each file, and
    leave the stream [osst'] and the instance [k']; [sum_counts] is their
    total. *)
Inductive fileCounts (w : World)
  : list string -> string -> JMA_Knowledge -> list Z -> string -> JMA_Knowledge -> Prop :=
  | fileCounts_nil (osst : string) (k : JMA_Knowledge) :
      fileCounts w [] osst k [] osst k
  | fileCounts_cons (name : string) (names : list string) (osst osst1 osst2 : string)
      (k k1 k2 : JMA_Knowledge) (count : Z) (counts : list Z) :
      convertTxtToCSV w k (c_str name) osst = Ok (count, osst1, k1) ->
      fileCounts w names osst1 k1 counts osst2 k2 ->
      fileCounts w (name :: names) osst k (count :: counts) osst2 k2.

Definition sum_counts (counts : list Z) : Z := foldr Z.add 0 counts.

(** Section 4.5, step 4: the character counts of a decomposition pattern,
    and the code points of a word: [codePointsLeft ct raw n] when the
    tokenizer yields exactly [n] characters from [raw] before the end. *)
Definition patternCounts (compVec : list string) : list nat :=
  map (fun comp => Z.to_nat (convertFromStr_int comp)) compVec.

Inductive codePointsLeft (ct : JMA_CType) : string -> nat -> Prop :=
  | codePoints_end (raw : string) :
      CTypeTokenizer_next ct raw = Ok (None, raw) ->
      codePointsLeft ct raw O
  | codePoints_next (raw ch raw' : string) (n : nat) :
      CTypeTokenizer_next ct raw = Ok (Some ch, raw') ->
      uc ch 0 <> 0 ->
      codePointsLeft ct raw' n ->
      codePointsLeft ct raw (S n).

(** Section 4.2: a line that is neither blank nor a comment and lacks '='. *)
Definition lacks_equals (line0 : string) : bool :=
  let line := chop_cr line0 in
  negb (str_empty line) && negb (first_char_is ";" line)
    && negb (first_char_is "#" line) && bool_decide (str_find "=" line = None).

(** The number of occurrences of a character: with the line feed, the number
    of records a CSV stream holds. *)
Fixpoint count_char (c : ascii) (s : string) : nat :=
  match s with
  | EmptyString => O
  | String c' s' => (if Ascii.eqb c' c then 1 else 0) + count_char c s'
  end.

(** The state of the conversion after [n] finished records, from a stream
    that held [base] line feeds. *)
Definition records_written (base : nat) (st : ConvState) : Prop :=
  exists n : nat,
    count_char LF st.1.1 = (base + n)%nat /\
    st.2 = Z.of_nat n mod UINT_MODULUS.

(** The loop of tokenizeCSV on indices, as the source writes it: [i] is the
    start of the next component, [str_find] from [i] is
    [str.find_first_of(delimit, i)] and the two branches are [substr(i, j-i)]
    and [substr(i)]; after the latter [i] is [npos] and the loop ends.
    [tokenizeCSV_loop_eq] shows that [tokenizeCSV] computes it. *)
Fixpoint tokenizeCSV_loop (fuel : nat) (str : string) (i : nat)
    (compVec : list string) : list string :=
  match fuel with
  | O => compVec
  | S fuel' =>
      if (i <? String.length str)%nat then
        match str_find "," (str_drop i str) with
        | Some r =>
            tokenizeCSV_loop fuel' str (S (i + r))
              (compVec ++ [str_take r (str_drop i str)])
        | None => compVec ++ [str_drop i str]
        end
      else compVec
  end.

(** ** Instances used to run the code *)

Definition str_of_bytes (l : list N) : string :=
  string_of_list_ascii (map ascii_of_N l).

(** Modelled from the spec: the EUC-JP classifier (jma_ctype_eucjp.cpp is not
    among the sources).  Sections 4.1 and 8: the byte width is 0 at the
    terminating null, 1 for an ASCII character and 2 at a two-byte lead byte.
    No property below depends on it. *)
Definition demo_CType_EUCJP : JMA_CType :=
  {| getByteCount := fun p =>
       if uc p 0 =? 0 then Ok 0 else if uc p 0 <? 128 then Ok 1 else Ok 2 |}.

(** Modelled from the spec: CharTable::loadConfig (char_table.h is not among
    the sources).  Section 4.3: a missing optional table degrades to "no
    mapping defined".  Here a table whose resource is present loads, with no
    mapping either. *)
Definition demo_CharTable_loadConfig (dict : gmap string string) (fileName : string)
    (src dest : EncodeType) (t : gmap string string) : bool * gmap string string :=
  match dict !! fileName with
  | None => (false, ∅)
  | Some _ => (true, ∅)
  end.

(** A world with the given text files and archive resources, where the
    archive opens, the POS table parses to [pt], a character table loads
    when its resource is there, copying into the staged dictionary works and
    MeCab answers [status]. *)
Definition demoWorld (files archive : gmap string string) (pt : POSTable)
    (status : Z) : World :=
  {| fs := files;
     JMA_CType_EUCJP := demo_CType_EUCJP;
     JMA_CType_unknown := demo_CType_EUCJP;
     JMA_Dictionary_open := fun _ => Some archive;
     JMA_Dictionary_copyStrToDict := fun str name d => Some (<[name := str]> d);
     Knowledge_decodeEncodeType := fun s =>
       if bool_decide (s = "EUC-JP") then ENCODE_TYPE_EUCJP
       else if bool_decide (s = "SHIFT-JIS") then ENCODE_TYPE_SJIS
       else ENCODE_TYPE_NUM;
     POSTable_parse := fun _ _ _ => Some pt;
     POSTable_loadCombineRule := fun _ _ => None;
     CharTable_loadConfig := demo_CharTable_loadConfig;
     mecab_dict_index := fun _ d => (status, d);
     MeCab_createTagger := fun _ _ => true |}.

Definition demoPOSTable : POSTable :=
  {| getIndexFromAlphaPOS := fun s => if bool_decide (s = "N-USER") then 5 else -1;
     getPOS := fun i _ => if i =? 5 then Some "N,U" else None |}.

(** A Shift-JIS knowledge instance. *)
Definition sjisKnowledge (w : World) : JMA_Knowledge :=
  setEncodeType w ENCODE_TYPE_SJIS (JMA_Knowledge_new w).

(** A Shift-JIS instance whose keyword-POS set holds the index 3. *)
Definition keywordKnowledge : JMA_Knowledge :=
  {| encodeType_ := ENCODE_TYPE_SJIS; systemDictPath_ := "";
     userDictNames_ := []; posTable_ := POSTable_empty;
     binUserDic_ := ""; stopWords_ := ∅; seps_ := replicate 5 ∅;
     keywordPOSSet_ := {[ 3 ]}; isOutputFullPOS_ := false;
     baseFormOffset_ := 0; readFormOffset_ := 0; normFormOffset_ := 0;
     userNounPOS_ := ""; ctype_ := JMA_CType_SJIS;
     configEncodeType_ := DEFAULT_CONFIG_ENCODE_TYPE;
     kanaTable_ := ∅; widthTable_ := ∅; caseTable_ := ∅;
     dictionary_ := ∅; decompMap_ := ∅ |}.

(** A dicrc whose second line lacks '=', and an archive that holds it next
    to a POS table resource. *)
Definition malformedDicrc : string :=
  "base-form-feature-offset = 3" +:+ String LF "no equals sign here"
    +:+ String LF "read-form-feature-offset = 4".

Definition malformedArchive : gmap string string :=
  {[ "dicrc" := malformedDicrc; "pos-id.def" := "" ]}.

Definition malformedWorld : World := demoWorld ∅ malformedArchive demoPOSTable 0.

(** A world with one user dictionary file, "user.txt", and an instance that
    has it registered, with the settings loadDict would leave. *)
Definition userDictWorld (text : string) (status : Z) : World :=
  demoWorld {[ "user.txt" := text ]} {[ "pos-id.def" := "" ]} demoPOSTable status.

Definition userDictKnowledge (w : World) : JMA_Knowledge :=
  addUserDict "user.txt"
    (with_dictConfig 6 7 9 "N-USER" ENCODE_TYPE_EUCJP
       (with_posTable demoPOSTable (sjisKnowledge w))).

(** A world with two user dictionary files, the first with one entry and
    the second with none, and an instance that has both registered. *)
Definition twoFilesWorld (status : Z) : World :=
  demoWorld {[ "first.txt" := "abc"; "second.txt" := "# nothing" ]}
    {[ "pos-id.def" := "" ]} demoPOSTable status.

Definition twoFilesKnowledge (w : World) : JMA_Knowledge :=
  addUserDict "second.txt"
    (addUserDict "first.txt"
       (with_dictConfig 6 7 9 "N-USER" ENCODE_TYPE_EUCJP
          (with_posTable demoPOSTable (sjisKnowledge w)))).

(** Shift-JIS text of the header's example: the word "本田総一郎", its parts
    "本田" and "総一郎", and the readings "ホンダ" and "ソウイチロウ". *)
Definition sjis_honda : string := str_of_bytes [150; 123; 147; 99]%N.
Definition sjis_soichiro : string := str_of_bytes [145; 141; 136; 234; 152; 89]%N.
Definition sjis_honda_soichiro : string := sjis_honda +:+ sjis_soichiro.
Definition sjis_read_honda : string := str_of_bytes [131; 122; 131; 147; 131; 95]%N.
Definition sjis_read_soichiro : string :=
  str_of_bytes [131; 92; 131; 69; 131; 67; 131; 96; 131; 141; 131; 69]%N.

(** The user dictionary line: word, decomposition pattern "2,3" and reading
    pattern; [hondaRest before] is what follows the word, or the pattern. *)
Definition hondaRest (before : string) : string :=
  before +:+ sjis_read_honda +:+ "," +:+ sjis_read_soichiro.

Definition hondaLine : string := sjis_honda_soichiro +:+ hondaRest " 2,3 ".

Definition hondaDecomposition : MorphemeList :=
  [ {| lexicon_ := sjis_honda; readForm_ := sjis_read_honda |};
    {| lexicon_ := sjis_soichiro; readForm_ := sjis_read_soichiro |} ].

(** Two user dictionary lines over the word "ab": the pattern "3" walks past
    its end, the pattern "1" stops before it. *)
Definition pastEndLine : string := "ab 3".
Definition beforeEndLine : string := "ab 1".

(** Two separator files: a full stop in the first, an exclamation mark in
    the second. *)
Definition separatorWorld : World :=
  demoWorld {[ "sen-a.config" := "."; "sen-b.config" := "!" ]} ∅ demoPOSTable 0.

(** ** Notions used to state further properties of the code *)

(** The separator that a character stands for: the width the classifier
    gives it, when it is from 1 to 4, and its packed code point. *)
Definition separatorOf (ct : JMA_CType) (p : string) : result (nat * Z) :=
  bytes <~ getByteCount ct p;;
  if bytes =? 1 then Ok (1%nat, pack1 p)
  else if bytes =? 2 then Ok (2%nat, pack2 p)
  else if bytes =? 3 then Ok (3%nat, pack3 p)
  else if bytes =? 4 then Ok (4%nat, pack4 p)
  else Fatal assert_char_length.

(** The instance a separator load leaves. *)
Definition separatorsAfter (w : World) (fileName : string) (k : JMA_Knowledge)
  : JMA_Knowledge :=
  match loadSentenceSeparatorConfig w fileName k with
  | Ok (_, k') => k'
  | Fatal _ => k
  end.

(** A line that loadConfig0 and convertTxtToCSV pass over: blank, or a
    comment. *)
Definition is_skipped_line (line0 : string) : bool :=
  let line := chop_cr line0 in
  str_empty line || first_char_is ";" line || first_char_is "#" line.

(** Every character is white space other than the carriage return. *)
Fixpoint all_blank (s : string) : bool :=
  match s with
  | EmptyString => true
  | String c s' => isspace c && negb (Ascii.eqb c CR) && all_blank s'
  end.

(** What holds of every key and value that loadConfig0 stores. *)
Definition trimmed_entry (key value : string) : Prop :=
  rstrip_ws key = key /\ skip_ws value = value /\
  count_char "=" key = O /\ count_char CR key = O /\ count_char CR value = O.

(** The components put together again, with the delimiter between them. *)
Fixpoint str_join (d : ascii) (l : list string) : string :=
  match l with
  | [] => EmptyString
  | [x] => x
  | x :: l' => x +:+ String d (str_join d l')
  end.

(** No character is white space: what [iss >> token] reads in one piece. *)
Fixpoint no_space (s : string) : bool :=
  match s with
  | EmptyString => true
  | String c s' => negb (isspace c) && no_space s'
  end.

(** Nothing, or white space first: where [iss >> token] stops. *)
Definition starts_blank (s : string) : bool :=
  match s with
  | EmptyString => true
  | String c _ => isspace c
  end.

(** Where an entry of decompMap_ comes from: a line of the file [text] whose
    first token is the word and whose second token is an all-numeric pattern
    that walks the word to its end; the morphemes have the lexicons of that
    walk. *)
Definition decomposedBy (ct : JMA_CType) (text word : string) (ms : MorphemeList)
  : Prop :=
  exists line rest pattern rest2 dl raw raw',
    In line (getlines text) /\
    extract_word (chop_cr line) = Some (word, rest) /\
    extract_word rest = Some (pattern, rest2) /\
    decompose ct (tokenizeCSV pattern) word [] = Ok (true, true, dl, raw) /\
    CTypeTokenizer_next ct raw = Ok (None, raw') /\
    map lexicon_ ms = map lexicon_ dl.

Definition decomposedIn (w : World) (ct : JMA_CType) (names : list string)
    (word : string) (ms : MorphemeList) : Prop :=
  exists name text,
    In name names /\ fs w !! c_str name = Some text /\ decomposedBy ct text word ms.

(** The instance compileUserDict leaves. *)
Definition compiledKnowledge (w : World) (k : JMA_Knowledge) : JMA_Knowledge :=
  match compileUserDict w k with
  | Ok (_, k') => k'
  | Fatal _ => k
  end.

(** JMA_Knowledge::isStopWord.  [ctype_->isSpace] belongs to the classifier
    base class, which is not among the sources: its answer on the word is
    taken as given. *)
Definition isStopWord (isSpace : string -> bool) (k : JMA_Knowledge) (word : string)
  : bool :=
  bool_decide (word ∈ stopWords_ k) || isSpace (c_str word).

(** The invariant between the two fields that onEncodeTypeChange keeps in
    step: the classifier is the one of the encoding type. *)
Definition classifier_in_step (w : World) (k : JMA_Knowledge) : Prop :=
  ctype_ k = JMA_CType_instance w (encodeType_ k).

(** What the caller sets and the loads of a dictionary leave alone: the
    encoding type and its classifier, the directory of the system dictionary,
    the registered user dictionaries, the stop words, the sentence separators
    and the keyword POS. *)
Definition configured_alike (k k' : JMA_Knowledge) : Prop :=
  encodeType_ k' = encodeType_ k /\ ctype_ k' = ctype_ k /\
  systemDictPath_ k' = systemDictPath_ k /\ userDictNames_ k' = userDictNames_ k /\
  stopWords_ k' = stopWords_ k /\ seps_ k' = seps_ k /\
  keywordPOSSet_ k' = keywordPOSSet_ k /\ isOutputFullPOS_ k' = isOutputFullPOS_ k.

(** * Properties *)

(** ** tokenizeCSV and its loop *)

Lemma str_drop_all (i : nat) :
  forall s : string, (String.length s <= i)%nat -> str_drop i s = EmptyString.
Proof.
  induction i as [| i IH]; intros [| c s] Hl; simpl in *; try reflexivity; try lia.
  apply IH. lia.
Qed.

Lemma str_drop_some (i : nat) :
  forall s : string, (i < String.length s)%nat -> str_drop i s <> EmptyString.
Proof.
  induction i as [| i IH]; intros [| c s] Hl; simpl in *; try lia; try discriminate.
  apply IH. lia.
Qed.

Lemma str_drop_drop (i : nat) :
  forall (s : string) (r : nat), str_drop r (str_drop i s) = str_drop (i + r) s.
Proof.
  induction i as [| i IH]; intros s r; [reflexivity |].
  destruct s as [| c s]; simpl.
  - destruct r; reflexivity.
  - apply IH.
Qed.

(** The pieces of a text, by the position of its first delimiter. *)
Lemma split_pieces_find (d : ascii) (s : string) :
  s <> EmptyString ->
  split_pieces d s =
    match str_find d s with
    | Some r => str_take r s :: split_pieces d (str_drop (S r) s)
    | None => [s]
    end.
Proof.
  induction s as [| c s IH]; intros Hne; [contradiction |]. simpl.
  destruct (Ascii.eqb c d); [reflexivity |].
  destruct s as [| c' s']; [reflexivity |].
  rewrite IH by discriminate.
  destruct (str_find d (String c' s')) as [r |]; reflexivity.
Qed.

Lemma tokenizeCSV_loop_pieces (fuel : nat) :
  forall (str : string) (i : nat) (compVec : list string),
    (String.length str - i < fuel)%nat ->
    tokenizeCSV_loop fuel str i compVec =
      compVec ++ split_pieces "," (str_drop i str).
Proof.
  induction fuel as [| fuel IH]; intros str i compVec Hfuel; [lia |]. simpl.
  destruct (Nat.ltb_spec i (String.length str)) as [Hlt | Hge].
  - rewrite (split_pieces_find "," (str_drop i str)) by (apply str_drop_some; exact Hlt).
    destruct (str_find "," (str_drop i str)) as [r |]; [| reflexivity].
    rewrite IH by lia. rewrite <- app_assoc.
    rewrite str_drop_drop. replace (i + S r)%nat with (S (i + r)) by lia. reflexivity.
  - rewrite str_drop_all by exact Hge. simpl. rewrite app_nil_r. reflexivity.
Qed.

(** tokenizeCSV is the loop of the source, which ends within as many rounds
    as the string has characters. *)
Lemma tokenizeCSV_loop_eq (str : string) :
  tokenizeCSV_loop (S (String.length str)) str 0 [] = tokenizeCSV str.
Proof. rewrite tokenizeCSV_loop_pieces by lia. reflexivity. Qed.

(** ** getOccupiedBytes and addSentenceSeparator *)

Section OccupiedBytes.

Lemma high_bits_shift (val : Z) :
  0 <= val < 2 ^ 32 ->
  Z.land val 0xffffff00 = Z.shiftl (Z.shiftr val 8) 8.
Proof.
  intros Hv. apply Z.bits_inj'. intros n Hn.
  rewrite Z.land_spec.
  destruct (Z.lt_ge_cases n 8) as [Hlt | Hge].
  - rewrite (Z.shiftl_spec_low _ _ _ Hlt).
    replace 0xffffff00 with (Z.shiftl 0xffffff 8) by reflexivity.
    rewrite (Z.shiftl_spec_low _ _ _ Hlt). apply andb_false_r.
  - rewrite Z.shiftl_spec by lia. rewrite Z.shiftr_spec by lia.
    replace (n - 8 + 8) with n by lia.
    destruct (Z.lt_ge_cases n 32) as [Hlt | Hge32].
    + replace 0xffffff00 with (Z.shiftl (Z.ones 24) 8) by reflexivity.
      rewrite Z.shiftl_spec by lia.
      rewrite Z.ones_spec_low by lia. apply andb_true_r.
    + assert (Z.testbit val n = false) as ->.
      { destruct (Z.eq_dec val 0) as [-> | Hnz]; [apply Z.bits_0 |].
        apply Z.bits_above_log2; [lia |].
        apply Z.log2_lt_pow2; [lia |].
        apply Z.lt_le_trans with (2 ^ 32); [lia |].
        apply Z.pow_le_mono_r; lia. }
      reflexivity.
Qed.

Lemma loop_test (val : Z) :
  0 <= val < 2 ^ 32 ->
  (Z.land val 0xffffff00 =? 0) = (val <? 256).
Proof.
  intros Hv. rewrite (high_bits_shift val Hv).
  rewrite Z.shiftl_mul_pow2, Z.shiftr_div_pow2 by lia.
  change (2 ^ 8) with 256.
  destruct (Z.ltb_spec val 256) as [Hlt | Hge].
  - rewrite Z.div_small by lia. reflexivity.
  - apply Z.eqb_neq. assert (1 <= val / 256) by (apply Z.div_le_lower_bound; lia). lia.
Qed.

Lemma shiftr4_bound (val : Z) (n : nat) :
  0 <= val < 2 ^ (8 + 4 * Z.of_nat (S n)) ->
  0 <= Z.shiftr val 4 < 2 ^ (8 + 4 * Z.of_nat n).
Proof.
  intros [H0 H1]. rewrite Z.shiftr_div_pow2 by lia. split.
  - apply Z.div_pos; lia.
  - apply Z.div_lt_upper_bound; [lia |].
    rewrite <- Z.pow_add_r by lia.
    replace (4 + (8 + 4 * Z.of_nat n)) with (8 + 4 * Z.of_nat (S n)) by lia.
    exact H1.
Qed.

Lemma pow2_le_32 (n : nat) : (n <= 6)%nat -> 2 ^ (8 + 4 * Z.of_nat n) <= 2 ^ 32.
Proof. intros Hn. apply Z.pow_le_mono_r; lia. Qed.

(** The loop ends within [n + 1] rounds on a value below [2^(8+4n)]. *)
Lemma getOccupiedBytes_loop_ends (n : nat) :
  forall (fuel : nat) (val ret : Z),
    (n <= 6)%nat -> (n < fuel)%nat ->
    0 <= val < 2 ^ (8 + 4 * Z.of_nat n) ->
    exists ret', getOccupiedBytes_loop fuel val ret = Some ret'.
Proof.
  induction n as [| n IH]; intros fuel val ret Hn Hfuel Hv.
  - destruct fuel as [| fuel]; [lia |]. simpl.
    rewrite loop_test by (change (2 ^ (8 + 4 * Z.of_nat 0)) with 256 in Hv; lia).
    change (2 ^ (8 + 4 * Z.of_nat 0)) with 256 in Hv.
    destruct (Z.ltb_spec val 256); [eauto | lia].
  - destruct fuel as [| fuel]; [lia |]. simpl.
    pose proof (pow2_le_32 (S n) Hn) as Hp.
    rewrite loop_test by lia.
    destruct (Z.ltb_spec val 256); [eauto |].
    apply IH; [lia | lia | apply shiftr4_bound; exact Hv].
Qed.

(** 32 rounds are enough for every [unsigned int]. *)
Lemma getOccupiedBytes_loop_total (val : Z) :
  0 <= val < 2 ^ 32 ->
  exists ret, getOccupiedBytes_loop 32 val 1 = Some ret.
Proof.
  intros Hv. apply (getOccupiedBytes_loop_ends 6); [lia | lia |].
  change (2 ^ (8 + 4 * Z.of_nat 6)) with (2 ^ 32). exact Hv.
Qed.

Lemma getOccupiedBytes_loop_grows (fuel : nat) :
  forall (val ret ret' : Z),
    0 <= ret -> ret + Z.of_nat fuel < UINT_MODULUS ->
    getOccupiedBytes_loop fuel val ret = Some ret' -> ret <= ret'.
Proof.
  induction fuel as [| fuel IH]; intros val ret ret' H0 Hb Hl; [discriminate |].
  simpl in Hl. destruct (Z.land val 0xffffff00 =? 0).
  - injection Hl as <-. lia.
  - unfold UINT_MODULUS in *. rewrite Z.mod_small in Hl by lia.
    apply IH in Hl; lia.
Qed.

(** What the code computes: one more byte for every 4 bits above the lowest
    8, and the assertion fails from [2^16] on. *)
Lemma getOccupiedBytes_code (val : Z) :
  0 <= val < 2 ^ 32 ->
  getOccupiedBytes val =
    if val <? 2 ^ 8 then Ok 1
    else if val <? 2 ^ 12 then Ok 2
    else if val <? 2 ^ 16 then Ok 3
    else Fatal assert_occupied_bytes.
Proof.
  intros Hv. unfold getOccupiedBytes.
  change (getOccupiedBytes_loop 32 val 1) with
    (if Z.land val 0xffffff00 =? 0 then Some 1
     else getOccupiedBytes_loop 31 (Z.shiftr val 4) ((1 + 1) mod UINT_MODULUS)).
  rewrite loop_test by lia. change (2 ^ 8) with 256.
  destruct (Z.ltb_spec val 256) as [|H1]; [reflexivity |].
  assert (Hs1 : 0 <= Z.shiftr val 4 < 2 ^ 28).
  { rewrite Z.shiftr_div_pow2 by lia. split; [apply Z.div_pos; lia |].
    apply Z.div_lt_upper_bound; lia. }
  assert (Hd1 : Z.shiftr val 4 = val / 16) by (rewrite Z.shiftr_div_pow2 by lia; reflexivity).
  change (getOccupiedBytes_loop 31 (Z.shiftr val 4) ((1 + 1) mod UINT_MODULUS)) with
    (if Z.land (Z.shiftr val 4) 0xffffff00 =? 0 then Some 2
     else getOccupiedBytes_loop 30 (Z.shiftr (Z.shiftr val 4) 4) ((2 + 1) mod UINT_MODULUS)).
  rewrite loop_test by lia.
  destruct (Z.ltb_spec val (2 ^ 12)) as [H2 | H2].
  { destruct (Z.ltb_spec (Z.shiftr val 4) 256) as [| Hc]; [reflexivity |].
    exfalso. rewrite Hd1 in Hc.
    assert (val / 16 < 256) by (apply Z.div_lt_upper_bound; lia). lia. }
  destruct (Z.ltb_spec (Z.shiftr val 4) 256) as [Hc |_].
  { exfalso. rewrite Hd1 in Hc.
    assert (256 <= val / 16) by (apply Z.div_le_lower_bound; lia). lia. }
  set (v2 := Z.shiftr (Z.shiftr val 4) 4).
  assert (Hd2 : v2 = val / 256).
  { unfold v2. rewrite Hd1, Z.shiftr_div_pow2 by lia.
    rewrite Z.div_div by lia. reflexivity. }
  assert (Hs2 : 0 <= v2 < 2 ^ 24).
  { rewrite Hd2. split; [apply Z.div_pos; lia |]. apply Z.div_lt_upper_bound; lia. }
  change (getOccupiedBytes_loop 30 v2 ((2 + 1) mod UINT_MODULUS)) with
    (if Z.land v2 0xffffff00 =? 0 then Some 3
     else getOccupiedBytes_loop 29 (Z.shiftr v2 4) ((3 + 1) mod UINT_MODULUS)).
  rewrite loop_test by lia.
  destruct (Z.ltb_spec val (2 ^ 16)) as [H3 | H3].
  { destruct (Z.ltb_spec v2 256) as [| Hc]; [reflexivity |].
    exfalso. rewrite Hd2 in Hc.
    assert (val / 256 < 256) by (apply Z.div_lt_upper_bound; lia). lia. }
  destruct (Z.ltb_spec v2 256) as [Hc |_].
  { exfalso. rewrite Hd2 in Hc.
    assert (256 <= val / 256) by (apply Z.div_le_lower_bound; lia). lia. }
  change ((3 + 1) mod UINT_MODULUS) with 4.
  destruct (getOccupiedBytes_loop 29 (Z.shiftr v2 4) 4) as [ret |] eqn:Hl; [| reflexivity].
  apply getOccupiedBytes_loop_grows in Hl; [| lia | unfold UINT_MODULUS; lia].
  destruct (Z.ltb_spec ret 4); [lia |]. rewrite andb_false_r. reflexivity.
Qed.

End OccupiedBytes.

(** C2 (code defect).  The value 0x1000 fits in two bytes, yet
    getOccupiedBytes answers 3, since its loop shifts by 4 bits instead of 8;
    0x10000 fits in three bytes, yet the assertion [ret < 4] stops the
    process.  So the Shift-JIS character 0x8140, once added, goes to the set
    of width 3 and isSentenceSeparator, which looks into the set of width 2,
    does not find it. *)
Theorem getOccupiedBytes_not_smallest_width :
  spec_occupied_bytes 0x1000 = 2 /\ getOccupiedBytes 0x1000 = Ok 3 /\
  spec_occupied_bytes 0x10000 = 3 /\
  getOccupiedBytes 0x10000 = Fatal assert_occupied_bytes /\
  exists k,
    addSentenceSeparator 0x8140 (sjisKnowledge separatorWorld) = Ok k /\
    (0x8140 ∈ seps_at (seps_ k) 3) /\ (0x8140 ∉ seps_at (seps_ k) 2) /\
    isSentenceSeparator k (str_of_bytes [0x81; 0x40]%N) = Ok false.
Proof.
  repeat split; try reflexivity.
  eexists. split; [reflexivity |].
  split; [| split]; [vm_compute; set_solver | vm_compute; set_solver | reflexivity ].
Qed.

(** ** Separator sets *)

Lemma seps_insert_keeps (w i : nat) (v x : Z) (seps : list (gset Z)) :
  x ∈ seps_at seps i -> x ∈ seps_at (seps_insert w v seps) i.
Proof.
  unfold seps_insert, seps_at. intros Hx.
  destruct (decide (w = i)) as [-> | Hne].
  - destruct (decide (i < length seps)%nat) as [Hlt | Hge].
    + rewrite list_lookup_total_insert_eq by exact Hlt. set_solver.
    + rewrite list_insert_ge by lia. exact Hx.
  - rewrite list_lookup_total_insert_ne by exact Hne. exact Hx.
Qed.

Lemma separatorLine_keeps (ct : JMA_CType) (line : string)
    (seps seps' : list (gset Z)) (i : nat) (x : Z) :
  separatorLine ct line seps = Ok seps' ->
  x ∈ seps_at seps i -> x ∈ seps_at seps' i.
Proof.
  unfold separatorLine. intros Hl Hx.
  destruct (str_empty (chop_cr line) || first_char_is "#" (chop_cr line)).
  - injection Hl as <-. exact Hx.
  - destruct (getByteCount ct (chop_cr line)) as [bytes |]; simpl in Hl; [| discriminate].
    repeat (match type of Hl with
            | (if ?b then _ else _) = _ => destruct b
            end); try discriminate;
      injection Hl as <-; apply seps_insert_keeps; exact Hx.
Qed.

Lemma foldM_separatorLine_keeps (ct : JMA_CType) (lines : list string) :
  forall (seps seps' : list (gset Z)) (i : nat) (x : Z),
    foldM (separatorLine ct) lines seps = Ok seps' ->
    x ∈ seps_at seps i -> x ∈ seps_at seps' i.
Proof.
  induction lines as [| l ls IH]; intros seps seps' i x Hf Hx; simpl in Hf.
  - injection Hf as <-. exact Hx.
  - destruct (separatorLine ct l seps) as [s1 |] eqn:Hl; simpl in Hf; [| discriminate].
    eapply IH; [exact Hf |]. eapply separatorLine_keeps; eauto.
Qed.

(** Whatever loadSentenceSeparatorConfig returns, every separator held before
    the call is still held after it: the function only inserts. *)
Lemma loadSentenceSeparatorConfig_keeps (w : World) (fileName : string)
    (k k' : JMA_Knowledge) (r : Z) (i : nat) (x : Z) :
  loadSentenceSeparatorConfig w fileName k = Ok (r, k') ->
  x ∈ seps_at (seps_ k) i -> x ∈ seps_at (seps_ k') i.
Proof.
  unfold loadSentenceSeparatorConfig. intros Hl Hx.
  destruct (fs w !! fileName) as [text |].
  - destruct (foldM (separatorLine (ctype_ k)) (getlines text) (seps_ k))
      as [seps |] eqn:Hf; simpl in Hl; [| discriminate].
    injection Hl as _ <-. simpl. eapply foldM_separatorLine_keeps; eauto.
  - injection Hl as _ <-. exact Hx.
Qed.

(** C1 (code defect).  The first file holds a full stop, the second an
    exclamation mark.  Both loads succeed; after the second one the full stop
    is still a separator, although the most recently loaded file does not
    hold it (loaded alone, that file leaves the full stop out). *)
Theorem loadSentenceSeparatorConfig_accumulates :
  exists k1 k2 kb,
    loadSentenceSeparatorConfig separatorWorld "sen-a.config"
      (sjisKnowledge separatorWorld) = Ok (1, k1) /\
    loadSentenceSeparatorConfig separatorWorld "sen-b.config" k1 = Ok (1, k2) /\
    isSentenceSeparator k2 "!" = Ok true /\
    isSentenceSeparator k2 "." = Ok true /\
    loadSentenceSeparatorConfig separatorWorld "sen-b.config"
      (sjisKnowledge separatorWorld) = Ok (1, kb) /\
    isSentenceSeparator kb "!" = Ok true /\
    isSentenceSeparator kb "." = Ok false.
Proof.
  do 3 eexists.
  split; [reflexivity |]. split; [reflexivity |].
  split; [reflexivity |]. split; [reflexivity |].
  split; [reflexivity |]. split; reflexivity.
Qed.

(** ** The Shift-JIS classifier and the assertion of isSentenceSeparator *)

(** C9, as the code has it.  Under the Shift-JIS classifier: at the empty
    string the byte count is 0 and isSentenceSeparator reaches its own
    assertion; at a string whose first byte is not null, and whose second
    byte is not null either when the first is 0x80 or more, the byte count is
    1 or 2 and isSentenceSeparator answers; at a first byte of 0x80 or more
    followed by the terminating null, getByteCount stops at its own assertion
    and yields no byte count, and so does isSentenceSeparator, before its
    switch is reached. *)
Theorem sjis_separator_assertions (k : JMA_Knowledge) (p : string) :
  ctype_ k = JMA_CType_SJIS ->
  (uc p 0 = 0 ->
     getByteCount (ctype_ k) p = Ok 0 /\
     isSentenceSeparator k p = Fatal assert_char_length) /\
  (uc p 0 <> 0 -> uc p 0 < 128 \/ uc p 1 <> 0 ->
     (getByteCount (ctype_ k) p = Ok 1 \/ getByteCount (ctype_ k) p = Ok 2) /\
     exists b, isSentenceSeparator k p = Ok b) /\
  (128 <= uc p 0 -> uc p 1 = 0 ->
     getByteCount (ctype_ k) p = Fatal assert_sjis_trail /\
     isSentenceSeparator k p = Fatal assert_sjis_trail).
Proof.
  intros Hct. unfold isSentenceSeparator. rewrite Hct. simpl.
  unfold JMA_CType_SJIS_getByteCount.
  split; [| split].
  - intros H0. rewrite H0. simpl. split; reflexivity.
  - intros H0 H1.
    destruct (Z.eqb_spec (uc p 0) 0) as [| _]; [contradiction |].
    destruct (Z.ltb_spec (uc p 0) 128) as [Hlt | Hge].
    + split; [left; reflexivity |]. simpl. eauto.
    + destruct (Z.eqb_spec (uc p 1) 0) as [He | _]; [lia |].
      split; [right; reflexivity |]. simpl. eauto.
  - intros H0 H1.
    destruct (Z.eqb_spec (uc p 0) 0) as [| _]; [lia |].
    destruct (Z.ltb_spec (uc p 0) 128) as [Hlt | _]; [lia |].
    rewrite H1. simpl. split; reflexivity.
Qed.

Lemma sjis_separator_assertions_witness :
  isSentenceSeparator (sjisKnowledge separatorWorld) "" = Fatal assert_char_length /\
  (exists b, isSentenceSeparator (sjisKnowledge separatorWorld) "a" = Ok b) /\
  isSentenceSeparator (sjisKnowledge separatorWorld) (str_of_bytes [0x81]%N)
    = Fatal assert_sjis_trail.
Proof.
  split; [| split].
  - apply (sjis_separator_assertions (sjisKnowledge separatorWorld) "" eq_refl).
    reflexivity.
  - apply (sjis_separator_assertions (sjisKnowledge separatorWorld) "a" eq_refl).
    + vm_compute. discriminate.
    + left. vm_compute. reflexivity.
  - apply (sjis_separator_assertions (sjisKnowledge separatorWorld)
             (str_of_bytes [0x81]%N) eq_refl).
    + vm_compute. discriminate.
    + reflexivity.
Defined.

(** The first byte 0x81 is not null, yet the Shift-JIS byte count of the
    string that holds it alone is neither 1 nor 2. *)
Lemma sjis_lead_byte_alone_has_no_count :
  uc (str_of_bytes [0x81]%N) 0 <> 0 /\
  ~ (JMA_CType_SJIS_getByteCount (str_of_bytes [0x81]%N) = Ok 1 \/
     JMA_CType_SJIS_getByteCount (str_of_bytes [0x81]%N) = Ok 2).
Proof.
  split.
  - vm_compute. discriminate.
  - intros [H | H]; vm_compute in H; discriminate.
Qed.

(** ** What the load operations leave untouched *)

(** An invariant of the rounds of a loop is an invariant of the loop. *)
Lemma foldM_inv {A S : Type} (P : S -> Prop) (f : A -> S -> result S)
    (l : list A) :
  (forall a s s', In a l -> P s -> f a s = Ok s' -> P s') ->
  forall s s', P s -> foldM f l s = Ok s' -> P s'.
Proof.
  induction l as [| a l IH]; intros Hstep s s' Hs Hf; simpl in Hf.
  - injection Hf as <-. exact Hs.
  - destruct (f a s) as [s1 |] eqn:Ha; simpl in Hf; [| discriminate].
    eapply IH; [| | exact Hf].
    + intros a' t t' Hin. apply Hstep. right. exact Hin.
    + eapply Hstep; [left; reflexivity | exact Hs | exact Ha].
Qed.

(** convertTxtToCSV changes decompMap_ only. *)
Lemma convertTxtToCSV_knowledge (w : World) (k k' : JMA_Knowledge)
    (f ost ost' : string) (c : Z) :
  convertTxtToCSV w k f ost = Ok (c, ost', k') ->
  exists dm, k' = with_decompMap dm k.
Proof.
  unfold convertTxtToCSV. intros H.
  assert (Hk : k = with_decompMap (decompMap_ k) k) by (destruct k; reflexivity).
  destruct (_ =? -1).
  { injection H as _ _ <-. eauto. }
  destruct (getPOS _ _ _) as [pos |]; [| injection H as _ _ <-; eauto].
  destruct (negb _); [discriminate |].
  destruct (fs w !! f) as [text |]; [| injection H as _ _ <-; eauto].
  destruct (foldM _ _ _) as [[[o dm] n] |]; simpl in H; [| discriminate].
  injection H as _ _ <-. eauto.
Qed.

Lemma convertAll_knowledge (w : World) (names : list string) :
  forall (k k' : JMA_Knowledge) (n n' : Z) (osst osst' : string),
    convertAll w names n osst k = Ok (n', osst', k') ->
    exists dm, k' = with_decompMap dm k.
Proof.
  induction names as [| name names IH]; intros k k' n n' osst osst' H; simpl in H.
  - injection H as _ _ <-. exists (decompMap_ k). destruct k; reflexivity.
  - destruct (convertTxtToCSV w k (c_str name) osst) as [[[c o] k1] |] eqn:Hc;
      simpl in H; [| discriminate].
    apply convertTxtToCSV_knowledge in Hc as [dm1 ->].
    apply IH in H as [dm ->]. exists dm. reflexivity.
Qed.

(** compileUserDict changes decompMap_, binUserDic_ and the dictionary only. *)
Lemma compileUserDict_knowledge (w : World) (k k' : JMA_Knowledge) (b : bool) :
  compileUserDict w k = Ok (b, k') ->
  exists dm bin d, k' = with_dictionary d (with_binUserDic bin (with_decompMap dm k)).
Proof.
  unfold compileUserDict. intros H.
  destruct (userDictNames_ k) as [| n ns] eqn:Hn.
  { injection H as _ <-. exists (decompMap_ k), (binUserDic_ k), (dictionary_ k).
    destruct k; reflexivity. }
  destruct (convertAll _ _ _ _ _) as [[[c o] k3] |] eqn:Hc; simpl in H; [| discriminate].
  apply convertAll_knowledge in Hc as [dm ->].
  destruct (c =? 0).
  { injection H as _ <-.
    exists dm, BIN_USER_DICT_MEMORY_FILE, (dictionary_ (stageUserDict k)).
    reflexivity. }
  destruct (JMA_Dictionary_copyStrToDict _ _ _ _) as [d |].
  - destruct (mecab_dict_index _ _ _) as [st d']. injection H as _ <-.
    exists dm, BIN_USER_DICT_MEMORY_FILE, d'. reflexivity.
  - injection H as _ <-.
    exists dm, BIN_USER_DICT_MEMORY_FILE, (dictionary_ (stageUserDict k)).
    reflexivity.
Qed.

Lemma loadDict_finish_knowledge (w : World) (k6 k7 : JMA_Knowledge) (r : Z) :
  loadDict_finish w k6 = Ok (r, k7) ->
  exists dm bin d, k7 = with_dictionary d (with_binUserDic bin (with_decompMap dm k6)).
Proof.
  unfold loadDict_finish. intros H.
  destruct (hasUserDict k6).
  - destruct (compileUserDict w k6) as [[b k'] |] eqn:Hc; simpl in H; [| discriminate].
    apply compileUserDict_knowledge in Hc as (dm & bin & d & ->).
    destruct (negb b).
    + injection H as _ <-. eauto.
    + destruct (createTagger _ _) as [t |]; simpl in H; [| discriminate].
      destruct t; injection H as _ <-; eauto.
  - simpl in H.
    destruct (createTagger _ _) as [t |]; simpl in H; [| discriminate].
    exists (decompMap_ k6), (binUserDic_ k6), (dictionary_ k6).
    destruct t; injection H as _ <-; destruct k6; reflexivity.
Qed.

Lemma loadDict_tables_keywordPOSSet (w : World) (k1 : JMA_Knowledge) :
  keywordPOSSet_ (loadDict_tables w k1).2 = keywordPOSSet_ k1.
Proof.
  unfold loadDict_tables.
  destruct (POSTable_loadConfig _ _ _ _ _ _) as [[] pt]; simpl; [| reflexivity].
  destruct (POSTable_loadCombineRule _ _ _); reflexivity.
Qed.

Lemma loadDict_keywordPOSSet (w : World) (k k' : JMA_Knowledge) (r : Z) :
  loadDict w k = Ok (r, k') -> keywordPOSSet_ k' = keywordPOSSet_ k.
Proof.
  unfold loadDict. intros H.
  destruct (JMA_Dictionary_open _ _) as [d |]; [| injection H as _ <-; reflexivity].
  unfold loadDict_after_config in H.
  pose proof (loadDict_tables_keywordPOSSet w (loadDictConfig w (with_dictionary d k))) as Ht.
  destruct (loadDict_tables _ _) as [ok k6]. simpl in Ht.
  assert (Hc : keywordPOSSet_ (loadDictConfig w (with_dictionary d k)) = keywordPOSSet_ k).
  { unfold loadDictConfig. destruct (loadConfig0 _ _ _). reflexivity. }
  destruct (negb ok).
  - injection H as _ <-. congruence.
  - apply loadDict_finish_knowledge in H as (dm & bin & d' & ->). simpl. congruence.
Qed.

(** ** isKeywordPOS *)

(** C10.  The keyword-POS set of a freshly constructed instance is empty and
    none of loadDict, loadStopWordDict, loadSentenceSeparatorConfig and
    addSentenceSeparator changes it; with an empty set isKeywordPOS answers
    true for every POS index, and with a set that is not empty it answers
    true exactly for the members of the set. *)
Theorem isKeywordPOS_empty_or_member (w : World) (k : JMA_Knowledge) (pos : Z) :
  (keywordPOSSet_ (JMA_Knowledge_new w) = ∅ /\
   isKeywordPOS (JMA_Knowledge_new w) pos = true) /\
  (keywordPOSSet_ k = ∅ -> isKeywordPOS k pos = true) /\
  (keywordPOSSet_ k <> ∅ -> (isKeywordPOS k pos = true <-> pos ∈ keywordPOSSet_ k)) /\
  (forall r k', loadDict w k = Ok (r, k') -> keywordPOSSet_ k' = keywordPOSSet_ k) /\
  (forall f, keywordPOSSet_ (loadStopWordDict w f k).2 = keywordPOSSet_ k) /\
  (forall f r k', loadSentenceSeparatorConfig w f k = Ok (r, k') ->
     keywordPOSSet_ k' = keywordPOSSet_ k) /\
  (forall v k', addSentenceSeparator v k = Ok k' ->
     keywordPOSSet_ k' = keywordPOSSet_ k).
Proof.
  split; [split; reflexivity |].
  split; [| split; [| split; [| split; [| split]]]].
  - intros He. unfold isKeywordPOS. destruct (decide _); [reflexivity | contradiction].
  - intros Hne. unfold isKeywordPOS. destruct (decide _); [contradiction |].
    apply bool_decide_eq_true.
  - intros r k'. apply loadDict_keywordPOSSet.
  - intros f. unfold loadStopWordDict. destruct (fs w !! f); reflexivity.
  - intros f r k'. unfold loadSentenceSeparatorConfig.
    destruct (fs w !! f).
    + destruct (foldM _ _ _); simpl; [| discriminate].
      intros H. injection H as _ <-. reflexivity.
    + intros H. injection H as _ <-. reflexivity.
  - intros v k'. unfold addSentenceSeparator.
    destruct (getOccupiedBytes v); simpl; [| discriminate].
    intros H. injection H as <-. reflexivity.
Qed.

(** An instance whose keyword-POS set holds the index 3. *)
Lemma isKeywordPOS_empty_or_member_witness :
  isKeywordPOS (sjisKnowledge separatorWorld) 7 = true /\
  (isKeywordPOS keywordKnowledge 3 = true <-> 3 ∈ keywordPOSSet_ keywordKnowledge) /\
  (isKeywordPOS keywordKnowledge 7 = true <-> 7 ∈ keywordPOSSet_ keywordKnowledge).
Proof.
  split; [| split].
  - apply (proj1 (proj2 (isKeywordPOS_empty_or_member separatorWorld
                            (sjisKnowledge separatorWorld) 7))).
    reflexivity.
  - apply (proj1 (proj2 (proj2 (isKeywordPOS_empty_or_member separatorWorld
                                   keywordKnowledge 3)))).
    intros H. vm_compute in H. discriminate H.
  - apply (proj1 (proj2 (proj2 (isKeywordPOS_empty_or_member separatorWorld
                                   keywordKnowledge 7)))).
    intros H. vm_compute in H. discriminate H.
Defined.

(** ** The configuration parser *)

(** A round of loadConfig0 returns false exactly on a line that is neither
    blank nor a comment and lacks '='. *)
Lemma configLine_None (line : string) (m : gmap string string) :
  configLine line m = None <-> lacks_equals line = true.
Proof.
  unfold configLine, lacks_equals.
  destruct (str_empty (chop_cr line)); simpl; [split; discriminate |].
  destruct (first_char_is ";" (chop_cr line)); simpl; [split; discriminate |].
  destruct (first_char_is "#" (chop_cr line)); simpl; [split; discriminate |].
  destruct (str_find "=" (chop_cr line)) as [pos |].
  - split; [discriminate |]. intros H. apply bool_decide_eq_true in H. discriminate.
  - split; [| reflexivity]. intros _. apply bool_decide_eq_true. reflexivity.
Qed.

Lemma loadConfig0_lines_wellformed (pre : list string) :
  forall m : gmap string string,
    Forall (fun l => lacks_equals l = false) pre ->
    (loadConfig0_lines pre m).1 = true.
Proof.
  induction pre as [| l pre IH]; intros m Hpre; [reflexivity |].
  inversion Hpre as [| ? ? Hl Hrest]; subst. simpl.
  destruct (configLine l m) as [m' |] eqn:Hc.
  - apply IH. exact Hrest.
  - apply configLine_None in Hc. congruence.
Qed.

Lemma loadConfig0_lines_stops (pre : list string) (bad : string) (post : list string) :
  forall m : gmap string string,
    Forall (fun l => lacks_equals l = false) pre ->
    lacks_equals bad = true ->
    loadConfig0_lines (pre ++ bad :: post) m = (false, (loadConfig0_lines pre m).2).
Proof.
  induction pre as [| l pre IH]; intros m Hpre Hbad; simpl.
  - apply (configLine_None bad m) in Hbad. rewrite Hbad. reflexivity.
  - inversion Hpre as [| ? ? Hl Hrest]; subst.
    destruct (configLine l m) as [m' |] eqn:Hc.
    + apply IH; assumption.
    + apply configLine_None in Hc. congruence.
Qed.

(** loadConfig0 on a present resource whose first offending line comes after
    the lines [pre]. *)
Lemma loadConfig0_stops_at_offending_line_aux (dict : gmap string string)
    (filename text : string) (m : gmap string string)
    (pre : list string) (bad : string) (post : list string) :
  dict !! filename = Some text ->
  getlines text = pre ++ bad :: post ->
  Forall (fun l => lacks_equals l = false) pre ->
  lacks_equals bad = true ->
  loadConfig0 dict filename m = (false, (loadConfig0_lines pre m).2) /\
  (loadConfig0_lines pre m).1 = true.
Proof.
  intros Hd Hlines Hpre Hbad. unfold loadConfig0. rewrite Hd, Hlines.
  split.
  - apply loadConfig0_lines_stops; assumption.
  - apply loadConfig0_lines_wellformed; assumption.
Qed.

(** C4, as the code has it.  When the first line of a present resource that is
    neither blank nor a comment and lacks '=' comes after the lines [pre],
    loadConfig0 returns false, and the caller's map is left with the entries
    of the lines [pre] added to what it held: the lines before the offending
    one are parsed, however many they are, and the lines after it are not. *)
Theorem loadConfig0_stops_at_offending_line (dict : gmap string string)
    (filename text : string) (m : gmap string string)
    (pre : list string) (bad : string) (post : list string) :
  dict !! filename = Some text ->
  getlines text = pre ++ bad :: post ->
  Forall (fun l => lacks_equals l = false) pre ->
  lacks_equals bad = true ->
  loadConfig0 dict filename m = (false, (loadConfig0_lines pre m).2) /\
  (loadConfig0_lines pre m).1 = true.
Proof.
  intros Hd Hlines Hpre Hbad.
  exact (loadConfig0_stops_at_offending_line_aux dict filename text m pre bad post
           Hd Hlines Hpre Hbad).
Qed.

Lemma loadConfig0_stops_at_offending_line_witness :
  loadConfig0 malformedArchive "dicrc" ∅
    = (false, (loadConfig0_lines ["base-form-feature-offset = 3"] ∅).2) /\
  (loadConfig0_lines ["base-form-feature-offset = 3"] ∅).1 = true.
Proof.
  apply (loadConfig0_stops_at_offending_line malformedArchive "dicrc"
           malformedDicrc ∅ ["base-form-feature-offset = 3"] "no equals sign here"
           ["read-form-feature-offset = 4"]).
  - reflexivity.
  - reflexivity.
  - repeat constructor.
  - reflexivity.
Defined.

(** The resource holds a line without '=' after one well-formed line; the
    parse fails, yet the map the caller passed empty now holds the entry of
    the first line. *)
Lemma loadConfig0_leaves_partial_map :
  malformedArchive !! "dicrc" = Some malformedDicrc /\
  (exists l, l ∈ getlines malformedDicrc /\ lacks_equals l = true) /\
  (loadConfig0 malformedArchive "dicrc" ∅).1 = false /\
  (loadConfig0 malformedArchive "dicrc" ∅).2 !! "base-form-feature-offset" = Some "3" /\
  (loadConfig0 malformedArchive "dicrc" ∅).2 <> ∅.
Proof.
  split; [reflexivity |].
  split; [exists "no equals sign here"; split; [vm_compute; set_solver | reflexivity] |].
  split; [reflexivity |].
  assert (H : (loadConfig0 malformedArchive "dicrc" ∅).2 !! "base-form-feature-offset"
              = Some "3") by (vm_compute; reflexivity).
  split; [exact H |].
  intros He. rewrite He in H. rewrite lookup_empty in H. discriminate.
Qed.

(** ** The configuration step of loadDict *)









(** ** The tables of loadDict *)




(** ** Records written by convertTxtToCSV *)

Section Records.

Variable c : ascii.

Lemma count_char_app (a b : string) :
  count_char c (a +:+ b) = (count_char c a + count_char c b)%nat.
Proof.
  induction a as [| x a IH]; [reflexivity |].
  change (String x a +:+ b) with (String x (a +:+ b)). simpl. rewrite IH. lia.
Qed.

Lemma count_char_chop_cr (s : string) :
  (count_char c (chop_cr s) <= count_char c s)%nat.
Proof.
  induction s as [| x s IH]; simpl; [lia |].
  destruct (Ascii.eqb x CR); simpl; lia.
Qed.

Lemma count_char_skip_ws (s : string) :
  (count_char c (skip_ws s) <= count_char c s)%nat.
Proof.
  induction s as [| x s IH]; simpl; [lia |].
  destruct (isspace x); simpl; lia.
Qed.

Lemma count_char_read_token (s : string) :
  (count_char c (read_token s).1 + count_char c (read_token s).2
   <= count_char c s)%nat.
Proof.
  induction s as [| x s IH]; simpl; [lia |].
  destruct (isspace x); simpl; [lia |].
  destruct (read_token s) as [t r]. simpl in *. lia.
Qed.

Lemma count_char_extract_word (s t r : string) :
  extract_word s = Some (t, r) ->
  (count_char c t + count_char c r <= count_char c s)%nat.
Proof.
  unfold extract_word. intros H.
  pose proof (count_char_read_token (skip_ws s)) as Ht.
  pose proof (count_char_skip_ws s) as Hs.
  destruct (read_token (skip_ws s)) as [t' r']. simpl in Ht.
  destruct t'; [discriminate |]. injection H as <- <-. lia.
Qed.

Lemma count_char_split_pieces (d : ascii) (s : string) :
  (count_char c (str_concat (split_pieces d s)) <= count_char c s)%nat.
Proof.
  induction s as [| x s IH]; simpl; [lia |].
  destruct (Ascii.eqb x d); simpl.
  - change (EmptyString +:+ ?t) with t. lia.
  - destruct (split_pieces d s) as [| t ts]; simpl in *.
    + lia.
    + change (String x t +:+ ?u) with (String x (t +:+ u)). simpl. lia.
Qed.

Lemma count_char_repeat (n : nat) (s : string) :
  count_char c s = O ->
  count_char c (str_concat (replicate n s)) = O.
Proof.
  intros Hs. induction n as [| n IH]; [reflexivity |].
  change (str_concat (replicate (S n) s)) with (s +:+ str_concat (replicate n s)).
  rewrite count_char_app, IH, Hs. reflexivity.
Qed.

End Records.

(** No line that getline hands out holds a line feed. *)
Lemma split_pieces_no_delimiter (d : ascii) (s : string) :
  Forall (fun l => count_char d l = O) (split_pieces d s).
Proof.
  induction s as [| x s IH]; simpl; [constructor |].
  destruct (Ascii.eqb x d) eqn:Hx.
  - constructor; [reflexivity | exact IH].
  - destruct (split_pieces d s) as [| t ts].
    + constructor; [| constructor]. simpl. rewrite Hx. reflexivity.
    + inversion IH; subst. constructor; [| assumption]. simpl. rewrite Hx. lia.
Qed.

Lemma count_LF_csv_head (word pos : string) (posSize readFormOffset : Z) :
  count_char LF word = O -> count_char LF pos = O ->
  count_char LF (csv_head word pos posSize readFormOffset) = O.
Proof.
  intros Hw Hp. unfold csv_head.
  rewrite !count_char_app, Hw, Hp.
  rewrite count_char_repeat by reflexivity. reflexivity.
Qed.

Lemma records_written_head (base : nat) (ost : string)
    (dm dm' : gmap string MorphemeList) (count : Z) (head : string) :
  count_char LF head = O ->
  records_written base (ost, dm, count) ->
  records_written base (ost +:+ head, dm', count).
Proof.
  intros Hh (n & Ho & Hc). exists n. simpl in *.
  rewrite count_char_app, Hh. split; [lia | exact Hc].
Qed.

Lemma records_written_finish (base : nat) (ost : string)
    (dm dm' : gmap string MorphemeList) (count : Z) (head : string)
    (hasRead : bool) (compVec : list string) :
  count_char LF head = O ->
  count_char LF (str_concat compVec) = O ->
  records_written base (ost, dm, count) ->
  records_written base (finishLine hasRead compVec (ost +:+ head) dm' count).
Proof.
  intros Hh Hv (n & Ho & Hc). exists (S n). unfold finishLine. simpl in *.
  split.
  - destruct hasRead; rewrite !count_char_app, Hh, ?Hv; simpl; lia.
  - rewrite Hc. unfold UINT_MODULUS.
    rewrite Nat2Z.inj_succ. unfold Z.succ.
    rewrite Zplus_mod_idemp_l. reflexivity.
Qed.

(** A round of the conversion loop either ends a record, and counts it, or
    writes no line feed and counts nothing. *)
Lemma convertLine_records (ct : JMA_CType) (pos : string)
    (posSize readFormOffset : Z) (line : string) (base : nat) (st st' : ConvState) :
  count_char LF pos = O -> count_char LF line = O ->
  records_written base st ->
  convertLine ct pos posSize readFormOffset line st = Ok st' ->
  records_written base st'.
Proof.
  intros Hpos Hline Hst. destruct st as [[ost dm] count].
  unfold convertLine.
  pose proof (count_char_chop_cr LF line) as Hchop.
  destruct (_ || _); [intros H; injection H as <-; exact Hst |].
  destruct (extract_word (chop_cr line)) as [[word rest] |] eqn:Hw;
    [| intros H; injection H as <-; exact Hst].
  apply (count_char_extract_word LF) in Hw.
  assert (Hhead : count_char LF (csv_head word pos posSize readFormOffset) = O)
    by (apply count_LF_csv_head; [lia | exact Hpos]).
  destruct (extract_word rest) as [[pattern rest2] |] eqn:Hp.
  2:{ intros H; injection H as <-.
      eapply records_written_finish; [exact Hhead | reflexivity | exact Hst]. }
  apply (count_char_extract_word LF) in Hp.
  pose proof (count_char_split_pieces LF "," pattern) as Hcv.
  fold (tokenizeCSV pattern) in Hcv.
  destruct (tokenizeCSV pattern) as [| comp0 comps] eqn:Hcomp.
  { intros H; injection H as <-. eapply records_written_head; eassumption. }
  destruct (isNumber comp0).
  2:{ intros H; injection H as <-.
      eapply records_written_finish; [exact Hhead | lia | exact Hst]. }
  destruct (decompose ct (comp0 :: comps) word [])
    as [[[[isAllNumber isValidCharCount] decompList] raw] |]; simpl; [| discriminate].
  destruct (negb isAllNumber);
    [intros H; injection H as <-; eapply records_written_head; eassumption |].
  destruct (negb isValidCharCount);
    [intros H; injection H as <-; eapply records_written_head; eassumption |].
  destruct (CTypeTokenizer_next ct raw) as [[p raw'] |]; simpl; [| discriminate].
  destruct p;
    [intros H; injection H as <-; eapply records_written_head; eassumption |].
  destruct (extract_word rest2) as [[pattern2 rest3] |] eqn:Hp2.
  2:{ intros H; injection H as <-.
      eapply records_written_finish; [exact Hhead | lia | exact Hst]. }
  apply (count_char_extract_word LF) in Hp2.
  pose proof (count_char_split_pieces LF "," pattern2) as Hcv2.
  fold (tokenizeCSV pattern2) in Hcv2.
  destruct (bool_decide _);
    [intros H; injection H as <-; eapply records_written_head; eassumption |].
  destruct (negb _);
    [intros H; injection H as <-; eapply records_written_head; eassumption |].
  intros H; injection H as <-.
  eapply records_written_finish; [exact Hhead | lia | exact Hst].
Qed.

(** The count convertTxtToCSV returns is the number of records it ended with
    a line feed, as an [unsigned int] holds it. *)
Lemma convertTxtToCSV_counts_records (w : World) (k k' : JMA_Knowledge)
    (f ost ost' : string) (count : Z) :
  (forall i s, getPOS (posTable_ k) i POS_FORMAT_FULL_CATEGORY = Some s ->
               count_char LF (c_str s) = O) ->
  convertTxtToCSV w k f ost = Ok (count, ost', k') ->
  exists n : nat,
    count_char LF ost' = (count_char LF ost + n)%nat /\
    count = Z.of_nat n mod UINT_MODULUS.
Proof.
  intros Hpos. unfold convertTxtToCSV.
  assert (Hzero : exists n : nat,
             count_char LF ost = (count_char LF ost + n)%nat /\
             0 = Z.of_nat n mod UINT_MODULUS) by (exists O; split; [lia | reflexivity]).
  destruct (_ =? -1); [intros H; injection H as <- <- _; exact Hzero |].
  destruct (getPOS _ _ _) as [pos |] eqn:Hp;
    [| intros H; injection H as <- <- _; exact Hzero].
  destruct (negb _); [discriminate |].
  destruct (fs w !! f) as [text |]; [| intros H; injection H as <- <- _; exact Hzero].
  destruct (foldM _ _ _) as [[[o dm] n] |] eqn:Hf; simpl; [| discriminate].
  intros H; injection H as <- <- _.
  apply (foldM_inv (records_written (count_char LF ost))) in Hf.
  - exact Hf.
  - intros line st st' Hin. apply convertLine_records.
    + eapply Hpos; exact Hp.
    + pose proof (split_pieces_no_delimiter LF text) as Hall.
      rewrite List.Forall_forall in Hall. apply Hall. exact Hin.
  - exists O. simpl. split; [lia | reflexivity].
Qed.

(** ** compileUserDict *)

(** The loop of compileUserDict adds up what the conversions return: its
    entry count is the total of the per-file counts, as an [unsigned int]
    holds it. *)
Lemma convertAll_fileCounts (w : World) (names : list string) :
  forall (entryCount : Z) (osst osst' : string) (k k' : JMA_Knowledge)
         (counts : list Z),
    0 <= entryCount < UINT_MODULUS ->
    fileCounts w names osst k counts osst' k' ->
    convertAll w names entryCount osst k =
      Ok ((entryCount + sum_counts counts) mod UINT_MODULUS, osst', k').
Proof.
  induction names as [| name names IH];
    intros entryCount osst osst' k k' counts Hrange Hfc;
    inversion Hfc as [| ? ? ? osst1 ? ? k1 ? count counts' Hconv Hrest]; subst.
  - simpl. rewrite Z.add_0_r, Z.mod_small by exact Hrange. reflexivity.
  - simpl. rewrite Hconv. simpl.
    rewrite (IH _ _ _ _ _ _ ltac:(apply Z.mod_pos_bound; unfold UINT_MODULUS; lia) Hrest).
    unfold sum_counts. simpl. fold (sum_counts counts').
    rewrite Zplus_mod_idemp_l, Z.add_assoc. reflexivity.
Qed.

(** The stream after the conversions holds one record for each entry
    counted. *)
Lemma fileCounts_records (w : World) (names : list string) (osst osst' : string)
    (k k' : JMA_Knowledge) (counts : list Z) :
  (forall i s, getPOS (posTable_ k) i POS_FORMAT_FULL_CATEGORY = Some s ->
               count_char LF (c_str s) = O) ->
  fileCounts w names osst k counts osst' k' ->
  exists ns : list nat,
    counts = map (fun n => Z.of_nat n mod UINT_MODULUS) ns /\
    count_char LF osst' = (count_char LF osst + list_sum ns)%nat.
Proof.
  intros Hpos Hfc.
  induction Hfc as [| name names osst osst1 osst2 k k1 k2 count counts Hconv Hrest IH].
  - exists []. split; [reflexivity |]. simpl. lia.
  - destruct (convertTxtToCSV_counts_records w k k1 _ osst osst1 count Hpos Hconv)
      as (n & Hn & Hc).
    apply convertTxtToCSV_knowledge in Hconv as [dm ->].
    destruct (IH Hpos) as (ns & Hns & Hsum).
    exists (n :: ns). split; [simpl; rewrite Hc, Hns; reflexivity |].
    rewrite Hsum, Hn. simpl. lia.
Qed.

(** C7, as the code has it.  With [counts] the counts the per-file
    conversions return over the registered files, one for each file in
    order, and [osst] the CSV text they leave: compileUserDict returns false
    when their total is zero; when it is not zero, compileUserDict returns
    false when the copy of the CSV text into the staged text dictionary
    fails, and otherwise returns whether the external compiler answered 0.
    The CSV text holds one record for each entry counted, and the count a
    file conversion returns is the number of records it ended with a line
    feed, as an [unsigned int] holds it (the POS string holding no line
    feed). *)
Theorem compileUserDict_entry_count (w : World) (k : JMA_Knowledge)
    (counts : list Z) (osst : string) (k3 : JMA_Knowledge) :
  userDictNames_ k <> [] ->
  fileCounts w (userDictNames_ k) EmptyString (stageUserDict k) counts osst k3 ->
  (sum_counts counts mod UINT_MODULUS = 0 -> compileUserDict w k = Ok (false, k3)) /\
  (sum_counts counts mod UINT_MODULUS <> 0 ->
   (JMA_Dictionary_copyStrToDict w osst TXT_USER_DICT_MEMORY_FILE (dictionary_ k3) = None ->
    compileUserDict w k = Ok (false, k3)) /\
   (forall d,
      JMA_Dictionary_copyStrToDict w osst TXT_USER_DICT_MEMORY_FILE (dictionary_ k3)
        = Some d ->
      compileUserDict w k =
        Ok ((mecab_dict_index w (userDictCompileParam k3) d).1 =? 0,
            with_dictionary (mecab_dict_index w (userDictCompileParam k3) d).2 k3))) /\
  ((forall i s, getPOS (posTable_ k) i POS_FORMAT_FULL_CATEGORY = Some s ->
                count_char LF (c_str s) = O) ->
   exists ns : list nat,
     counts = map (fun n => Z.of_nat n mod UINT_MODULUS) ns /\
     length ns = length (userDictNames_ k) /\
     count_char LF osst = list_sum ns) /\
  (forall k0 f ost count ost' k',
     (forall i s, getPOS (posTable_ k0) i POS_FORMAT_FULL_CATEGORY = Some s ->
                  count_char LF (c_str s) = O) ->
     convertTxtToCSV w k0 f ost = Ok (count, ost', k') ->
     exists n : nat,
       count_char LF ost' = (count_char LF ost + n)%nat /\
       count = Z.of_nat n mod UINT_MODULUS).
Proof.
  intros Hne Hfc.
  assert (Hall : convertAll w (userDictNames_ k) 0 EmptyString (stageUserDict k)
                 = Ok (sum_counts counts mod UINT_MODULUS, osst, k3)).
  { rewrite (convertAll_fileCounts w _ 0 _ _ _ _ counts
               ltac:(unfold UINT_MODULUS; lia) Hfc).
    reflexivity. }
  assert (Hc : compileUserDict w k =
               ('(entryCount, osst, k3) <~
                  convertAll w (userDictNames_ k) 0 EmptyString (stageUserDict k);;
                if entryCount =? 0 then Ok (false, k3)
                else
                  match JMA_Dictionary_copyStrToDict w osst TXT_USER_DICT_MEMORY_FILE
                          (dictionary_ k3) with
                  | None => Ok (false, k3)
                  | Some d =>
                      let '(compileResult, d') :=
                        mecab_dict_index w (userDictCompileParam k3) d in
                      Ok (compileResult =? 0, with_dictionary d' k3)
                  end)).
  { unfold compileUserDict.
    change (userDictNames_ (stageUserDict k)) with (userDictNames_ k).
    destruct (userDictNames_ k); [contradiction | reflexivity]. }
  rewrite Hc, Hall. simpl. split; [| split; [| split]].
  - intros ->. reflexivity.
  - intros Hnz. destruct (Z.eqb_spec (sum_counts counts mod UINT_MODULUS) 0) as [| _];
      [contradiction |].
    split.
    + intros ->. reflexivity.
    + intros d ->. destruct (mecab_dict_index _ _ _). reflexivity.
  - intros Hpos.
    destruct (fileCounts_records w (userDictNames_ k) EmptyString osst (stageUserDict k)
                k3 counts Hpos Hfc) as (ns & Hns & Hsum).
    exists ns. split; [exact Hns |]. split; [| exact Hsum].
    assert (Hlen : forall names o1 k1 cs o2 k2,
               fileCounts w names o1 k1 cs o2 k2 -> length cs = length names).
    { induction 1; simpl; congruence. }
    apply Hlen in Hfc. rewrite <- Hfc, Hns, length_map. reflexivity.
  - intros k0 f ost count ost' k'. apply convertTxtToCSV_counts_records.
Qed.

Lemma compileUserDict_entry_count_witness :
  (exists k', compileUserDict (twoFilesWorld 0) (twoFilesKnowledge (twoFilesWorld 0))
              = Ok (true, k')) /\
  (exists k', compileUserDict (userDictWorld "# nothing" 0)
                (userDictKnowledge (userDictWorld "# nothing" 0)) = Ok (false, k')).
Proof.
  split.
  - eexists.
    refine (proj2 (proj1 (proj2 (compileUserDict_entry_count (twoFilesWorld 0)
              (twoFilesKnowledge (twoFilesWorld 0)) [1; 0] _ _ _ _)) _) _ _).
    + discriminate.
    + eapply fileCounts_cons; [vm_compute; reflexivity |].
      eapply fileCounts_cons; [vm_compute; reflexivity |].
      apply fileCounts_nil.
    + vm_compute. discriminate.
    + vm_compute. reflexivity.
  - eexists.
    refine (proj1 (compileUserDict_entry_count (userDictWorld "# nothing" 0)
              (userDictKnowledge (userDictWorld "# nothing" 0)) [0] _ _ _ _) _).
    + discriminate.
    + eapply fileCounts_cons; [vm_compute; reflexivity |]. apply fileCounts_nil.
    + reflexivity.
Defined.

(** One entry is converted from the registered file, yet compileUserDict
    returns false, since the external compiler returns 1. *)
Lemma compileUserDict_fails_with_an_entry :
  (exists osst k3,
     convertAll (userDictWorld "abc" 1)
       (userDictNames_ (userDictKnowledge (userDictWorld "abc" 1))) 0 EmptyString
       (stageUserDict (userDictKnowledge (userDictWorld "abc" 1)))
     = Ok (1, osst, k3)) /\
  exists k', compileUserDict (userDictWorld "abc" 1)
               (userDictKnowledge (userDictWorld "abc" 1)) = Ok (false, k').
Proof.
  split.
  - do 2 eexists. vm_compute. reflexivity.
  - eexists. vm_compute. reflexivity.
Qed.

(** ** Decomposition of a user noun *)

Lemma honda_tokens :
  chop_cr hondaLine = hondaLine /\
  str_empty hondaLine || first_char_is ";" hondaLine || first_char_is "#" hondaLine
    = false /\
  extract_word hondaLine = Some (sjis_honda_soichiro, hondaRest " 2,3 ") /\
  extract_word (hondaRest " 2,3 ") = Some ("2,3", hondaRest " ") /\
  extract_word (hondaRest " ") = Some (hondaRest EmptyString, EmptyString) /\
  tokenizeCSV "2,3" = ["2"; "3"] /\
  tokenizeCSV (hondaRest EmptyString) = [sjis_read_honda; sjis_read_soichiro].
Proof. repeat split; vm_compute; reflexivity. Qed.

(** The walk of the word: two code points, then three, and the word is
    exhausted. *)
Lemma honda_decompose :
  decompose JMA_CType_SJIS ["2"; "3"] sjis_honda_soichiro [] =
    Ok (true, true,
        [ {| lexicon_ := sjis_honda; readForm_ := EmptyString |};
          {| lexicon_ := sjis_soichiro; readForm_ := EmptyString |} ],
        EmptyString) /\
  CTypeTokenizer_next JMA_CType_SJIS EmptyString = Ok (None, EmptyString).
Proof. split; vm_compute; reflexivity. Qed.

(** C6.  Under the Shift-JIS classifier the line of "本田総一郎" with the
    decomposition pattern "2,3" and the reading pattern "ホンダ,ソウイチロウ"
    ends a record whose reading-form field is "ホンダソウイチロウ", stores the
    two morphemes "本田"/"ホンダ" and "総一郎"/"ソウイチロウ" under the word in
    decompMap_ and counts one entry, whatever the POS string, the offsets and
    the state before the line; a file that holds this line converts to one
    entry. *)
Theorem convertLine_honda_soichiro (pos : string) (posSize readFormOffset : Z)
    (ost : string) (dm : gmap string MorphemeList) (count : Z) :
  convertLine JMA_CType_SJIS pos posSize readFormOffset hondaLine (ost, dm, count) =
    Ok (((ost +:+ csv_head sjis_honda_soichiro pos posSize readFormOffset)
           +:+ "," +:+ (sjis_read_honda +:+ sjis_read_soichiro))
          +:+ String LF EmptyString,
        <[sjis_honda_soichiro := hondaDecomposition]> dm,
        (count + 1) mod UINT_MODULUS) /\
  exists k',
    convertTxtToCSV (userDictWorld hondaLine 0)
      (userDictKnowledge (userDictWorld hondaLine 0)) "user.txt" EmptyString
    = Ok (1,
          sjis_honda_soichiro +:+ ",-1,-1,-500,N,U,*,*,*,*,*,"
            +:+ sjis_read_honda +:+ sjis_read_soichiro +:+ String LF EmptyString,
          k') /\
    decompMap_ k' !! sjis_honda_soichiro = Some hondaDecomposition.
Proof.
  split.
  - destruct honda_tokens as (H1 & H2 & H3 & H4 & H5 & H6 & H7).
    destruct honda_decompose as (H8 & H9).
    unfold convertLine.
    rewrite H1, H2, H3, H4, H6.
    change (isNumber "2") with true. cbv iota beta.
    rewrite H8. unfold bind at 1. cbv iota beta.
    change (negb true) with false. cbv iota.
    rewrite H9. unfold bind. cbv iota beta.
    rewrite H5, H7.
    reflexivity.
  - eexists. split; vm_compute; reflexivity.
Qed.

(** ** Character counts that do not match the word *)

Section Walk.

Variable ct : JMA_CType.

Lemma walkChars_within (n : nat) :
  forall (raw acc : string) (m : nat),
    codePointsLeft ct raw m -> (n <= m)%nat ->
    exists lex raw',
      walkChars ct n raw acc = Ok (true, lex, raw') /\
      codePointsLeft ct raw' (m - n).
Proof.
  induction n as [| n IH]; intros raw acc m Hleft Hle.
  - exists acc, raw. split; [reflexivity |]. rewrite Nat.sub_0_r. exact Hleft.
  - inversion Hleft as [raw0 Hend | raw0 ch raw1 m' Hnext Hch Hrest]; subst; [lia |].
    simpl. rewrite Hnext. simpl.
    destruct (Z.eqb_spec (uc ch 0) 0) as [| _]; [contradiction |].
    apply IH; [exact Hrest | lia].
Qed.

(** A walk that asks for more characters than the word has left reads
    through the null pointer. *)
Lemma walkChars_past_end (n : nat) :
  forall (raw acc : string) (m : nat),
    codePointsLeft ct raw m -> (m < n)%nat ->
    walkChars ct n raw acc = Fatal null_dereference.
Proof.
  induction n as [| n IH]; intros raw acc m Hleft Hlt; [lia |].
  inversion Hleft as [raw0 Hend | raw0 ch raw1 m' Hnext Hch Hrest]; subst.
  - simpl. rewrite Hend. reflexivity.
  - simpl. rewrite Hnext. simpl.
    destruct (Z.eqb_spec (uc ch 0) 0) as [| _]; [contradiction |].
    eapply IH; [exact Hrest | lia].
Qed.

Lemma decompose_within (compVec : list string) :
  forall (raw : string) (acc : MorphemeList) (m : nat),
    Forall (fun comp => isNumber comp = true) compVec ->
    codePointsLeft ct raw m ->
    (list_sum (patternCounts compVec) <= m)%nat ->
    exists decompList raw',
      decompose ct compVec raw acc = Ok (true, true, decompList, raw') /\
      codePointsLeft ct raw' (m - list_sum (patternCounts compVec)).
Proof.
  induction compVec as [| comp comps IH]; intros raw acc m Hnum Hleft Hle.
  - exists acc, raw. split; [reflexivity |]. simpl. rewrite Nat.sub_0_r. exact Hleft.
  - inversion Hnum as [| ? ? Hc Hcs]; subst. simpl in Hle. simpl.
    rewrite Hc. simpl.
    destruct (walkChars_within (Z.to_nat (convertFromStr_int comp)) raw EmptyString m
                Hleft ltac:(lia)) as (lex & raw1 & Hw & Hleft1).
    rewrite Hw. simpl.
    destruct (IH raw1 (acc ++ [{| lexicon_ := lex; readForm_ := EmptyString |}])
                (m - Z.to_nat (convertFromStr_int comp))%nat Hcs Hleft1 ltac:(lia))
      as (dl & raw2 & Hd & Hleft2).
    exists dl, raw2. split; [exact Hd |].
    replace (m - (Z.to_nat (convertFromStr_int comp) + list_sum (patternCounts comps)))%nat
      with (m - Z.to_nat (convertFromStr_int comp) - list_sum (patternCounts comps))%nat
      by lia.
    exact Hleft2.
Qed.

Lemma decompose_past_end (compVec : list string) :
  forall (raw : string) (acc : MorphemeList) (m : nat),
    Forall (fun comp => isNumber comp = true) compVec ->
    codePointsLeft ct raw m ->
    (m < list_sum (patternCounts compVec))%nat ->
    decompose ct compVec raw acc = Fatal null_dereference.
Proof.
  induction compVec as [| comp comps IH]; intros raw acc m Hnum Hleft Hlt.
  - simpl in Hlt. lia.
  - inversion Hnum as [| ? ? Hc Hcs]; subst. simpl in Hlt. simpl.
    rewrite Hc. simpl.
    destruct (le_lt_dec (Z.to_nat (convertFromStr_int comp)) m) as [Hle | Hgt].
    + destruct (walkChars_within (Z.to_nat (convertFromStr_int comp)) raw EmptyString m
                  Hleft Hle) as (lex & raw1 & Hw & Hleft1).
      rewrite Hw. simpl. eapply IH; [exact Hcs | exact Hleft1 | lia].
    + rewrite (walkChars_past_end _ raw EmptyString m Hleft Hgt). reflexivity.
Qed.

(** C5 (code defect in the second case).  A line whose pattern is all
    numeric, over a word of [n] code points: when the counts sum to fewer than
    [n], the round ends at the [continue] of "unmatched character numbers",
    with the count and decompMap_ as they were; when they sum to more than
    [n], the walk reads through the null pointer that the tokenizer returns
    at the end of the word, and the line is not rejected: the process
    stops. *)
Theorem convertLine_unmatched_counts (pos : string) (posSize readFormOffset : Z)
    (line0 word rest pattern rest2 : string) (n : nat)
    (ost : string) (dm : gmap string MorphemeList) (count : Z) :
  str_empty (chop_cr line0) || first_char_is ";" (chop_cr line0)
    || first_char_is "#" (chop_cr line0) = false ->
  extract_word (chop_cr line0) = Some (word, rest) ->
  extract_word rest = Some (pattern, rest2) ->
  Forall (fun comp => isNumber comp = true) (tokenizeCSV pattern) ->
  codePointsLeft ct word n ->
  ((list_sum (patternCounts (tokenizeCSV pattern)) < n)%nat ->
   convertLine ct pos posSize readFormOffset line0 (ost, dm, count) =
     Ok (ost +:+ csv_head word pos posSize readFormOffset, dm, count)) /\
  ((n < list_sum (patternCounts (tokenizeCSV pattern)))%nat ->
   convertLine ct pos posSize readFormOffset line0 (ost, dm, count) =
     Fatal null_dereference).
Proof.
  intros Hline Hword Hpat Hnum Hleft.
  unfold convertLine. rewrite Hline, Hword, Hpat.
  destruct (tokenizeCSV pattern) as [| comp0 comps] eqn:Hcv.
  { split; [reflexivity | simpl; lia]. }
  assert (Hc0 : isNumber comp0 = true) by (inversion Hnum; assumption).
  rewrite Hc0. split.
  - intros Hlt.
    destruct (decompose_within (comp0 :: comps) word [] n Hnum Hleft ltac:(lia))
      as (dl & raw' & Hd & Hleft').
    rewrite Hd. simpl.
    inversion Hleft' as [raw0 Hend Hraw Hzero | raw0 ch raw1 m' Hnext Hch Hrest Hraw Hm];
      subst; [simpl in *; lia |].
    rewrite Hnext. reflexivity.
  - intros Hgt.
    rewrite (decompose_past_end (comp0 :: comps) word [] n Hnum Hleft Hgt).
    reflexivity.
Qed.

End Walk.

Lemma ab_has_two_code_points : codePointsLeft JMA_CType_SJIS "ab" 2.
Proof.
  apply (codePoints_next JMA_CType_SJIS "ab" "a" "b");
    [reflexivity | vm_compute; discriminate |].
  apply (codePoints_next JMA_CType_SJIS "b" "b" EmptyString);
    [reflexivity | vm_compute; discriminate |].
  apply codePoints_end. reflexivity.
Defined.

Lemma convertLine_unmatched_counts_witness :
  convertLine JMA_CType_SJIS "N,U" 2 7 beforeEndLine (EmptyString, ∅, 0) =
    Ok (EmptyString +:+ csv_head "ab" "N,U" 2 7, ∅, 0) /\
  convertLine JMA_CType_SJIS "N,U" 2 7 pastEndLine (EmptyString, ∅, 0) =
    Fatal null_dereference.
Proof.
  split.
  - refine (proj1 (convertLine_unmatched_counts JMA_CType_SJIS "N,U" 2 7
                     beforeEndLine "ab" " 1" "1" EmptyString 2 EmptyString ∅ 0
                     _ _ _ _ ab_has_two_code_points) _).
    + reflexivity.
    + reflexivity.
    + reflexivity.
    + repeat constructor.
    + vm_compute. lia.
  - refine (proj2 (convertLine_unmatched_counts JMA_CType_SJIS "N,U" 2 7
                     pastEndLine "ab" " 3" "3" EmptyString 2 EmptyString ∅ 0
                     _ _ _ _ ab_has_two_code_points) _).
    + reflexivity.
    + reflexivity.
    + reflexivity.
    + repeat constructor.
    + vm_compute. lia.
Defined.

(** Under the Shift-JIS classifier a character that the tokenizer yields
    never starts with the null byte, so that the branch of the walk that
    clears isValidCharCount is not taken: a walk either succeeds or stops the
    process. *)
Lemma sjis_next_char_not_null (raw ch raw' : string) :
  CTypeTokenizer_next JMA_CType_SJIS raw = Ok (Some ch, raw') -> uc ch 0 <> 0.
Proof.
  unfold CTypeTokenizer_next. simpl. unfold JMA_CType_SJIS_getByteCount.
  destruct raw as [| c raw]; [discriminate |].
  change (uc (String c raw) 0) with (byte_val c).
  destruct (byte_val c =? 0) eqn:H0; [discriminate |].
  apply Z.eqb_neq in H0.
  destruct (byte_val c <? 128).
  - simpl. intros H. injection H as <- _. exact H0.
  - destruct (uc (String c raw) 1 =? 0); [discriminate |].
    simpl. intros H. injection H as <- _.
    destruct raw; exact H0.
Qed.

Lemma sjis_walkChars_valid (n : nat) :
  forall (raw acc lex raw' : string) (valid : bool),
    walkChars JMA_CType_SJIS n raw acc = Ok (valid, lex, raw') -> valid = true.
Proof.
  induction n as [| n IH]; intros raw acc lex raw' valid H; simpl in H.
  - injection H as <- _ _. reflexivity.
  - destruct (CTypeTokenizer_next JMA_CType_SJIS raw) as [[[ch |] raw1] |] eqn:Hn;
      simpl in H; try discriminate.
    apply sjis_next_char_not_null in Hn.
    destruct (Z.eqb_spec (uc ch 0) 0) as [| _]; [contradiction |].
    eapply IH. exact H.
Qed.

(** * Further properties *)

(** ** Separator sets: what a load and an addition make recognisable *)

Lemma byte_val_range (c : ascii) : 0 <= byte_val c < 256.
Proof.
  unfold byte_val. pose proof (N_ascii_bounded c) as H. lia.
Qed.

Lemma isSentenceSeparator_separatorOf (k : JMA_Knowledge) (p : string) :
  isSentenceSeparator k p =
    ('(w, v) <~ separatorOf (ctype_ k) p;; Ok (bool_decide (v ∈ seps_at (seps_ k) w))).
Proof.
  unfold isSentenceSeparator, separatorOf.
  destruct (getByteCount (ctype_ k) p) as [bytes |]; simpl; [| reflexivity].
  repeat (destruct (_ =? _); [reflexivity |]). reflexivity.
Qed.

Lemma separatorLine_separatorOf (ct : JMA_CType) (line : string) (seps : list (gset Z)) :
  str_empty (chop_cr line) || first_char_is "#" (chop_cr line) = false ->
  separatorLine ct line seps =
    ('(w, v) <~ separatorOf ct (chop_cr line);; Ok (seps_insert w v seps)).
Proof.
  intros Hl. unfold separatorLine, separatorOf. rewrite Hl.
  destruct (getByteCount ct (chop_cr line)) as [bytes |]; simpl; [| reflexivity].
  repeat (destruct (_ =? _); [reflexivity |]). reflexivity.
Qed.

Lemma separatorOf_width (ct : JMA_CType) (p : string) (w : nat) (v : Z) :
  separatorOf ct p = Ok (w, v) -> (1 <= w <= 4)%nat.
Proof.
  unfold separatorOf. destruct (getByteCount ct p) as [bytes |]; simpl; [| discriminate].
  repeat (destruct (_ =? _); [intros H; injection H as <- _; lia |]). discriminate.
Qed.

Lemma length_seps_insert (w : nat) (v : Z) (seps : list (gset Z)) :
  length (seps_insert w v seps) = length seps.
Proof. unfold seps_insert. apply length_insert. Qed.

Lemma seps_insert_holds (w : nat) (v : Z) (seps : list (gset Z)) :
  (w < length seps)%nat -> v ∈ seps_at (seps_insert w v seps) w.
Proof.
  intros Hw. unfold seps_insert, seps_at.
  rewrite list_lookup_total_insert_eq by exact Hw. set_solver.
Qed.

Lemma separatorLine_length (ct : JMA_CType) (line : string)
    (seps seps' : list (gset Z)) :
  separatorLine ct line seps = Ok seps' -> length seps' = length seps.
Proof.
  unfold separatorLine.
  destruct (_ || _); [intros H; injection H as <-; reflexivity |].
  destruct (getByteCount ct (chop_cr line)) as [bytes |]; simpl; [| discriminate].
  repeat (destruct (_ =? _);
          [intros H; injection H as <-; apply length_seps_insert |]).
  discriminate.
Qed.

Lemma foldM_separatorLine_holds (ct : JMA_CType) (lines : list string) :
  forall (seps seps' : list (gset Z)) (line : string) (w : nat) (v : Z),
    (4 < length seps)%nat ->
    foldM (separatorLine ct) lines seps = Ok seps' ->
    In line lines ->
    str_empty (chop_cr line) || first_char_is "#" (chop_cr line) = false ->
    separatorOf ct (chop_cr line) = Ok (w, v) ->
    v ∈ seps_at seps' w.
Proof.
  induction lines as [| l ls IH]; intros seps seps' line w v Hlen Hf Hin Hl Hs;
    [contradiction |].
  simpl in Hf.
  destruct (separatorLine ct l seps) as [s1 |] eqn:H1; simpl in Hf; [| discriminate].
  pose proof (separatorLine_length ct l seps s1 H1) as Hlen1.
  destruct Hin as [-> | Hin].
  - eapply foldM_separatorLine_keeps; [exact Hf |].
    rewrite separatorLine_separatorOf, Hs in H1 by exact Hl. simpl in H1.
    injection H1 as <-. apply seps_insert_holds.
    apply separatorOf_width in Hs. lia.
  - apply (IH s1 seps' line w v); [lia | exact Hf | exact Hin | exact Hl | exact Hs].
Qed.

Lemma foldM_separatorLine_defined (ct : JMA_CType) (lines : list string) :
  forall (seps seps' : list (gset Z)) (line : string),
    foldM (separatorLine ct) lines seps = Ok seps' ->
    In line lines ->
    str_empty (chop_cr line) || first_char_is "#" (chop_cr line) = false ->
    exists w v, separatorOf ct (chop_cr line) = Ok (w, v).
Proof.
  induction lines as [| l ls IH]; intros seps seps' line Hf Hin Hl; [contradiction |].
  simpl in Hf.
  destruct (separatorLine ct l seps) as [s1 |] eqn:H1; simpl in Hf; [| discriminate].
  destruct Hin as [-> | Hin]; [| eapply IH; eauto].
  rewrite separatorLine_separatorOf in H1 by exact Hl.
  destruct (separatorOf ct (chop_cr line)) as [[w v] |]; [eauto | discriminate].
Qed.

(** X1: every character of a separator file that loaded is recognised
    afterwards.  [seps_] holds its five sets. *)
Theorem loaded_separator_is_recognised (w : World) (fileName text line : string)
    (k k' : JMA_Knowledge) :
  length (seps_ k) = 5%nat ->
  fs w !! fileName = Some text ->
  loadSentenceSeparatorConfig w fileName k = Ok (1, k') ->
  In line (getlines text) ->
  str_empty (chop_cr line) || first_char_is "#" (chop_cr line) = false ->
  isSentenceSeparator k' (chop_cr line) = Ok true.
Proof.
  intros Hlen Hfs Hload Hin Hl. unfold loadSentenceSeparatorConfig in Hload.
  rewrite Hfs in Hload.
  destruct (foldM _ _ _) as [seps |] eqn:Hf; simpl in Hload; [| discriminate].
  injection Hload as <-.
  destruct (foldM_separatorLine_defined _ _ _ _ _ Hf Hin Hl) as (wd & v & Hs).
  rewrite isSentenceSeparator_separatorOf. simpl. rewrite Hs. simpl.
  f_equal. apply bool_decide_eq_true.
  eapply foldM_separatorLine_holds; eauto. lia.
Qed.

Lemma loaded_separator_is_recognised_witness :
  isSentenceSeparator
    (separatorsAfter separatorWorld "sen-a.config" (sjisKnowledge separatorWorld))
    (chop_cr ".") = Ok true.
Proof.
  apply (loaded_separator_is_recognised separatorWorld "sen-a.config" "." "."
           (sjisKnowledge separatorWorld) _ eq_refl eq_refl eq_refl).
  - left. reflexivity.
  - reflexivity.
Defined.

(** X2: a load never removes a separator. *)
Theorem loadSentenceSeparatorConfig_only_adds (w : World) (fileName : string)
    (k k' : JMA_Knowledge) (r : Z) (p : string) :
  loadSentenceSeparatorConfig w fileName k = Ok (r, k') ->
  isSentenceSeparator k p = Ok true ->
  isSentenceSeparator k' p = Ok true.
Proof.
  intros Hload. rewrite !isSentenceSeparator_separatorOf.
  assert (Hct : ctype_ k' = ctype_ k).
  { unfold loadSentenceSeparatorConfig in Hload.
    destruct (fs w !! fileName).
    - destruct (foldM _ _ _); simpl in Hload; [| discriminate].
      injection Hload as _ <-. reflexivity.
    - injection Hload as _ <-. reflexivity. }
  rewrite Hct.
  destruct (separatorOf (ctype_ k) p) as [[wd v] |]; simpl; [| discriminate].
  intros H. injection H as H. apply bool_decide_eq_true in H.
  f_equal. apply bool_decide_eq_true.
  eapply loadSentenceSeparatorConfig_keeps; eauto.
Qed.

Lemma loadSentenceSeparatorConfig_only_adds_witness :
  isSentenceSeparator
    (separatorsAfter separatorWorld "sen-b.config"
       (separatorsAfter separatorWorld "sen-a.config" (sjisKnowledge separatorWorld)))
    "." = Ok true.
Proof.
  apply (loadSentenceSeparatorConfig_only_adds separatorWorld "sen-b.config"
           (separatorsAfter separatorWorld "sen-a.config" (sjisKnowledge separatorWorld))
           _ 1 ".").
  - reflexivity.
  - reflexivity.
Defined.

(** X3: what getOccupiedBytes answers on every [unsigned int]. *)
Theorem getOccupiedBytes_table (val : Z) :
  0 <= val < 2 ^ 32 ->
  getOccupiedBytes val =
    if val <? 2 ^ 8 then Ok 1
    else if val <? 2 ^ 12 then Ok 2
    else if val <? 2 ^ 16 then Ok 3
    else Fatal assert_occupied_bytes.
Proof. apply getOccupiedBytes_code. Qed.

Lemma getOccupiedBytes_table_witness :
  getOccupiedBytes 300 = Ok 2.
Proof.
  rewrite (getOccupiedBytes_table 300); [reflexivity | lia].
Defined.

Lemma lor_shiftl_byte (a b : Z) :
  0 <= a -> 0 <= b < 256 -> Z.lor (Z.shiftl a 8) b = a * 256 + b.
Proof.
  intros Ha Hb.
  assert (Hland : Z.land (Z.shiftl a 8) b = 0).
  { apply Z.bits_inj'. intros n Hn. rewrite Z.land_spec, Z.bits_0.
    destruct (Z.lt_ge_cases n 8) as [Hlt | Hge].
    - rewrite Z.shiftl_spec_low by exact Hlt. reflexivity.
    - assert (Z.testbit b n = false) as ->; [| apply andb_false_r].
      destruct (Z.eq_dec b 0) as [-> | Hnz]; [apply Z.bits_0 |].
      apply Z.bits_above_log2; [lia |].
      apply Z.log2_lt_pow2; [lia |].
      apply Z.lt_le_trans with (2 ^ 8); [lia |].
      apply Z.pow_le_mono_r; lia. }
  rewrite <- Z.lxor_lor by exact Hland.
  rewrite <- Z.add_nocarry_lxor by exact Hland.
  rewrite Z.shiftl_mul_pow2 by lia. reflexivity.
Qed.

Lemma uc_range (p : string) (i : nat) : 0 <= uc p i < 256.
Proof.
  unfold uc. destruct (String.get i p); [apply byte_val_range | lia].
Qed.

(** X4: under the Shift-JIS classifier an ASCII character that
    addSentenceSeparator takes is recognised afterwards. *)
Theorem addSentenceSeparator_ascii_recognised (k : JMA_Knowledge) (c : ascii) :
  ctype_ k = JMA_CType_SJIS ->
  length (seps_ k) = 5%nat ->
  0 < byte_val c < 128 ->
  exists k',
    addSentenceSeparator (byte_val c) k = Ok k' /\
    isSentenceSeparator k' (String c EmptyString) = Ok true.
Proof.
  intros Hct Hlen Hc. unfold addSentenceSeparator.
  rewrite getOccupiedBytes_code by lia.
  destruct (Z.ltb_spec (byte_val c) (2 ^ 8)) as [_ | Hge]; [| lia].
  simpl. eexists. split; [reflexivity |].
  unfold isSentenceSeparator. simpl. rewrite Hct. simpl.
  unfold JMA_CType_SJIS_getByteCount.
  change (uc (String c EmptyString) 0) with (byte_val c).
  destruct (Z.eqb_spec (byte_val c) 0) as [| _]; [lia |].
  destruct (Z.ltb_spec (byte_val c) 128) as [_ |]; [| lia].
  simpl. f_equal. apply bool_decide_eq_true.
  change (pack1 (String c EmptyString)) with (byte_val c).
  apply seps_insert_holds. lia.
Qed.

Lemma addSentenceSeparator_ascii_recognised_witness :
  exists k',
    addSentenceSeparator (byte_val "?") (sjisKnowledge separatorWorld) = Ok k' /\
    isSentenceSeparator k' "?" = Ok true.
Proof.
  apply (addSentenceSeparator_ascii_recognised (sjisKnowledge separatorWorld) "?"
           eq_refl eq_refl).
  vm_compute. split; reflexivity.
Defined.

(** X5: under the Shift-JIS classifier a two-byte character that
    addSentenceSeparator takes goes to the set of width 3, so that
    isSentenceSeparator does not recognise it unless the set of width 2 held
    it before. *)
Theorem addSentenceSeparator_two_bytes_unrecognised (k : JMA_Knowledge) (p : string) :
  ctype_ k = JMA_CType_SJIS ->
  128 <= uc p 0 -> uc p 1 <> 0 ->
  pack2 p ∉ seps_at (seps_ k) 2 ->
  exists k',
    addSentenceSeparator (pack2 p) k = Ok k' /\
    isSentenceSeparator k' p = Ok false.
Proof.
  intros Hct H0 H1 Hnot.
  pose proof (uc_range p 0) as R0. pose proof (uc_range p 1) as R1.
  assert (Hp : pack2 p = uc p 0 * 256 + uc p 1).
  { unfold pack2. apply lor_shiftl_byte; lia. }
  unfold addSentenceSeparator. rewrite getOccupiedBytes_code by lia.
  destruct (Z.ltb_spec (pack2 p) (2 ^ 8)) as [| _]; [lia |].
  destruct (Z.ltb_spec (pack2 p) (2 ^ 12)) as [| _]; [lia |].
  destruct (Z.ltb_spec (pack2 p) (2 ^ 16)) as [_ |]; [| lia].
  simpl. eexists. split; [reflexivity |].
  unfold isSentenceSeparator. simpl. rewrite Hct. simpl.
  unfold JMA_CType_SJIS_getByteCount.
  destruct (Z.eqb_spec (uc p 0) 0) as [| _]; [lia |].
  destruct (Z.ltb_spec (uc p 0) 128) as [| _]; [lia |].
  destruct (Z.eqb_spec (uc p 1) 0) as [| _]; [contradiction |].
  simpl. f_equal. apply bool_decide_eq_false.
  unfold seps_insert, seps_at.
  rewrite list_lookup_total_insert_ne by lia. exact Hnot.
Qed.

Lemma addSentenceSeparator_two_bytes_unrecognised_witness :
  exists k',
    addSentenceSeparator (pack2 (str_of_bytes [0x81; 0x42]%N))
      (sjisKnowledge separatorWorld) = Ok k' /\
    isSentenceSeparator k' (str_of_bytes [0x81; 0x42]%N) = Ok false.
Proof.
  apply (addSentenceSeparator_two_bytes_unrecognised (sjisKnowledge separatorWorld)
           (str_of_bytes [0x81; 0x42]%N) eq_refl).
  - vm_compute. discriminate.
  - vm_compute. discriminate.
  - vm_compute. set_solver.
Defined.

(** X6: an instance that never loaded or added a separator recognises none,
    whatever its classifier. *)
Theorem fresh_instance_has_no_separator (w : World) (t : EncodeType) (p : string) :
  isSentenceSeparator (setEncodeType w t (JMA_Knowledge_new w)) p = Ok false \/
  exists f, isSentenceSeparator (setEncodeType w t (JMA_Knowledge_new w)) p = Fatal f.
Proof.
  rewrite isSentenceSeparator_separatorOf.
  assert (Hs : seps_ (setEncodeType w t (JMA_Knowledge_new w)) = replicate 5 ∅).
  { unfold setEncodeType. destruct (decide _); reflexivity. }
  rewrite Hs.
  destruct (separatorOf _ p) as [[wd v] | f] eqn:Hsep; simpl; [left | right; eauto].
  apply separatorOf_width in Hsep. f_equal. apply bool_decide_eq_false.
  destruct wd as [| [| [| [| [| wd]]]]]; try lia; intros H; vm_compute in H; set_solver.
Qed.

(** ** The configuration parser: what a line contributes *)

Lemma configLine_skipped (line : string) (m : gmap string string) :
  is_skipped_line line = true -> configLine line m = Some m.
Proof. unfold is_skipped_line, configLine. intros ->. reflexivity. Qed.

Lemma loadConfig0_lines_skip (pre : list string) :
  forall (c : string) (post : list string) (m : gmap string string),
    is_skipped_line c = true ->
    loadConfig0_lines (pre ++ c :: post) m = loadConfig0_lines (pre ++ post) m.
Proof.
  induction pre as [| l pre IH]; intros c post m Hc; simpl.
  - rewrite configLine_skipped by exact Hc. reflexivity.
  - destruct (configLine l m); [apply IH; exact Hc | reflexivity].
Qed.

(** X7: a blank line or a comment line changes nothing, wherever it stands in
    the resource: with it and without it loadConfig0 returns the same answer
    and leaves the same map. *)
Theorem loadConfig0_ignores_comments (d d' : gmap string string)
    (filename text text' c : string) (pre post : list string)
    (m : gmap string string) :
  d !! filename = Some text -> d' !! filename = Some text' ->
  getlines text = pre ++ c :: post ->
  getlines text' = pre ++ post ->
  is_skipped_line c = true ->
  loadConfig0 d filename m = loadConfig0 d' filename m.
Proof.
  intros Hd Hd' Hl Hl' Hc. unfold loadConfig0. rewrite Hd, Hd', Hl, Hl'.
  apply loadConfig0_lines_skip. exact Hc.
Qed.

Lemma loadConfig0_ignores_comments_witness :
  loadConfig0 {[ "dicrc" := "a=1" +:+ String LF "; note" +:+ String LF "b=2" ]} "dicrc" ∅
  = loadConfig0 {[ "dicrc" := "a=1" +:+ String LF "b=2" ]} "dicrc" ∅.
Proof.
  apply (loadConfig0_ignores_comments _ _ "dicrc"
           ("a=1" +:+ String LF "; note" +:+ String LF "b=2")
           ("a=1" +:+ String LF "b=2") "; note" ["a=1"] ["b=2"] ∅);
    reflexivity.
Defined.

Section LineParts.

Lemma chop_cr_app (a b : string) :
  count_char CR a = O -> chop_cr (a +:+ b) = a +:+ chop_cr b.
Proof.
  induction a as [| x a IH]; intros Ha; [reflexivity |].
  change (String x a +:+ b) with (String x (a +:+ b)). simpl in *.
  destruct (Ascii.eqb x CR); [discriminate |].
  rewrite IH by exact Ha. reflexivity.
Qed.

Lemma chop_cr_id (a : string) : count_char CR a = O -> chop_cr a = a.
Proof.
  induction a as [| x a IH]; intros Ha; [reflexivity |]. simpl in *.
  destruct (Ascii.eqb x CR); [discriminate |]. rewrite IH by exact Ha. reflexivity.
Qed.

Lemma str_find_app (c : ascii) (a b : string) :
  str_find c a = None ->
  str_find c (a +:+ String c b) = Some (String.length a).
Proof.
  induction a as [| x a IH]; intros Ha.
  - change (EmptyString +:+ String c b) with (String c b). simpl.
    rewrite Ascii.eqb_refl. reflexivity.
  - change (String x a +:+ String c b) with (String x (a +:+ String c b)).
    simpl in *. destruct (Ascii.eqb x c); [discriminate |].
    destruct (str_find c a); [discriminate |]. rewrite IH by reflexivity. reflexivity.
Qed.

Lemma str_find_app_None (c : ascii) (a b : string) :
  str_find c a = None -> str_find c b = None -> str_find c (a +:+ b) = None.
Proof.
  induction a as [| x a IH]; intros Ha Hb; [exact Hb |].
  change (String x a +:+ b) with (String x (a +:+ b)). simpl in *.
  destruct (Ascii.eqb x c); [discriminate |].
  destruct (str_find c a); [discriminate |]. rewrite IH by auto. reflexivity.
Qed.

Lemma str_take_app (a b : string) : str_take (String.length a) (a +:+ b) = a.
Proof.
  induction a as [| x a IH]; [destruct b; reflexivity |].
  change (String x a +:+ b) with (String x (a +:+ b)). simpl. rewrite IH. reflexivity.
Qed.

Lemma str_drop_S_app (a : string) (c : ascii) (b : string) :
  str_drop (S (String.length a)) (a +:+ String c b) = b.
Proof.
  induction a as [| x a IH]; [reflexivity |].
  change (String x a +:+ String c b) with (String x (a +:+ String c b)). exact IH.
Qed.

Lemma all_blank_no_CR (s : string) : all_blank s = true -> count_char CR s = O.
Proof.
  induction s as [| x s IH]; [reflexivity |]. simpl.
  destruct (isspace x); [| discriminate]. destruct (Ascii.eqb x CR); [discriminate |].
  simpl. exact IH.
Qed.

Lemma all_blank_no_equals (s : string) : all_blank s = true -> str_find "=" s = None.
Proof.
  induction s as [| x s IH]; [reflexivity |]. simpl.
  destruct (Ascii.eqb_spec x "=") as [-> | _]; [discriminate |].
  destruct (isspace x); [| discriminate]. destruct (Ascii.eqb x CR); [discriminate |].
  simpl. intros H. rewrite IH by exact H. reflexivity.
Qed.

Lemma skip_ws_blank (ws s : string) :
  all_blank ws = true -> skip_ws (ws +:+ s) = skip_ws s.
Proof.
  induction ws as [| x ws IH]; [reflexivity |].
  change (String x ws +:+ s) with (String x (ws +:+ s)). simpl.
  destruct (isspace x); [| discriminate]. destruct (Ascii.eqb x CR); [discriminate |].
  simpl. exact IH.
Qed.

Lemma rstrip_ws_blank (ws : string) : all_blank ws = true -> rstrip_ws ws = EmptyString.
Proof.
  induction ws as [| x ws IH]; [reflexivity |]. simpl.
  destruct (isspace x); [| discriminate]. destruct (Ascii.eqb x CR); [discriminate |].
  simpl. intros H. rewrite IH by exact H. reflexivity.
Qed.

Lemma rstrip_ws_app_blank (s ws : string) :
  all_blank ws = true -> rstrip_ws (s +:+ ws) = rstrip_ws s.
Proof.
  intros Hws. induction s as [| x s IH].
  - change (EmptyString +:+ ws) with ws. apply rstrip_ws_blank. exact Hws.
  - change (String x s +:+ ws) with (String x (s +:+ ws)). simpl. rewrite IH.
    reflexivity.
Qed.

Lemma app_assoc_str (a b c : string) : (a +:+ b) +:+ c = a +:+ b +:+ c.
Proof.
  induction a as [| x a IH]; [reflexivity |].
  change ((String x a +:+ b) +:+ c) with (String x ((a +:+ b) +:+ c)).
  rewrite IH. reflexivity.
Qed.

End LineParts.

(** X8: a line [key = value] sets the key to the value: the white space
    around '=' is dropped, the key is what stands before it and the value
    all that follows, further '=' included. *)
Theorem configLine_key_value (key ws1 ws2 value : string) (m : gmap string string) :
  key <> EmptyString ->
  first_char_is ";" key = false -> first_char_is "#" key = false ->
  str_find "=" key = None ->
  count_char CR key = O -> count_char CR value = O ->
  rstrip_ws key = key -> skip_ws value = value ->
  all_blank ws1 = true -> all_blank ws2 = true ->
  configLine (key +:+ ws1 +:+ "=" +:+ ws2 +:+ value) m = Some (<[key := value]> m).
Proof.
  intros Hne Hsemi Hhash Heq Hcrk Hcrv Hrk Hsv Hw1 Hw2.
  unfold configLine.
  assert (Hchop : chop_cr (key +:+ ws1 +:+ "=" +:+ ws2 +:+ value)
                  = key +:+ ws1 +:+ "=" +:+ ws2 +:+ value).
  { apply chop_cr_id. rewrite !count_char_app, Hcrk, Hcrv.
    rewrite !(all_blank_no_CR _ Hw1), !(all_blank_no_CR _ Hw2). reflexivity. }
  rewrite Hchop.
  destruct key as [| k0 key']; [contradiction |].
  change (String k0 key' +:+ ?r) with (String k0 (key' +:+ r)).
  simpl str_empty. simpl first_char_is. simpl in Hsemi, Hhash.
  rewrite Hsemi, Hhash. simpl orb. cbv iota.
  change (String k0 (key' +:+ ws1 +:+ "=" +:+ ws2 +:+ value))
    with (String k0 key' +:+ ws1 +:+ "=" +:+ ws2 +:+ value).
  set (key := String k0 key') in *.
  rewrite <- (app_assoc_str key ws1).
  change ("=" +:+ ws2 +:+ value) with (String "=" (ws2 +:+ value)).
  rewrite str_find_app
    by (apply str_find_app_None; [exact Heq | apply all_blank_no_equals; exact Hw1]).
  rewrite str_drop_S_app, str_take_app.
  rewrite skip_ws_blank by exact Hw2. rewrite Hsv.
  rewrite rstrip_ws_app_blank by exact Hw1. rewrite Hrk. reflexivity.
Qed.

Lemma configLine_key_value_witness :
  configLine ("user-noun-pos" +:+ " " +:+ "=" +:+ "  " +:+ "N-USER") ∅
  = Some (<["user-noun-pos" := "N-USER"]> ∅).
Proof.
  apply (configLine_key_value "user-noun-pos" " " "  " "N-USER" ∅);
    try reflexivity. discriminate.
Defined.

(** ** convertFromStr<int> *)

Lemma read_digits_nonneg (s : string) :
  forall acc : Z, 0 <= acc -> 0 <= (read_digits acc s).1.
Proof.
  induction s as [| c s IH]; intros acc Hacc; simpl; [exact Hacc |].
  unfold is_digit. destruct (Z.leb_spec 48 (byte_val c)); simpl; [| exact Hacc].
  destruct (Z.leb_spec (byte_val c) 57); simpl; [| exact Hacc].
  apply IH. lia.
Qed.

Lemma convertFromStr_int_in_range (str : string) :
  INT_MIN <= convertFromStr_int str <= INT_MAX.
Proof.
  unfold convertFromStr_int, INT_MIN, INT_MAX.
  destruct (match skip_ws str with
            | EmptyString => _ | String c r => _ end) as [neg s1].
  destruct s1 as [| c s1']; [lia |].
  destruct (is_digit c); [| lia].
  destruct (read_digits 0 (String c s1')) as [v rest].
  destruct (Z.leb_spec (-2147483648) (if neg then - v else v)); simpl; [| lia].
  destruct (Z.leb_spec (if neg then - v else v) 2147483647); simpl; [| lia].
  destruct (str_empty (skip_ws rest)); lia.
Qed.

Lemma digit_not_space (c : ascii) : is_digit c = true -> isspace c = false.
Proof.
  unfold is_digit, isspace. intros H. apply andb_true_iff in H as [H1 H2].
  apply Z.leb_le in H1, H2.
  destruct (Z.leb_spec 9 (byte_val c)); [| lia].
  destruct (Z.leb_spec (byte_val c) 13); [lia |].
  destruct (Z.eqb_spec (byte_val c) 32); [lia | reflexivity].
Qed.

Lemma digit_not_sign (c : ascii) :
  is_digit c = true -> Ascii.eqb c "-" = false /\ Ascii.eqb c "+" = false.
Proof.
  intros H. split.
  - destruct (Ascii.eqb_spec c "-") as [-> | _]; [discriminate | reflexivity].
  - destruct (Ascii.eqb_spec c "+") as [-> | _]; [discriminate | reflexivity].
Qed.

Lemma isNumber_first_digit (str : string) :
  isNumber str = true -> exists c s', str = String c s' /\ is_digit c = true.
Proof.
  unfold isNumber. destruct str as [| c s']; [discriminate |]. simpl.
  destruct (Ascii.eqb c NUL); [discriminate |]. simpl.
  intros H. apply andb_true_iff in H as [H _]. apply andb_true_iff in H as [H _].
  eauto.
Qed.

(** X9: convertFromStr<int> always yields an [int], and on a string that
    isNumber accepts it never yields a negative number: a character count is
    never negative. *)
Theorem convertFromStr_int_bounds (str : string) :
  INT_MIN <= convertFromStr_int str <= INT_MAX /\
  (isNumber str = true -> 0 <= convertFromStr_int str).
Proof.
  split; [apply convertFromStr_int_in_range |].
  intros Hn. apply isNumber_first_digit in Hn as (c & s' & -> & Hc).
  unfold convertFromStr_int. simpl skip_ws. rewrite (digit_not_space c Hc).
  destruct (digit_not_sign c Hc) as [-> ->]. rewrite Hc.
  pose proof (read_digits_nonneg (String c s') 0 ltac:(lia)) as Hv.
  destruct (read_digits 0 (String c s')) as [v rest]. simpl in Hv.
  destruct (_ && _); lia.
Qed.

Lemma convertFromStr_int_bounds_witness : 0 <= convertFromStr_int "12".
Proof.
  apply (convertFromStr_int_bounds "12"). reflexivity.
Defined.

Lemma skip_ws_all_blank (ws : string) : all_blank ws = true -> skip_ws ws = EmptyString.
Proof.
  induction ws as [| x ws IH]; [reflexivity |]. simpl.
  destruct (isspace x); [| discriminate]. destruct (Ascii.eqb x CR); [discriminate |].
  simpl. exact IH.
Qed.

Lemma skip_ws_app_blank (s ws : string) :
  all_blank ws = true ->
  skip_ws (s +:+ ws) =
    match skip_ws s with
    | EmptyString => EmptyString
    | t => t +:+ ws
    end.
Proof.
  intros Hws. induction s as [| x s IH].
  - change (EmptyString +:+ ws) with ws. simpl. apply skip_ws_all_blank. exact Hws.
  - change (String x s +:+ ws) with (String x (s +:+ ws)). simpl.
    destruct (isspace x); [exact IH | reflexivity].
Qed.

Lemma blank_first_not_digit (ws : string) :
  all_blank ws = true ->
  match ws with String c _ => is_digit c = false | EmptyString => True end.
Proof.
  destruct ws as [| c ws]; [trivial |]. simpl. intros H.
  destruct (is_digit c) eqn:Hd; [| reflexivity].
  rewrite (digit_not_space c Hd) in H. discriminate.
Qed.

Lemma read_digits_app_blank (s ws : string) :
  all_blank ws = true ->
  forall acc : Z,
    read_digits acc (s +:+ ws) =
      ((read_digits acc s).1, (read_digits acc s).2 +:+ ws).
Proof.
  intros Hws. induction s as [| x s IH]; intros acc.
  - change (EmptyString +:+ ws) with ws. simpl.
    pose proof (blank_first_not_digit ws Hws) as Hb.
    destruct ws as [| c ws']; [reflexivity |]. simpl. rewrite Hb. reflexivity.
  - change (String x s +:+ ws) with (String x (s +:+ ws)). simpl.
    destruct (is_digit x); [apply IH | reflexivity].
Qed.

(** X10: white space before and after the number does not change what
    convertFromStr<int> yields. *)
Theorem convertFromStr_int_ignores_blanks (ws1 str ws2 : string) :
  all_blank ws1 = true -> all_blank ws2 = true ->
  convertFromStr_int (ws1 +:+ str +:+ ws2) = convertFromStr_int str.
Proof.
  intros H1 H2. unfold convertFromStr_int.
  rewrite skip_ws_blank by exact H1.
  rewrite skip_ws_app_blank by exact H2.
  destruct (skip_ws str) as [| c r]; [reflexivity |].
  change (String c r +:+ ws2) with (String c (r +:+ ws2)).
  assert (Hcore : forall (neg : bool) (s1 : string),
    match s1 +:+ ws2 with
    | String c0 _ =>
        if is_digit c0 then
          let '(v, rest) := read_digits 0 (s1 +:+ ws2) in
          let v' := if neg then - v else v in
          if (INT_MIN <=? v') && (v' <=? INT_MAX) && str_empty (skip_ws rest)
          then v' else 0
        else 0
    | EmptyString => 0
    end =
    match s1 with
    | String c0 _ =>
        if is_digit c0 then
          let '(v, rest) := read_digits 0 s1 in
          let v' := if neg then - v else v in
          if (INT_MIN <=? v') && (v' <=? INT_MAX) && str_empty (skip_ws rest)
          then v' else 0
        else 0
    | EmptyString => 0
    end).
  { intros neg s1. destruct s1 as [| c0 s1'].
    - change (EmptyString +:+ ws2) with ws2.
      pose proof (blank_first_not_digit ws2 H2) as Hb.
      destruct ws2 as [| c0 ws2']; [reflexivity |]. rewrite Hb. reflexivity.
    - change (String c0 s1' +:+ ws2) with (String c0 (s1' +:+ ws2)).
      cbv beta iota.
      destruct (is_digit c0); [| reflexivity].
      change (String c0 (s1' +:+ ws2)) with (String c0 s1' +:+ ws2).
      rewrite read_digits_app_blank by exact H2.
      destruct (read_digits 0 (String c0 s1')) as [v rest]. simpl fst. simpl snd.
      cbv beta iota zeta.
      rewrite skip_ws_app_blank by exact H2.
      destruct (skip_ws rest) as [| x t]; [reflexivity |].
      change (String x t +:+ ws2) with (String x (t +:+ ws2)). reflexivity. }
  cbv beta iota.
  destruct (Ascii.eqb c "-").
  - exact (Hcore true r).
  - destruct (Ascii.eqb c "+").
    + exact (Hcore false r).
    + exact (Hcore false (String c r)).
Qed.

Lemma convertFromStr_int_ignores_blanks_witness :
  convertFromStr_int (" " +:+ "7" +:+ "  ") = convertFromStr_int "7".
Proof.
  apply (convertFromStr_int_ignores_blanks " " "7" "  "); reflexivity.
Defined.

(** ** The entries loadConfig0 leaves *)

Lemma rstrip_ws_idem (s : string) : rstrip_ws (rstrip_ws s) = rstrip_ws s.
Proof.
  induction s as [| c s IH]; [reflexivity |]. simpl.
  destruct (rstrip_ws s) as [| x r] eqn:Hr.
  - destruct (isspace c) eqn:Hc; [reflexivity |]. simpl. rewrite Hc. reflexivity.
  - change (rstrip_ws (String c (String x r)))
      with (match rstrip_ws (String x r) with
            | EmptyString => if isspace c then EmptyString else String c EmptyString
            | r' => String c r'
            end).
    rewrite IH. reflexivity.
Qed.

Lemma skip_ws_idem (s : string) : skip_ws (skip_ws s) = skip_ws s.
Proof.
  induction s as [| c s IH]; [reflexivity |]. simpl.
  destruct (isspace c) eqn:Hc; [exact IH |]. simpl. rewrite Hc. reflexivity.
Qed.

Lemma count_char_rstrip_ws (c : ascii) (s : string) :
  (count_char c (rstrip_ws s) <= count_char c s)%nat.
Proof.
  induction s as [| x s IH]; simpl; [lia |].
  destruct (rstrip_ws s) as [| y r]; simpl in *.
  - destruct (isspace x); simpl; lia.
  - lia.
Qed.

Lemma count_char_str_take (c : ascii) (n : nat) :
  forall s : string, (count_char c (str_take n s) <= count_char c s)%nat.
Proof.
  induction n as [| n IH]; intros [| x s]; simpl; try lia.
  specialize (IH s). lia.
Qed.

Lemma count_char_str_drop (c : ascii) (n : nat) :
  forall s : string, (count_char c (str_drop n s) <= count_char c s)%nat.
Proof.
  induction n as [| n IH]; intros [| x s]; simpl; try lia.
  specialize (IH s). lia.
Qed.

Lemma count_char_CR_chop_cr (s : string) : count_char CR (chop_cr s) = O.
Proof.
  induction s as [| x s IH]; [reflexivity |]. simpl.
  destruct (Ascii.eqb x CR) eqn:Hx; [reflexivity |]. simpl. rewrite Hx. exact IH.
Qed.

Lemma str_find_take (c : ascii) (s : string) :
  forall pos : nat, str_find c s = Some pos -> count_char c (str_take pos s) = O.
Proof.
  induction s as [| x s IH]; intros pos H; [discriminate |]. simpl in H.
  destruct (Ascii.eqb x c) eqn:Hx.
  - injection H as <-. reflexivity.
  - destruct (str_find c s) as [r |]; [| discriminate]. injection H as <-.
    simpl. rewrite Hx. apply IH. reflexivity.
Qed.

Lemma configLine_trimmed (line : string) (m m' : gmap string string) :
  (forall key value, m !! key = Some value -> trimmed_entry key value) ->
  configLine line m = Some m' ->
  forall key value, m' !! key = Some value -> trimmed_entry key value.
Proof.
  intros Hm. unfold configLine.
  destruct (_ || _); [intros H; injection H as <-; exact Hm |].
  destruct (str_find "=" (chop_cr line)) as [pos |] eqn:Hpos; [| discriminate].
  intros H; injection H as <-. intros key value Hl.
  apply lookup_insert_Some in Hl as [(<- & <-) | (_ & Hl)]; [| eapply Hm; exact Hl].
  pose proof (count_char_CR_chop_cr line) as Hcr.
  pose proof (str_find_take "=" _ _ Hpos) as Heq.
  pose proof (count_char_rstrip_ws "=" (str_take pos (chop_cr line))).
  pose proof (count_char_rstrip_ws CR (str_take pos (chop_cr line))).
  pose proof (count_char_str_take CR pos (chop_cr line)).
  pose proof (count_char_skip_ws CR (str_drop (S pos) (chop_cr line))).
  pose proof (count_char_str_drop CR (S pos) (chop_cr line)).
  assert (Hv : count_char CR (skip_ws (str_drop (S pos) (chop_cr line))) = O) by lia.
  repeat split; [apply rstrip_ws_idem | apply skip_ws_idem | lia | lia | exact Hv].
Qed.

Lemma loadConfig0_lines_trimmed (lines : list string) :
  forall m : gmap string string,
    (forall key value, m !! key = Some value -> trimmed_entry key value) ->
    forall key value,
      (loadConfig0_lines lines m).2 !! key = Some value -> trimmed_entry key value.
Proof.
  induction lines as [| l ls IH]; intros m Hm; simpl; [exact Hm |].
  destruct (configLine l m) as [m' |] eqn:Hc; [| exact Hm].
  apply IH. eapply configLine_trimmed; eauto.
Qed.

(** X11: whatever the resource holds and whether the parse fails or not, a key
    that loadConfig0 stored ends with no white space and holds no '=', its
    value starts with no white space, and none holds a carriage return. *)
Theorem loadConfig0_entries_trimmed (d : gmap string string) (filename : string)
    (key value : string) :
  (loadConfig0 d filename ∅).2 !! key = Some value ->
  rstrip_ws key = key /\ skip_ws value = value /\
  count_char "=" key = O /\ count_char CR key = O /\ count_char CR value = O.
Proof.
  unfold loadConfig0. destruct (d !! filename) as [text |].
  - apply loadConfig0_lines_trimmed. intros k v Hl. rewrite lookup_empty in Hl.
    discriminate.
  - simpl. intros Hl. rewrite lookup_empty in Hl. discriminate.
Qed.

Lemma loadConfig0_entries_trimmed_witness :
  rstrip_ws "base-form-feature-offset" = "base-form-feature-offset" /\
  skip_ws "3" = "3" /\
  count_char "=" "base-form-feature-offset" = O /\
  count_char CR "base-form-feature-offset" = O /\ count_char CR "3" = O.
Proof.
  apply (loadConfig0_entries_trimmed malformedArchive "dicrc").
  vm_compute. reflexivity.
Defined.

(** ** The settings loadDictConfig leaves *)

(** X12: after loadDictConfig the config charset is one of the two encodings,
    never the end marker of the enumeration, and the three offsets are
    [int]s, whatever dicrc holds. *)
Theorem loadDictConfig_settings_valid (w : World) (k : JMA_Knowledge) :
  (configEncodeType_ (loadDictConfig w k) = ENCODE_TYPE_EUCJP \/
   configEncodeType_ (loadDictConfig w k) = ENCODE_TYPE_SJIS) /\
  INT_MIN <= baseFormOffset_ (loadDictConfig w k) <= INT_MAX /\
  INT_MIN <= readFormOffset_ (loadDictConfig w k) <= INT_MAX /\
  INT_MIN <= normFormOffset_ (loadDictConfig w k) <= INT_MAX.
Proof.
  unfold loadDictConfig. destruct (loadConfig0 _ _ _) as [ok cfg].
  unfold applyDictConfig. simpl.
  split; [| split; [| split]].
  - destruct (decide _) as [He | Hne]; [left; reflexivity |].
    destruct (match cfg !! _ with Some _ => _ | None => _ end);
      [left | right | contradiction]; reflexivity.
  - destruct (cfg !! _); [apply convertFromStr_int_in_range | vm_compute; split; discriminate].
  - destruct (cfg !! _); [apply convertFromStr_int_in_range | vm_compute; split; discriminate].
  - destruct (cfg !! _); [apply convertFromStr_int_in_range | vm_compute; split; discriminate].
Qed.

(** ** tokenizeCSV: the components and the string *)

Lemma split_pieces_nil (d : ascii) (s : string) :
  split_pieces d s = [] <-> s = EmptyString.
Proof.
  split; [| intros ->; reflexivity].
  destruct s as [| c s]; [reflexivity |]. simpl.
  destruct (Ascii.eqb c d); [discriminate |].
  destruct (split_pieces d s); discriminate.
Qed.

Lemma last_char_is_cons (d c : ascii) (s : string) :
  s <> EmptyString -> last_char_is d (String c s) = last_char_is d s.
Proof. destruct s; [contradiction | reflexivity]. Qed.

Lemma split_pieces_join (d : ascii) (s : string) :
  s = str_join d (split_pieces d s)
        +:+ (if last_char_is d s then String d EmptyString else EmptyString).
Proof.
  induction s as [| c s IH]; [reflexivity |].
  destruct (split_pieces d s) as [| t ts] eqn:Hs.
  - apply split_pieces_nil in Hs. subst s. simpl.
    destruct (Ascii.eqb_spec c d) as [-> | Hne]; reflexivity.
  - assert (Hne : s <> EmptyString) by (intros ->; discriminate).
    rewrite last_char_is_cons by exact Hne.
    simpl split_pieces. rewrite Hs.
    destruct (Ascii.eqb_spec c d) as [-> | Hcd].
    + change (str_join d (EmptyString :: t :: ts))
        with (String d (str_join d (t :: ts))).
      change (String d (str_join d (t :: ts)) +:+ ?r)
        with (String d (str_join d (t :: ts) +:+ r)).
      f_equal. exact IH.
    + assert (Hj : str_join d (String c t :: ts) = String c (str_join d (t :: ts)))
        by (destruct ts; reflexivity).
      rewrite Hj.
      change (String c (str_join d (t :: ts)) +:+ ?r)
        with (String c (str_join d (t :: ts) +:+ r)).
      f_equal. exact IH.
Qed.

Lemma split_pieces_length (d : ascii) (s : string) :
  length (split_pieces d s) =
    (count_char d s + (if str_empty s || last_char_is d s then 0 else 1))%nat.
Proof.
  induction s as [| c s IH]; [reflexivity |].
  destruct (split_pieces d s) as [| t ts] eqn:Hs.
  - apply split_pieces_nil in Hs. subst s. simpl.
    destruct (Ascii.eqb c d); reflexivity.
  - assert (Hne : s <> EmptyString) by (intros ->; discriminate).
    rewrite last_char_is_cons by exact Hne.
    change (str_empty (String c s)) with false. simpl orb.
    simpl split_pieces. rewrite Hs. simpl count_char.
    destruct s as [| c' s']; [contradiction |].
    change (str_empty (String c' s') || last_char_is d (String c' s'))
      with (last_char_is d (String c' s')) in IH.
    destruct (last_char_is d (String c' s'));
      destruct (Ascii.eqb c d); cbn [length] in *; lia.
Qed.

(** X13: no component holds a comma, and the components joined by commas
    are the string again, but for its last comma when it ends with one; there
    is no component exactly when the string is empty. *)
Theorem tokenizeCSV_round_trip (str : string) :
  Forall (fun comp => count_char "," comp = O) (tokenizeCSV str) /\
  str = str_join "," (tokenizeCSV str)
          +:+ (if last_char_is "," str then "," else EmptyString) /\
  bool_decide (tokenizeCSV str = []) = str_empty str.
Proof.
  split; [apply split_pieces_no_delimiter |].
  split; [apply split_pieces_join |].
  destruct str as [| c str]; [reflexivity |].
  apply bool_decide_eq_false. intros H. apply split_pieces_nil in H. discriminate H.
Qed.

Lemma tokenizeCSV_count_aux (str : string) :
  length (tokenizeCSV str) =
    (count_char "," str
     + (if str_empty str || last_char_is "," str then 0 else 1))%nat.
Proof. apply split_pieces_length. Qed.

(** X14: the number of components is the number of commas and one more,
    unless the string is empty or ends with a comma: a last comma opens no
    component. *)
Theorem tokenizeCSV_count (str : string) :
  length (tokenizeCSV str) =
    (count_char "," str
     + (if str_empty str || last_char_is "," str then 0 else 1))%nat.
Proof. apply split_pieces_length. Qed.

(** ** User dictionary lines without a decomposition *)

Lemma CR_is_space : isspace CR = true.
Proof. reflexivity. Qed.

Lemma no_space_no_CR (s : string) : no_space s = true -> count_char CR s = O.
Proof.
  induction s as [| c s IH]; [reflexivity |]. simpl.
  destruct (Ascii.eqb_spec c CR) as [-> | _]; [discriminate |].
  destruct (isspace c); [discriminate |]. exact IH.
Qed.

Lemma read_token_word (word rest : string) :
  no_space word = true -> starts_blank rest = true ->
  read_token (word +:+ rest) = (word, rest).
Proof.
  intros Hw Hr. induction word as [| c word IH].
  - change (EmptyString +:+ rest) with rest. destruct rest as [| x rest]; [reflexivity |].
    simpl in *. rewrite Hr. reflexivity.
  - change (String c word +:+ rest) with (String c (word +:+ rest)). simpl in *.
    destruct (isspace c); [discriminate |]. rewrite IH by exact Hw. reflexivity.
Qed.

Lemma extract_word_word (word rest : string) :
  word <> EmptyString -> no_space word = true -> starts_blank rest = true ->
  extract_word (word +:+ rest) = Some (word, rest).
Proof.
  intros Hne Hw Hr. unfold extract_word.
  destruct word as [| c word]; [contradiction |].
  change (String c word +:+ rest) with (String c (word +:+ rest)).
  assert (Hc : isspace c = false) by (simpl in Hw; destruct (isspace c); [discriminate | reflexivity]).
  simpl skip_ws. rewrite Hc.
  change (String c (word +:+ rest)) with (String c word +:+ rest).
  rewrite read_token_word by assumption. reflexivity.
Qed.

Lemma extract_word_blank_word (ws word rest : string) :
  all_blank ws = true ->
  word <> EmptyString -> no_space word = true -> starts_blank rest = true ->
  extract_word (ws +:+ word +:+ rest) = Some (word, rest).
Proof.
  intros Hws Hne Hw Hr.
  pose proof (extract_word_word word rest Hne Hw Hr) as H.
  unfold extract_word in *. rewrite skip_ws_blank by exact Hws. exact H.
Qed.

Lemma extract_word_blank (ws : string) : all_blank ws = true -> extract_word ws = None.
Proof.
  intros Hws. unfold extract_word. rewrite skip_ws_all_blank by exact Hws. reflexivity.
Qed.

Lemma all_blank_starts_blank (ws : string) : all_blank ws = true -> starts_blank ws = true.
Proof.
  destruct ws as [| c ws]; [reflexivity |]. simpl.
  destruct (isspace c); [reflexivity | discriminate].
Qed.

Lemma word_line_not_skipped (word rest : string) :
  word <> EmptyString ->
  first_char_is ";" word = false -> first_char_is "#" word = false ->
  str_empty (word +:+ rest) || first_char_is ";" (word +:+ rest)
    || first_char_is "#" (word +:+ rest) = false.
Proof.
  intros Hne H1 H2. destruct word as [| c word]; [contradiction |].
  change (String c word +:+ rest) with (String c (word +:+ rest)).
  simpl in *. rewrite H1, H2. reflexivity.
Qed.

(** X15: a line that holds a word alone ends one record, whose reading
    form is "*", counts it and leaves decompMap_ as it was, whatever the
    classifier. *)
Theorem convertLine_plain_word (ct : JMA_CType) (pos : string)
    (posSize readFormOffset : Z) (word ws : string)
    (ost : string) (dm : gmap string MorphemeList) (count : Z) :
  word <> EmptyString -> no_space word = true ->
  first_char_is ";" word = false -> first_char_is "#" word = false ->
  all_blank ws = true ->
  convertLine ct pos posSize readFormOffset (word +:+ ws) (ost, dm, count) =
    Ok (((ost +:+ csv_head word pos posSize readFormOffset) +:+ ",*")
          +:+ String LF EmptyString,
        dm, (count + 1) mod UINT_MODULUS).
Proof.
  intros Hne Hw H1 H2 Hws. unfold convertLine.
  rewrite chop_cr_id
    by (rewrite count_char_app, (no_space_no_CR _ Hw), (all_blank_no_CR _ Hws); reflexivity).
  rewrite word_line_not_skipped by assumption.
  rewrite extract_word_word
    by (try assumption; apply all_blank_starts_blank; exact Hws).
  rewrite extract_word_blank by exact Hws. reflexivity.
Qed.

Lemma convertLine_plain_word_witness :
  convertLine JMA_CType_SJIS "N,U" 2 7 ("abc" +:+ " ") (EmptyString, ∅, 0) =
    Ok (((EmptyString +:+ csv_head "abc" "N,U" 2 7) +:+ ",*") +:+ String LF EmptyString,
        ∅, (0 + 1) mod UINT_MODULUS).
Proof.
  apply (convertLine_plain_word JMA_CType_SJIS "N,U" 2 7 "abc" " " EmptyString ∅ 0);
    try reflexivity. discriminate.
Defined.

(** X16: when the second token of a line does not start with a number, it
    is the reading: the record ends with its components put together, the
    commas between them dropped; what follows it on the line is not read and
    decompMap_ is left as it was. *)
Theorem convertLine_word_and_reading (ct : JMA_CType) (pos : string)
    (posSize readFormOffset : Z) (word ws reading rest : string)
    (ost : string) (dm : gmap string MorphemeList) (count : Z) :
  word <> EmptyString -> no_space word = true ->
  first_char_is ";" word = false -> first_char_is "#" word = false ->
  ws <> EmptyString -> all_blank ws = true ->
  reading <> EmptyString -> no_space reading = true ->
  isNumber (hd EmptyString (tokenizeCSV reading)) = false ->
  starts_blank rest = true -> count_char CR rest = O ->
  convertLine ct pos posSize readFormOffset (word +:+ ws +:+ reading +:+ rest)
    (ost, dm, count) =
    Ok (((ost +:+ csv_head word pos posSize readFormOffset)
           +:+ "," +:+ str_concat (tokenizeCSV reading))
          +:+ String LF EmptyString,
        dm, (count + 1) mod UINT_MODULUS).
Proof.
  intros Hne Hw H1 H2 Hwsne Hws Hrne Hr Hnum Hrest Hcr. unfold convertLine.
  rewrite chop_cr_id
    by (rewrite !count_char_app, (no_space_no_CR _ Hw), (all_blank_no_CR _ Hws),
          (no_space_no_CR _ Hr), Hcr; reflexivity).
  rewrite word_line_not_skipped by assumption.
  assert (Hsb : starts_blank (ws +:+ reading +:+ rest) = true).
  { destruct ws as [| c ws']; [contradiction |]. simpl in *.
    destruct (isspace c); [reflexivity | discriminate]. }
  rewrite extract_word_word by assumption.
  rewrite extract_word_blank_word by assumption.
  destruct (tokenizeCSV reading) as [| comp0 comps] eqn:Ht.
  { apply split_pieces_nil in Ht. contradiction. }
  simpl in Hnum. rewrite Hnum. reflexivity.
Qed.

Lemma convertLine_word_and_reading_witness :
  convertLine JMA_CType_SJIS "N,U" 2 7 ("abc" +:+ " " +:+ "x,y" +:+ EmptyString)
    (EmptyString, ∅, 0) =
    Ok (((EmptyString +:+ csv_head "abc" "N,U" 2 7) +:+ "," +:+ str_concat (tokenizeCSV "x,y"))
          +:+ String LF EmptyString,
        ∅, (0 + 1) mod UINT_MODULUS).
Proof.
  apply (convertLine_word_and_reading JMA_CType_SJIS "N,U" 2 7 "abc" " " "x,y" EmptyString
           EmptyString ∅ 0); try reflexivity; discriminate.
Defined.

(** ** The position of the reading form in a record *)

Lemma count_char_repeat_n (c : ascii) (n : nat) (s : string) :
  count_char c (str_concat (replicate n s)) = (n * count_char c s)%nat.
Proof.
  induction n as [| n IH]; [reflexivity |].
  change (str_concat (replicate (S n) s)) with (s +:+ str_concat (replicate n s)).
  rewrite count_char_app, IH. lia.
Qed.

(** X17: when the word holds no comma and the POS string has no more
    components than the reading form offset, the head of a record holds
    [3 + readFormOffset] commas if the POS string is not empty and ends with
    no comma: the reading form, which the next comma opens, is the feature of
    that offset, the features starting after the word and its three numbers.
    If the POS string ends with a comma, or is empty, the head holds one
    comma more. *)
Theorem csv_head_reading_offset (word pos : string) (readFormOffset : Z) :
  count_char "," word = O ->
  Z.of_nat (length (tokenizeCSV pos)) <= readFormOffset ->
  Z.of_nat (count_char ","
              (csv_head word pos (Z.of_nat (length (tokenizeCSV pos))) readFormOffset))
    = 3 + readFormOffset
      + (if str_empty pos || last_char_is "," pos then 1 else 0).
Proof.
  intros Hw Hle. unfold csv_head.
  rewrite !count_char_app, Hw, count_char_repeat_n.
  pose proof (tokenizeCSV_count_aux pos) as Hlen.
  change (count_char "," ",-1,-1,") with 3%nat.
  change (count_char "," USER_NOUN_COST_text) with 0%nat.
  change (count_char "," ",") with 1%nat.
  change (count_char "," ",*") with 1%nat.
  destruct (str_empty pos || last_char_is "," pos); lia.
Qed.

Lemma csv_head_reading_offset_witness :
  Z.of_nat (count_char "," (csv_head "abc" "N,U" (Z.of_nat (length (tokenizeCSV "N,U"))) 7))
    = 3 + 7 + (if str_empty "N,U" || last_char_is "," "N,U" then 1 else 0).
Proof.
  apply (csv_head_reading_offset "abc" "N,U" 7).
  - reflexivity.
  - vm_compute. discriminate.
Defined.

(** ** Where the entries of decompMap_ come from *)

Lemma setReadForms_lexicons (dl : MorphemeList) :
  forall compVec : list string,
    map lexicon_ (setReadForms dl compVec) = map lexicon_ dl.
Proof.
  induction dl as [| m dl IH]; intros [| r rs]; simpl; try reflexivity.
  rewrite IH. reflexivity.
Qed.

(** A round of the conversion loop leaves decompMap_ as it was or sets the
    entry of the word of its line, from a walk that reached the end of the
    word. *)
Lemma convertLine_entry (ct : JMA_CType) (pos : string) (posSize readFormOffset : Z)
    (line ost ost' : string) (dm dm' : gmap string MorphemeList) (count count' : Z) :
  convertLine ct pos posSize readFormOffset line (ost, dm, count)
    = Ok (ost', dm', count') ->
  dm' = dm \/
  exists word rest pattern rest2 dl raw raw' ms,
    extract_word (chop_cr line) = Some (word, rest) /\
    extract_word rest = Some (pattern, rest2) /\
    decompose ct (tokenizeCSV pattern) word [] = Ok (true, true, dl, raw) /\
    CTypeTokenizer_next ct raw = Ok (None, raw') /\
    map lexicon_ ms = map lexicon_ dl /\
    dm' = <[word := ms]> dm.
Proof.
  unfold convertLine.
  destruct (_ || _); [intros H; injection H as _ <- _; left; reflexivity |].
  destruct (extract_word (chop_cr line)) as [[word rest] |] eqn:Hw;
    [| intros H; injection H as _ <- _; left; reflexivity].
  destruct (extract_word rest) as [[pattern rest2] |] eqn:Hp;
    [| intros H; injection H as _ <- _; left; reflexivity].
  destruct (tokenizeCSV pattern) as [| comp0 comps] eqn:Hcv;
    [intros H; injection H as _ <- _; left; reflexivity |].
  destruct (isNumber comp0);
    [| intros H; injection H as _ <- _; left; reflexivity].
  destruct (decompose ct (comp0 :: comps) word [])
    as [[[[isAllNumber isValidCharCount] dl] raw] |] eqn:Hd; simpl; [| discriminate].
  destruct isAllNumber; simpl;
    [| intros H; injection H as _ <- _; left; reflexivity].
  destruct isValidCharCount; simpl;
    [| intros H; injection H as _ <- _; left; reflexivity].
  destruct (CTypeTokenizer_next ct raw) as [[p raw'] |] eqn:Hn; simpl; [| discriminate].
  destruct p; [intros H; injection H as _ <- _; left; reflexivity |].
  destruct (extract_word rest2) as [[pattern2 rest3] |].
  - destruct (bool_decide _); [intros H; injection H as _ <- _; left; reflexivity |].
    destruct (negb _); [intros H; injection H as _ <- _; left; reflexivity |].
    intros H; injection H as _ <- _. right.
    exists word, rest, pattern, rest2, dl, raw, raw', (setReadForms dl (tokenizeCSV pattern2)).
    rewrite Hcv. repeat split; try assumption; try reflexivity.
    apply setReadForms_lexicons.
  - intros H; injection H as _ <- _. right.
    exists word, rest, pattern, rest2, dl, raw, raw', dl.
    rewrite Hcv. repeat split; try assumption; reflexivity.
Qed.

(** After the lines of a file every entry is one the map held before or one
    of a line of the file. *)
Lemma convertLines_entries (ct : JMA_CType) (pos : string) (posSize readFormOffset : Z)
    (text : string) (dm0 : gmap string MorphemeList) (lines : list string) :
  (forall l, In l lines -> In l (getlines text)) ->
  forall (st st' : ConvState),
    (forall key ms, st.1.2 !! key = Some ms ->
                    dm0 !! key = Some ms \/ decomposedBy ct text key ms) ->
    foldM (convertLine ct pos posSize readFormOffset) lines st = Ok st' ->
    forall key ms, st'.1.2 !! key = Some ms ->
                   dm0 !! key = Some ms \/ decomposedBy ct text key ms.
Proof.
  intros Hsub st st' Hst Hf.
  apply (foldM_inv
           (fun s : ConvState => forall key ms, s.1.2 !! key = Some ms ->
              dm0 !! key = Some ms \/ decomposedBy ct text key ms)
           (convertLine ct pos posSize readFormOffset) lines) with (s := st);
    [| exact Hst | exact Hf].
  intros line [[o dm] c] [[o' dm'] c'] Hin Hs Hl key ms Hk. simpl in *.
  apply convertLine_entry in Hl
    as [-> | (word & rest & pattern & rest2 & dl & raw & raw' & ms' & Hw & Hp & Hd & Hn & Hlex & ->)].
  - apply Hs. exact Hk.
  - apply lookup_insert_Some in Hk as [(<- & <-) | (_ & Hk)]; [| apply Hs; exact Hk].
    right. exists line, rest, pattern, rest2, dl, raw, raw'.
    repeat split; try assumption. apply Hsub. exact Hin.
Qed.

Lemma convertTxtToCSV_entries (w : World) (k k' : JMA_Knowledge)
    (f ost ost' : string) (c : Z) (key : string) (ms : MorphemeList) :
  convertTxtToCSV w k f ost = Ok (c, ost', k') ->
  decompMap_ k' !! key = Some ms ->
  decompMap_ k !! key = Some ms \/
  exists text, fs w !! f = Some text /\ decomposedBy (ctype_ k) text key ms.
Proof.
  unfold convertTxtToCSV.
  destruct (_ =? -1); [intros H; injection H as _ _ <-; auto |].
  destruct (getPOS _ _ _) as [pos |]; [| intros H; injection H as _ _ <-; auto].
  destruct (negb _); [discriminate |].
  destruct (fs w !! f) as [text |]; [| intros H; injection H as _ _ <-; auto].
  destruct (foldM _ _ _) as [[[o dm] n] |] eqn:Hf; simpl; [| discriminate].
  intros H; injection H as _ _ <-. simpl. intros Hk.
  assert (Hst : forall key ms,
             (ost, decompMap_ k, 0).1.2 !! key = Some ms ->
             decompMap_ k !! key = Some ms \/ decomposedBy (ctype_ k) text key ms)
    by (intros key0 ms0 H0; left; exact H0).
  destruct (convertLines_entries _ _ _ _ text (decompMap_ k) (getlines text)
              (fun l H => H) _ _ Hst Hf key ms Hk)
    as [Hold | Hnew]; [left; exact Hold | right; eauto].
Qed.

Lemma convertAll_entries (w : World) (names : list string) :
  forall (k k' : JMA_Knowledge) (n n' : Z) (osst osst' : string)
         (key : string) (ms : MorphemeList),
    convertAll w names n osst k = Ok (n', osst', k') ->
    decompMap_ k' !! key = Some ms ->
    decompMap_ k !! key = Some ms \/ decomposedIn w (ctype_ k) names key ms.
Proof.
  induction names as [| name names IH]; intros k k' n n' osst osst' key ms H Hk;
    simpl in H.
  - injection H as _ _ <-. left. exact Hk.
  - destruct (convertTxtToCSV w k (c_str name) osst) as [[[c o] k1] |] eqn:Hc;
      simpl in H; [| discriminate].
    pose proof (convertTxtToCSV_knowledge _ _ _ _ _ _ _ Hc) as [dm1 Hk1].
    assert (Hct : ctype_ k1 = ctype_ k) by (rewrite Hk1; reflexivity).
    destruct (IH _ _ _ _ _ _ key ms H Hk) as [Hold | (nm & text & Hin & Hfs & Hby)].
    + destruct (convertTxtToCSV_entries _ _ _ _ _ _ _ key ms Hc Hold)
        as [Hold' | (text & Hfs & Hby)]; [left; exact Hold' |].
      right. exists name, text. split; [left; reflexivity |]. split; assumption.
    + right. exists nm, text. split; [right; exact Hin |].
      split; [exact Hfs |]. rewrite <- Hct. exact Hby.
Qed.

(** After compileUserDict every entry of decompMap_ comes from a line of a
    registered file. *)
Lemma compileUserDict_entries (w : World) (k k' : JMA_Knowledge) (b : bool)
    (key : string) (ms : MorphemeList) :
  userDictNames_ k <> [] ->
  compileUserDict w k = Ok (b, k') ->
  decompMap_ k' !! key = Some ms ->
  decomposedIn w (ctype_ k) (userDictNames_ k) key ms.
Proof.
  unfold compileUserDict. intros Hne.
  destruct (userDictNames_ k) as [| n ns] eqn:Hn; [contradiction |].
  change (userDictNames_ (stageUserDict k)) with (userDictNames_ k). rewrite Hn.
  destruct (convertAll _ _ _ _ _) as [[[c o] k3] |] eqn:Hc; simpl; [| discriminate].
  assert (Hent : forall key ms, decompMap_ k3 !! key = Some ms ->
                 decomposedIn w (ctype_ k) (n :: ns) key ms).
  { intros key0 ms0 Hk. destruct (convertAll_entries _ _ _ _ _ _ _ _ key0 ms0 Hc Hk)
      as [Hold | Hnew]; [| exact Hnew].
    simpl in Hold. rewrite lookup_empty in Hold. discriminate. }
  destruct (c =? 0); [intros H; injection H as _ <-; apply Hent |].
  destruct (JMA_Dictionary_copyStrToDict _ _ _ _) as [d |];
    [| intros H; injection H as _ <-; apply Hent].
  destruct (mecab_dict_index _ _ _) as [st d'].
  intros H; injection H as _ <-. simpl. apply Hent.
Qed.

(** X18: after compileUserDict every key of decompMap_ is the first word of
    a line of one of the registered files: an entry of an earlier compilation
    does not survive unless a line sets it again. *)
Theorem compileUserDict_keys_are_file_words (w : World) (k k' : JMA_Knowledge)
    (b : bool) (key : string) (ms : MorphemeList) :
  userDictNames_ k <> [] ->
  compileUserDict w k = Ok (b, k') ->
  decompMap_ k' !! key = Some ms ->
  exists name text line rest,
    In name (userDictNames_ k) /\ fs w !! c_str name = Some text /\
    In line (getlines text) /\ extract_word (chop_cr line) = Some (key, rest).
Proof.
  intros Hne Hc Hk.
  destruct (compileUserDict_entries w k k' b key ms Hne Hc Hk)
    as (name & text & Hin & Hfs & line & rest & pattern & rest2 & dl & raw & raw'
        & Hl & Hw & _).
  exists name, text, line, rest. repeat split; assumption.
Qed.

Lemma compileUserDict_keys_are_file_words_witness :
  exists name text line rest,
    In name (userDictNames_ (userDictKnowledge (userDictWorld hondaLine 0))) /\
    fs (userDictWorld hondaLine 0) !! c_str name = Some text /\
    In line (getlines text) /\
    extract_word (chop_cr line) = Some (sjis_honda_soichiro, rest).
Proof.
  apply (compileUserDict_keys_are_file_words (userDictWorld hondaLine 0)
           (userDictKnowledge (userDictWorld hondaLine 0))
           (compiledKnowledge (userDictWorld hondaLine 0)
              (userDictKnowledge (userDictWorld hondaLine 0)))
           true sjis_honda_soichiro hondaDecomposition).
  - discriminate.
  - vm_compute. reflexivity.
  - vm_compute. reflexivity.
Defined.

(** ** Shift-JIS decompositions cover the word *)

Lemma byte_val_zero (c : ascii) : byte_val c = 0 -> c = NUL.
Proof.
  unfold byte_val. intros H.
  rewrite <- (ascii_N_embedding c).
  replace (N_of_ascii c) with 0%N by lia. reflexivity.
Qed.

Lemma byte_val_not_NUL (c : ascii) : byte_val c <> 0 -> Ascii.eqb c NUL = false.
Proof.
  intros H. destruct (Ascii.eqb_spec c NUL) as [-> | _]; [| reflexivity].
  exfalso. apply H. reflexivity.
Qed.

Lemma c_str_app_nul_free (a b : string) :
  count_char NUL a = O -> c_str (a +:+ b) = a +:+ c_str b.
Proof.
  induction a as [| x a IH]; intros Ha; [reflexivity |].
  change (String x a +:+ b) with (String x (a +:+ b)). simpl in *.
  destruct (Ascii.eqb x NUL); [discriminate |]. rewrite IH by exact Ha. reflexivity.
Qed.

Lemma app_empty_r (a : string) : a +:+ EmptyString = a.
Proof.
  induction a as [| x a IH]; [reflexivity |].
  change (String x a +:+ EmptyString) with (String x (a +:+ EmptyString)).
  rewrite IH. reflexivity.
Qed.

Lemma c_str_nul_free (a : string) : count_char NUL a = O -> c_str a = a.
Proof.
  intros Ha. rewrite <- (app_empty_r a) at 1.
  rewrite c_str_app_nul_free by exact Ha. apply app_empty_r.
Qed.

(** A character the Shift-JIS tokenizer yields is the start of the rest, of
    one or two bytes, none of them null. *)
Lemma sjis_next_some (raw ch raw' : string) :
  CTypeTokenizer_next JMA_CType_SJIS raw = Ok (Some ch, raw') ->
  raw = ch +:+ raw' /\ count_char NUL ch = O.
Proof.
  unfold CTypeTokenizer_next. simpl. unfold JMA_CType_SJIS_getByteCount.
  destruct raw as [| c raw]; [discriminate |].
  change (uc (String c raw) 0) with (byte_val c).
  destruct (Z.eqb_spec (byte_val c) 0) as [| H0]; [discriminate |].
  pose proof (byte_val_not_NUL c H0) as Hc.
  destruct (byte_val c <? 128).
  - simpl. intros H. injection H as <- <-. split.
    + destruct raw; reflexivity.
    + simpl. rewrite Hc. reflexivity.
  - destruct raw as [| c2 raw]; [discriminate |].
    change (uc (String c (String c2 raw)) 1) with (byte_val c2).
    destruct (Z.eqb_spec (byte_val c2) 0) as [| H1]; [discriminate |].
    simpl. intros H. injection H as <- <-. split.
    + destruct raw; reflexivity.
    + simpl. rewrite Hc, (byte_val_not_NUL c2 H1). reflexivity.
Qed.

(** The Shift-JIS tokenizer yields the null pointer only where the C string
    ends. *)
Lemma sjis_next_none (raw raw' : string) :
  CTypeTokenizer_next JMA_CType_SJIS raw = Ok (None, raw') -> c_str raw = EmptyString.
Proof.
  unfold CTypeTokenizer_next. simpl. unfold JMA_CType_SJIS_getByteCount.
  destruct raw as [| c raw]; [reflexivity |].
  change (uc (String c (raw)) 0) with (byte_val c).
  destruct (Z.eqb_spec (byte_val c) 0) as [H0 | _].
  - intros _. rewrite (byte_val_zero c H0). reflexivity.
  - destruct (byte_val c <? 128); [discriminate |].
    destruct (uc (String c raw) 1 =? 0); discriminate.
Qed.

Lemma sjis_walkChars_consumes (n : nat) :
  forall (raw acc lex raw' : string) (valid : bool),
    walkChars JMA_CType_SJIS n raw acc = Ok (valid, lex, raw') ->
    exists consumed,
      raw = consumed +:+ raw' /\ count_char NUL consumed = O /\
      lex = acc +:+ consumed.
Proof.
  induction n as [| n IH]; intros raw acc lex raw' valid H; simpl in H.
  - injection H as _ <- <-. exists EmptyString.
    split; [reflexivity |]. split; [reflexivity |]. symmetry. apply app_empty_r.
  - destruct (CTypeTokenizer_next JMA_CType_SJIS raw) as [[[ch |] raw1] |] eqn:Hn;
      simpl in H; try discriminate.
    pose proof (sjis_next_char_not_null _ _ _ Hn) as Hnz.
    apply sjis_next_some in Hn as [-> Hch].
    destruct (Z.eqb_spec (uc ch 0) 0) as [| _]; [contradiction |].
    apply IH in H as (consumed & -> & Hc & ->).
    exists (ch +:+ consumed).
    rewrite (c_str_nul_free ch Hch), !app_assoc_str, count_char_app, Hch, Hc.
    repeat split.
Qed.

Lemma str_concat_app (l1 l2 : list string) :
  str_concat (l1 ++ l2) = str_concat l1 +:+ str_concat l2.
Proof.
  induction l1 as [| x l1 IH]; [reflexivity |]. simpl.
  rewrite IH, app_assoc_str. reflexivity.
Qed.

Lemma sjis_decompose_consumes (compVec : list string) :
  forall (raw raw' : string) (acc dl : MorphemeList),
    decompose JMA_CType_SJIS compVec raw acc = Ok (true, true, dl, raw') ->
    exists consumed,
      raw = consumed +:+ raw' /\ count_char NUL consumed = O /\
      str_concat (map lexicon_ dl) = str_concat (map lexicon_ acc) +:+ consumed.
Proof.
  induction compVec as [| comp comps IH]; intros raw raw' acc dl H; simpl in H.
  - injection H as <- <-. exists EmptyString.
    split; [reflexivity |]. split; [reflexivity |]. symmetry. apply app_empty_r.
  - destruct (negb (isNumber comp)); [discriminate |].
    destruct (walkChars JMA_CType_SJIS _ raw EmptyString)
      as [[[valid lex] raw1] |] eqn:Hw; simpl in H; [| discriminate].
    apply sjis_walkChars_consumes in Hw as (c1 & -> & Hc1 & ->).
    destruct valid; [| discriminate].
    apply IH in H as (c2 & -> & Hc2 & ->).
    exists (c1 +:+ c2).
    rewrite map_app, str_concat_app. simpl.
    rewrite !app_assoc_str, count_char_app, Hc1, Hc2.
    repeat split.
Qed.

(** X19: under the Shift-JIS classifier the lexicons of every entry that
    compileUserDict leaves in decompMap_ put together are the word, read as a
    C string: a decomposition splits the word and loses nothing of it. *)
Theorem compileUserDict_lexicons_cover_word (w : World) (k k' : JMA_Knowledge)
    (b : bool) (word : string) (ms : MorphemeList) :
  ctype_ k = JMA_CType_SJIS ->
  userDictNames_ k <> [] ->
  compileUserDict w k = Ok (b, k') ->
  decompMap_ k' !! word = Some ms ->
  str_concat (map lexicon_ ms) = c_str word.
Proof.
  intros Hct Hne Hc Hk.
  destruct (compileUserDict_entries w k k' b word ms Hne Hc Hk)
    as (name & text & _ & _ & line & rest & pattern & rest2 & dl & raw & raw'
        & _ & _ & _ & Hd & Hn & Hlex).
  rewrite Hct in Hd, Hn.
  apply sjis_decompose_consumes in Hd as (consumed & -> & Hnul & Hcat).
  apply sjis_next_none in Hn.
  rewrite c_str_app_nul_free, Hn, app_empty_r by exact Hnul.
  rewrite Hlex, Hcat. reflexivity.
Qed.

Lemma compileUserDict_lexicons_cover_word_witness :
  str_concat (map lexicon_ hondaDecomposition) = c_str sjis_honda_soichiro.
Proof.
  apply (compileUserDict_lexicons_cover_word (userDictWorld hondaLine 0)
           (userDictKnowledge (userDictWorld hondaLine 0))
           (compiledKnowledge (userDictWorld hondaLine 0)
              (userDictKnowledge (userDictWorld hondaLine 0)))
           true sjis_honda_soichiro hondaDecomposition).
  - reflexivity.
  - discriminate.
  - vm_compute. reflexivity.
  - vm_compute. reflexivity.
Defined.

(** ** compileUserDict, createTagger and loadDict *)

(** X20: once compileUserDict has run over registered files, the binary user
    dictionary has its name and the registered files are as they were, so
    that the assertion of createTagger holds: createTagger answers. *)
Theorem compileUserDict_names_binary_dict (w : World) (k k' : JMA_Knowledge) (b : bool) :
  userDictNames_ k <> [] ->
  compileUserDict w k = Ok (b, k') ->
  binUserDic_ k' = "user.bin" /\ userDictNames_ k' = userDictNames_ k /\
  exists tagger, createTagger w k' = Ok tagger.
Proof.
  intros Hne Hc.
  assert (H : binUserDic_ k' = "user.bin" /\ userDictNames_ k' = userDictNames_ k).
  { unfold compileUserDict in Hc.
    destruct (userDictNames_ k) as [| n ns] eqn:Hn; [contradiction |].
    destruct (convertAll _ _ _ _ _) as [[[c o] k3] |] eqn:Hall; simpl in Hc; [| discriminate].
    apply convertAll_knowledge in Hall as [dm ->].
    destruct (c =? 0); [injection Hc as _ <-; simpl; auto |].
    destruct (JMA_Dictionary_copyStrToDict _ _ _ _) as [d |];
      [| injection Hc as _ <-; simpl; auto].
    destruct (mecab_dict_index _ _ _) as [st d']. injection Hc as _ <-. simpl. auto. }
  destruct H as [Hb Hu]. split; [exact Hb |]. split; [exact Hu |].
  unfold createTagger, hasUserDict. rewrite Hu, Hb.
  destruct (userDictNames_ k); [contradiction |]. simpl. eauto.
Qed.

Lemma compileUserDict_names_binary_dict_witness :
  binUserDic_ (compiledKnowledge (userDictWorld "abc" 0)
                 (userDictKnowledge (userDictWorld "abc" 0))) = "user.bin".
Proof.
  apply (compileUserDict_names_binary_dict (userDictWorld "abc" 0)
           (userDictKnowledge (userDictWorld "abc" 0)) _ true).
  - discriminate.
  - vm_compute. reflexivity.
Defined.

(** X21: when loadDict returns 1 the instance it leaves is one from which
    createTagger creates a tagger, and the archive opened. *)
Theorem loadDict_success_means_tagger (w : World) (k k' : JMA_Knowledge) :
  loadDict w k = Ok (1, k') ->
  createTagger w k' = Ok true /\
  exists d, JMA_Dictionary_open w (createFilePath (systemDictPath_ k) DICT_ARCHIVE_FILE)
            = Some d.
Proof.
  unfold loadDict. destruct (JMA_Dictionary_open _ _) as [d |]; [| discriminate].
  unfold loadDict_after_config. destruct (loadDict_tables _ _) as [ok k6].
  destruct (negb ok); [discriminate |]. unfold loadDict_finish.
  destruct (if hasUserDict k6 then _ else _) as [[compiled k7] |]; simpl; [| discriminate].
  destruct (negb compiled); [discriminate |].
  destruct (createTagger w k7) as [[] |] eqn:Ht; simpl; try discriminate.
  intros H. injection H as <-. split; [exact Ht | eauto].
Qed.

Lemma loadDict_success_means_tagger_witness :
  createTagger malformedWorld
    (match loadDict malformedWorld (JMA_Knowledge_new malformedWorld) with
     | Ok (_, k') => k'
     | Fatal _ => JMA_Knowledge_new malformedWorld
     end) = Ok true.
Proof.
  apply (loadDict_success_means_tagger malformedWorld (JMA_Knowledge_new malformedWorld)).
  vm_compute. reflexivity.
Defined.

(** ** createFilePath *)

Lemma last_char_is_split (c : ascii) (s : string) :
  last_char_is c s = true -> exists p, s = p +:+ String c EmptyString.
Proof.
  induction s as [| x s IH]; [discriminate |].
  destruct s as [| y s'].
  - simpl. intros H. apply Ascii.eqb_eq in H. subst x. exists EmptyString. reflexivity.
  - intros H. change (last_char_is c (String x (String y s')))
      with (last_char_is c (String y s')) in H.
    destruct (IH H) as [p Hp]. exists (String x p). rewrite Hp. reflexivity.
Qed.

Lemma last_char_is_app (c : ascii) (p : string) :
  last_char_is c (p +:+ String c EmptyString) = true.
Proof.
  induction p as [| x p IH]; [simpl; apply Ascii.eqb_refl |].
  change (String x p +:+ String c EmptyString)
    with (String x (p +:+ String c EmptyString)).
  destruct (p +:+ String c EmptyString) eqn:Hp; [destruct p; discriminate |].
  exact IH.
Qed.

(** X22: the path of a file in a directory.  For the empty directory it is
    the file name alone; for a directory that ends with '/' it is the
    directory and the file name, with no '/' added; for any other directory
    it is the directory, one '/' and the file name. *)
Theorem createFilePath_joins (dir file : string) :
  createFilePath EmptyString file = file /\
  (forall p, createFilePath (p +:+ "/") file = (p +:+ "/") +:+ file) /\
  (dir <> EmptyString -> (forall p, dir <> p +:+ "/") ->
   createFilePath dir file = (dir +:+ "/") +:+ file).
Proof.
  unfold createFilePath. split; [reflexivity |]. split.
  - intros p. rewrite (last_char_is_app "/" p). rewrite andb_false_r. reflexivity.
  - intros Hne Hno.
    assert (He : str_empty dir = false) by (destruct dir; [contradiction | reflexivity]).
    rewrite He. destruct (last_char_is "/" dir) eqn:Hl; [| reflexivity].
    destruct (last_char_is_split _ _ Hl) as [p Hp]. destruct (Hno p Hp).
Qed.

Lemma createFilePath_joins_witness :
  createFilePath "db" "sys.bin" = ("db" +:+ "/") +:+ "sys.bin".
Proof.
  apply (createFilePath_joins "db" "sys.bin").
  - discriminate.
  - intros [| a [| b [| c p]]]; discriminate.
Defined.

(** ** The classifier and the encoding type *)

Lemma configured_alike_refl (k : JMA_Knowledge) : configured_alike k k.
Proof. repeat split. Qed.

Lemma configured_alike_trans (k1 k2 k3 : JMA_Knowledge) :
  configured_alike k1 k2 -> configured_alike k2 k3 -> configured_alike k1 k3.
Proof.
  unfold configured_alike. intros H1 H2.
  repeat match goal with H : _ /\ _ |- _ => destruct H end.
  repeat split; congruence.
Qed.

Lemma loadDict_tables_alike (w : World) (k1 : JMA_Knowledge) :
  configured_alike k1 (loadDict_tables w k1).2.
Proof.
  unfold loadDict_tables.
  destruct (POSTable_loadConfig _ _ _ _ _ _) as [[] pt]; simpl; [| repeat split].
  destruct (POSTable_loadCombineRule _ _ _); repeat split.
Qed.

Lemma loadDict_finish_alike (w : World) (k6 k7 : JMA_Knowledge) (r : Z) :
  loadDict_finish w k6 = Ok (r, k7) -> configured_alike k6 k7.
Proof.
  intros H. apply loadDict_finish_knowledge in H as (dm & bin & d & ->). repeat split.
Qed.

Lemma loadDict_finish_status (w : World) (k6 k7 : JMA_Knowledge) (r : Z) :
  loadDict_finish w k6 = Ok (r, k7) -> r = 0 \/ r = 1.
Proof.
  unfold loadDict_finish.
  destruct (if hasUserDict k6 then _ else _) as [[b k] |]; simpl; [| discriminate].
  destruct (negb b); [intros H; injection H as <- _; auto |].
  destruct (createTagger w k) as [[] |]; simpl; [| | discriminate];
    intros H; injection H as <- _; auto.
Qed.

Lemma loadDict_frame (w : World) (k k' : JMA_Knowledge) (r : Z) :
  loadDict w k = Ok (r, k') ->
  (r = 0 \/ r = 1) /\ configured_alike k k'.
Proof.
  unfold loadDict. intros H.
  destruct (JMA_Dictionary_open _ _) as [d |];
    [| injection H as <- <-; split; [auto | apply configured_alike_refl]].
  unfold loadDict_after_config in H.
  assert (Hc : configured_alike k (loadDictConfig w (with_dictionary d k))).
  { unfold loadDictConfig. destruct (loadConfig0 _ _ _). repeat split. }
  pose proof (loadDict_tables_alike w (loadDictConfig w (with_dictionary d k))) as Ht.
  destruct (loadDict_tables _ _) as [ok k6]. simpl in Ht.
  pose proof (configured_alike_trans _ _ _ Hc Ht) as H6.
  destruct (negb ok).
  - injection H as <- <-. auto.
  - split; [exact (loadDict_finish_status _ _ _ _ H) |].
    exact (configured_alike_trans _ _ _ H6 (loadDict_finish_alike _ _ _ _ H)).
Qed.

(** X23: whatever loadDict returns, it is 0 or 1 and the instance keeps
    what the caller configured: the encoding type and the classifier, the
    directory of the system dictionary, the registered user dictionaries, the
    stop words, the sentence separators and the keyword POS. *)
Theorem loadDict_keeps_configuration (w : World) (k k' : JMA_Knowledge) (r : Z) :
  loadDict w k = Ok (r, k') ->
  (r = 0 \/ r = 1) /\ configured_alike k k'.
Proof. exact (loadDict_frame w k k' r). Qed.

Lemma loadDict_keeps_configuration_witness :
  (1 = 0 \/ 1 = 1) /\
  configured_alike (JMA_Knowledge_new malformedWorld)
    (match loadDict malformedWorld (JMA_Knowledge_new malformedWorld) with
     | Ok (_, k') => k'
     | Fatal _ => JMA_Knowledge_new malformedWorld
     end).
Proof.
  apply (loadDict_keeps_configuration malformedWorld (JMA_Knowledge_new malformedWorld)).
  vm_compute. reflexivity.
Defined.

(** X24: every assertion on the way of loadDict belongs to the user
    dictionaries: with none registered, loadDict returns. *)
Theorem loadDict_returns_without_user_dict (w : World) (k : JMA_Knowledge) :
  userDictNames_ k = [] ->
  exists r k', loadDict w k = Ok (r, k').
Proof.
  intros Hn. unfold loadDict.
  destruct (JMA_Dictionary_open _ _) as [d |]; [| exists 0, k; reflexivity].
  unfold loadDict_after_config.
  assert (Hc : configured_alike k (loadDictConfig w (with_dictionary d k))).
  { unfold loadDictConfig. destruct (loadConfig0 _ _ _). repeat split. }
  pose proof (loadDict_tables_alike w (loadDictConfig w (with_dictionary d k))) as Ht.
  destruct (loadDict_tables _ _) as [ok k6]. simpl in Ht.
  pose proof (configured_alike_trans _ _ _ Hc Ht) as H6.
  destruct (negb ok); [exists 0, k6; reflexivity |].
  destruct H6 as (_ & _ & _ & Hu & _). rewrite Hn in Hu.
  unfold loadDict_finish, createTagger, hasUserDict. rewrite Hu. simpl. rewrite Hu.
  simpl. destruct (MeCab_createTagger _ _ _); [exists 1, k6 | exists 0, k6]; reflexivity.
Qed.

Lemma loadDict_returns_without_user_dict_witness :
  exists r k', loadDict malformedWorld (JMA_Knowledge_new malformedWorld) = Ok (r, k').
Proof.
  apply (loadDict_returns_without_user_dict malformedWorld
           (JMA_Knowledge_new malformedWorld)).
  reflexivity.
Defined.

(** X25: the classifier is always the one of the encoding type: this holds
    of a new instance, setEncodeType sets the type asked for and keeps it,
    and loadDict, loadStopWordDict, loadSentenceSeparatorConfig and
    addSentenceSeparator change neither the type nor the classifier. *)
Theorem classifier_follows_encoding (w : World) (k : JMA_Knowledge) (t : EncodeType) :
  classifier_in_step w (JMA_Knowledge_new w) /\
  (classifier_in_step w k ->
   encodeType_ (setEncodeType w t k) = t /\
   classifier_in_step w (setEncodeType w t k)) /\
  (classifier_in_step w k ->
   (forall r k', loadDict w k = Ok (r, k') -> classifier_in_step w k') /\
   (forall f, classifier_in_step w (loadStopWordDict w f k).2) /\
   (forall f r k', loadSentenceSeparatorConfig w f k = Ok (r, k') ->
      classifier_in_step w k') /\
   (forall v k', addSentenceSeparator v k = Ok k' -> classifier_in_step w k')).
Proof.
  unfold classifier_in_step. split; [reflexivity |]. split.
  - intros Hk. unfold setEncodeType.
    destruct (decide (encodeType_ k = t)) as [<- | Hne]; [auto |]. split; reflexivity.
  - intros Hk. split; [| split; [| split]].
    + intros r k' H. apply loadDict_frame in H as (_ & -> & -> & _).
      exact Hk.
    + intros f. unfold loadStopWordDict. destruct (fs w !! f); exact Hk.
    + intros f r k'. unfold loadSentenceSeparatorConfig.
      destruct (fs w !! f).
      * destruct (foldM _ _ _); simpl; [| discriminate].
        intros H. injection H as _ <-. exact Hk.
      * intros H. injection H as _ <-. exact Hk.
    + intros v k'. unfold addSentenceSeparator.
      destruct (getOccupiedBytes v); simpl; [| discriminate].
      intros H. injection H as <-. exact Hk.
Qed.

Lemma classifier_follows_encoding_witness :
  encodeType_ (setEncodeType separatorWorld ENCODE_TYPE_SJIS
                 (JMA_Knowledge_new separatorWorld)) = ENCODE_TYPE_SJIS /\
  classifier_in_step separatorWorld
    (setEncodeType separatorWorld ENCODE_TYPE_SJIS (JMA_Knowledge_new separatorWorld)).
Proof.
  apply (proj1 (proj2 (classifier_follows_encoding separatorWorld
                         (JMA_Knowledge_new separatorWorld) ENCODE_TYPE_SJIS))).
  reflexivity.
Defined.

(** ** Stop words *)

Lemma stopWords_fold (lines : list string) :
  forall (s : gset string) (x : string),
    x ∈ foldl (fun (s : gset string) l =>
                 if str_empty (chop_cr l) then s else {[chop_cr l]} ∪ s) s lines
    <-> x ∈ s \/ (x <> EmptyString /\ exists l, In l lines /\ chop_cr l = x).
Proof.
  induction lines as [| l ls IH]; intros s x; simpl.
  - split; [auto |]. intros [H | (_ & l & [] & _)]. exact H.
  - rewrite IH. destruct (chop_cr l) as [| c r] eqn:Hl; simpl.
    + split.
      * intros [H | (Hne & l' & Hin & Hx)]; [auto |]. right. split; [exact Hne |]. eauto.
      * intros [H | (Hne & l' & [<- | Hin] & Hx)]; [auto | |].
        -- rewrite Hl in Hx. congruence.
        -- right. split; [exact Hne |]. eauto.
    + split.
      * intros [H | (Hne & l' & Hin & Hx)].
        -- apply elem_of_union in H as [H | H]; [| auto].
           apply elem_of_singleton in H. subst x. right. split; [discriminate |]. eauto.
        -- right. split; [exact Hne |]. eauto.
      * intros [H | (Hne & l' & [<- | Hin] & Hx)].
        -- left. apply elem_of_union. right. exact H.
        -- left. rewrite Hl in Hx. apply elem_of_union. left.
           apply elem_of_singleton. symmetry. exact Hx.
        -- right. split; [exact Hne |]. eauto.
Qed.

(** X26: after a stop-word file loaded, the stop words are those held
    before and the lines of the file, cut at the carriage return, that are
    not empty; the empty string is never added.  Each of them is a stop word
    for isStopWord, whatever the classifier says of white space. *)
Theorem loadStopWordDict_words (w : World) (fileName text : string)
    (k : JMA_Knowledge) (x : string) (isSpace : string -> bool) :
  fs w !! fileName = Some text ->
  (loadStopWordDict w fileName k).1 = 1 /\
  (x ∈ stopWords_ (loadStopWordDict w fileName k).2 <->
   x ∈ stopWords_ k \/
   (x <> EmptyString /\ exists l, In l (getlines text) /\ chop_cr l = x)) /\
  (x ∈ stopWords_ (loadStopWordDict w fileName k).2 ->
   isStopWord isSpace (loadStopWordDict w fileName k).2 x = true).
Proof.
  intros Hfs. unfold loadStopWordDict. rewrite Hfs. simpl.
  split; [reflexivity |]. split.
  - apply stopWords_fold.
  - intros H. unfold isStopWord. simpl. rewrite bool_decide_eq_true_2 by exact H.
    reflexivity.
Qed.

Lemma loadStopWordDict_words_witness :
  (loadStopWordDict separatorWorld "sen-a.config" (sjisKnowledge separatorWorld)).1 = 1 /\
  ("." ∈ stopWords_ (loadStopWordDict separatorWorld "sen-a.config"
                       (sjisKnowledge separatorWorld)).2 <->
   "." ∈ stopWords_ (sjisKnowledge separatorWorld) \/
   ("." <> EmptyString /\ exists l, In l (getlines ".") /\ chop_cr l = ".")) /\
  ("." ∈ stopWords_ (loadStopWordDict separatorWorld "sen-a.config"
                       (sjisKnowledge separatorWorld)).2 ->
   isStopWord (fun _ => false)
     (loadStopWordDict separatorWorld "sen-a.config" (sjisKnowledge separatorWorld)).2 "."
   = true).
Proof.
  apply (loadStopWordDict_words separatorWorld "sen-a.config" "."
           (sjisKnowledge separatorWorld) "." (fun _ => false)).
  reflexivity.
Defined.

(** ** Character counts that match the word *)

Lemma decompose_length (ct : JMA_CType) (compVec : list string) :
  forall (raw raw' : string) (acc dl : MorphemeList),
    decompose ct compVec raw acc = Ok (true, true, dl, raw') ->
    length dl = (length acc + length compVec)%nat.
Proof.
  induction compVec as [| comp comps IH]; intros raw raw' acc dl H; simpl in H.
  - injection H as <- _. simpl. lia.
  - destruct (negb (isNumber comp)); [discriminate |].
    destruct (walkChars ct _ raw EmptyString) as [[[valid lex] raw1] |]; simpl in H;
      [| discriminate].
    destruct valid; [| discriminate].
    apply IH in H. rewrite H, length_app. simpl. lia.
Qed.

(** X27: a line whose pattern is all numeric and whose counts sum to the
    number of code points of the word is accepted.  Without a third token the
    record ends with ",*" and decompMap_ receives one morpheme for each count;
    with a third token of as many components, the components are the reading
    forms of the morphemes and are written joined; with a third token of
    another number of components the line is left after its head, the count
    and decompMap_ as they were. *)
Theorem convertLine_matching_counts (ct : JMA_CType) (pos : string)
    (posSize readFormOffset : Z)
    (line0 word rest pattern rest2 : string) (n : nat)
    (ost : string) (dm : gmap string MorphemeList) (count : Z) :
  str_empty (chop_cr line0) || first_char_is ";" (chop_cr line0)
    || first_char_is "#" (chop_cr line0) = false ->
  extract_word (chop_cr line0) = Some (word, rest) ->
  extract_word rest = Some (pattern, rest2) ->
  tokenizeCSV pattern <> [] ->
  Forall (fun comp => isNumber comp = true) (tokenizeCSV pattern) ->
  codePointsLeft ct word n ->
  list_sum (patternCounts (tokenizeCSV pattern)) = n ->
  exists decompList,
    length decompList = length (tokenizeCSV pattern) /\
    (extract_word rest2 = None ->
     convertLine ct pos posSize readFormOffset line0 (ost, dm, count) =
       Ok (finishLine false (tokenizeCSV pattern)
             (ost +:+ csv_head word pos posSize readFormOffset)
             (<[word := decompList]> dm) count)) /\
    (forall pattern2 rest3,
       extract_word rest2 = Some (pattern2, rest3) ->
       convertLine ct pos posSize readFormOffset line0 (ost, dm, count) =
         if (length (tokenizeCSV pattern2) =? length (tokenizeCSV pattern))%nat
         then Ok (finishLine true (tokenizeCSV pattern2)
                    (ost +:+ csv_head word pos posSize readFormOffset)
                    (<[word := setReadForms decompList (tokenizeCSV pattern2)]> dm)
                    count)
         else Ok (ost +:+ csv_head word pos posSize readFormOffset, dm, count)).
Proof.
  intros Hline Hword Hpat Hne Hnum Hleft Hsum.
  destruct (decompose_within ct (tokenizeCSV pattern) word [] n Hnum Hleft ltac:(lia))
    as (dl & raw' & Hd & Hleft').
  pose proof (decompose_length _ _ _ _ _ _ Hd) as Hlen. simpl in Hlen.
  rewrite Hsum, Nat.sub_diag in Hleft'.
  inversion Hleft' as [raw0 Hend Hraw | ]; subst raw0.
  exists dl. split; [exact Hlen |].
  unfold convertLine. rewrite Hline, Hword, Hpat.
  destruct (tokenizeCSV pattern) as [| comp0 comps] eqn:Hcv; [contradiction |].
  assert (Hc0 : isNumber comp0 = true) by (inversion Hnum; assumption).
  rewrite Hc0, Hd. simpl bind. cbv beta iota. simpl negb. cbv iota.
  rewrite Hend. simpl bind. cbv beta iota. split.
  - intros ->. reflexivity.
  - intros pattern2 rest3 ->. rewrite Hlen.
    destruct (tokenizeCSV pattern2) as [| c2 cs2] eqn:H2.
    + rewrite bool_decide_eq_true_2 by reflexivity. reflexivity.
    + rewrite bool_decide_eq_false_2 by discriminate.
      destruct (length (c2 :: cs2) =? length (comp0 :: comps))%nat; reflexivity.
Qed.

Lemma convertLine_matching_counts_witness :
  exists decompList,
    length decompList = length (tokenizeCSV "1,1") /\
    (extract_word EmptyString = None ->
     convertLine JMA_CType_SJIS "N,U" 2 7 "ab 1,1" (EmptyString, ∅, 0) =
       Ok (finishLine false (tokenizeCSV "1,1")
             (EmptyString +:+ csv_head "ab" "N,U" 2 7)
             (<["ab" := decompList]> ∅) 0)) /\
    (forall pattern2 rest3,
       extract_word EmptyString = Some (pattern2, rest3) ->
       convertLine JMA_CType_SJIS "N,U" 2 7 "ab 1,1" (EmptyString, ∅, 0) =
         if (length (tokenizeCSV pattern2) =? length (tokenizeCSV "1,1"))%nat
         then Ok (finishLine true (tokenizeCSV pattern2)
                    (EmptyString +:+ csv_head "ab" "N,U" 2 7)
                    (<["ab" := setReadForms decompList (tokenizeCSV pattern2)]> ∅)
                    0)
         else Ok (EmptyString +:+ csv_head "ab" "N,U" 2 7, ∅, 0)).
Proof.
  apply (convertLine_matching_counts JMA_CType_SJIS "N,U" 2 7 "ab 1,1" "ab" " 1,1" "1,1"
           EmptyString 2 EmptyString ∅ 0).
  - reflexivity.
  - reflexivity.
  - reflexivity.
  - discriminate.
  - repeat constructor.
  - exact ab_has_two_code_points.
  - reflexivity.
Defined.

(** ** The Shift-JIS classifier *)

(** X28: a byte count of the Shift-JIS classifier is 0, 1 or 2, it is 0
    exactly at the end of the C string, and it never reaches past the
    terminating null: the assertion on the trail byte sees to that. *)
Theorem sjis_getByteCount_within (p : string) (n : Z) :
  JMA_CType_SJIS_getByteCount p = Ok n ->
  0 <= n <= 2 /\ n <= Z.of_nat (String.length (c_str p)) /\
  (n = 0 <-> c_str p = EmptyString).
Proof.
  unfold JMA_CType_SJIS_getByteCount.
  destruct p as [| c p].
  { simpl. intros H. injection H as <-. simpl. repeat split; lia. }
  change (uc (String c p) 0) with (byte_val c).
  destruct (Z.eqb_spec (byte_val c) 0) as [H0 | H0].
  { intros H. injection H as <-. rewrite (byte_val_zero c H0). simpl.
    repeat split; lia. }
  pose proof (byte_val_not_NUL c H0) as Hc.
  destruct (byte_val c <? 128).
  { intros H. injection H as <-. simpl. rewrite Hc. cbn [String.length].
    split; [lia |]. split; [lia |]. split; [lia | discriminate]. }
  destruct p as [| c2 p]; [discriminate |].
  change (uc (String c (String c2 p)) 1) with (byte_val c2).
  destruct (Z.eqb_spec (byte_val c2) 0) as [| H1]; [discriminate |].
  intros H. injection H as <-. simpl. rewrite Hc, (byte_val_not_NUL c2 H1). cbn [String.length].
  split; [lia |]. split; [lia |]. split; [lia | discriminate].
Qed.

Lemma sjis_getByteCount_within_witness :
  0 <= 2 <= 2 /\ 2 <= Z.of_nat (String.length (c_str sjis_honda)) /\
  (2 = 0 <-> c_str sjis_honda = EmptyString).
Proof.
  apply (sjis_getByteCount_within sjis_honda 2). reflexivity.
Defined.

(** X29: under the Shift-JIS classifier the separator test looks at the
    first character only: two texts that start with the same ASCII byte, or
    with the same two bytes, get the same answer. *)
Theorem isSentenceSeparator_first_character (k : JMA_Knowledge) (p q : string) :
  ctype_ k = JMA_CType_SJIS ->
  uc p 0 = uc q 0 ->
  (uc p 0 < 128 \/ uc p 1 = uc q 1) ->
  isSentenceSeparator k p = isSentenceSeparator k q.
Proof.
  intros Hct H0 H1. unfold isSentenceSeparator. rewrite Hct. simpl.
  unfold JMA_CType_SJIS_getByteCount, pack1, pack2. rewrite <- H0.
  destruct (uc p 0 =? 0); [reflexivity |].
  destruct (Z.ltb_spec (uc p 0) 128) as [Hlt | Hge]; [reflexivity |].
  destruct H1 as [H1 | H1]; [lia |]. rewrite <- H1.
  destruct (uc p 1 =? 0); reflexivity.
Qed.

Lemma isSentenceSeparator_first_character_witness :
  isSentenceSeparator (sjisKnowledge separatorWorld) "." =
  isSentenceSeparator (sjisKnowledge separatorWorld) ". and more".
Proof.
  apply (isSentenceSeparator_first_character (sjisKnowledge separatorWorld)
           "." ". and more").
  - reflexivity.
  - reflexivity.
  - left. vm_compute. reflexivity.
Defined.
